(** * yusb: a Yorick binding to libusb, embedded in Rocq

    The development follows [src/yusb.c].  The C file is marshalling code
    sitting between two external collaborators: the Yorick interpreter
    (its value stack, its global variables, its error mechanism) and the
    native libusb library.  Both are modelled here as explicit state:

    - the interpreter side is a stack of values, a finite map of global
      variables and the text written to standard output;
    - the native side is an oracle giving the result of every libusb call
      together with the chronological log of the calls issued so far.

    Every function of the C file that the verified properties depend on is
    transcribed below under its own name, as an action of a small
    state-and-error monad ([y_error] is a non-local exit that keeps
    whatever the C globals, the stack and the log contained when it was
    raised).  The arguments of a built-in are given as the values the yapi
    accessors (ygets_i, ygets_l, yget_ref, yarg_nil, ygeta_any, yget_obj,
    yarg_subroutine) return for them; what these accessors do on an
    argument of the wrong kind belongs to the interpreter. *)

From Stdlib Require Import ZArith Ascii String List Lia Bool.
From stdpp Require Import base gmap list strings.
Import ListNotations.

Local Open Scope string_scope.
Local Open Scope Z_scope.
Local Open Scope list_scope.

(** ** Machine integers *)

(** [int] is a 32-bit two's complement integer; arithmetic that may leave
    the range is written with its wrap-around. *)
Definition INT_MIN : Z := - 2 ^ 31.
Definition INT_MAX : Z := 2 ^ 31 - 1.

Definition int_wrap (z : Z) : Z := (z + 2 ^ 31) mod 2 ^ 32 - 2 ^ 31.
Definition int_add (a b : Z) : Z := int_wrap (a + b).
Definition int_sub (a b : Z) : Z := int_wrap (a - b).

Definition in_int (z : Z) : Prop := INT_MIN <= z <= INT_MAX.

(** ** libusb status codes (enum libusb_error of libusb.h) *)

Definition LIBUSB_SUCCESS : Z := 0.
Definition LIBUSB_ERROR_IO : Z := -1.
Definition LIBUSB_ERROR_INVALID_PARAM : Z := -2.
Definition LIBUSB_ERROR_ACCESS : Z := -3.
Definition LIBUSB_ERROR_NO_DEVICE : Z := -4.
Definition LIBUSB_ERROR_NOT_FOUND : Z := -5.
Definition LIBUSB_ERROR_BUSY : Z := -6.
Definition LIBUSB_ERROR_TIMEOUT : Z := -7.
Definition LIBUSB_ERROR_OVERFLOW : Z := -8.
Definition LIBUSB_ERROR_PIPE : Z := -9.
Definition LIBUSB_ERROR_INTERRUPTED : Z := -10.
Definition LIBUSB_ERROR_NO_MEM : Z := -11.
Definition LIBUSB_ERROR_NOT_SUPPORTED : Z := -12.
Definition LIBUSB_ERROR_OTHER : Z := -99.

Definition LIBUSB_LOG_LEVEL_NONE : Z := 0.

(** ERROR_TABLE: the X-macro table of (code, name, description). *)
Definition ERROR_TABLE : list (Z * (string * string)) :=
  [ (LIBUSB_SUCCESS, ("SUCCESS", "Success (no error)"));
    (LIBUSB_ERROR_IO, ("ERROR_IO", "Input/output error."));
    (LIBUSB_ERROR_INVALID_PARAM, ("ERROR_INVALID_PARAM", "Invalid parameter."));
    (LIBUSB_ERROR_ACCESS,
       ("ERROR_ACCESS", "Access denied (insufficient permissions)"));
    (LIBUSB_ERROR_NO_DEVICE,
       ("ERROR_NO_DEVICE", "No such device (it may have been disconnected)"));
    (LIBUSB_ERROR_NOT_FOUND, ("ERROR_NOT_FOUND", "Entity not found."));
    (LIBUSB_ERROR_BUSY, ("ERROR_BUSY", "Resource busy."));
    (LIBUSB_ERROR_TIMEOUT, ("ERROR_TIMEOUT", "Operation timed out."));
    (LIBUSB_ERROR_OVERFLOW, ("ERROR_OVERFLOW", "Overflow."));
    (LIBUSB_ERROR_PIPE, ("ERROR_PIPE", "Pipe error."));
    (LIBUSB_ERROR_INTERRUPTED,
       ("ERROR_INTERRUPTED", "System call interrupted (perhaps due to signal)"));
    (LIBUSB_ERROR_NO_MEM, ("ERROR_NO_MEM", "Insufficient memory."));
    (LIBUSB_ERROR_NOT_SUPPORTED,
       ("ERROR_NOT_SUPPORTED",
        "Operation not supported or unimplemented on this platform."));
    (LIBUSB_ERROR_OTHER, ("ERROR_OTHER", "Other error.")) ].

(** The [switch] over the table: first entry whose case label is [code]. *)
Fixpoint switch_table {A : Type} (code : Z) (t : list (Z * A)) : option A :=
  match t with
  | [] => None
  | (c, a) :: t' => if c =? code then Some a else switch_table code t'
  end.

Definition get_error_name (code : Z) : string :=
  match switch_table code ERROR_TABLE with
  | Some (a, _) => "LIBUSB_" +:+ a
  | None => "UNKNOWN"
  end.

Definition get_error_description (code : Z) : string :=
  match switch_table code ERROR_TABLE with
  | Some (_, b) => b
  | None => "Unknown error."
  end.

(** ** Native objects *)

(** struct libusb_device_descriptor, restricted to the fields the binding
    reads, plus [iProduct], the string index the summary never reads. *)
Record libusb_device_descriptor := {
  idVendor : Z;
  idProduct : Z;
  iManufacturer : Z;
  iProduct : Z;
  iSerialNumber : Z
}.

Definition zero_descriptor : libusb_device_descriptor :=
  {| idVendor := 0; idProduct := 0; iManufacturer := 0; iProduct := 0;
     iSerialNumber := 0 |}.

(** A libusb_device as the binding can observe it: its address in native
    memory, what the three getters answer, and what [libusb_open] and
    [libusb_get_device_descriptor] answer for it. *)
Record libusb_device := {
  dev_ptr : Z;
  bus_number : Z;
  port_number : Z;
  device_address : Z;
  open_status : Z;
  open_handle : Z;
  descriptor_status : Z;
  dev_descriptor : libusb_device_descriptor
}.

(** The libusb entry points the binding calls, as they appear in the log.
    A device list is identified by the position of the call that
    allocated it. *)
Inductive usb_call :=
| CallInit
| CallExit (c : Z)
| CallSetDebug (c : Z) (level : Z)
| CallSetLocale (locale : string)
| CallGetDeviceList (c : Z)
| CallFreeDeviceList (list_id : nat) (unref : Z)
| CallRefDevice (dev : Z)
| CallUnrefDevice (dev : Z)
| CallOpen (dev : Z)
| CallClose (handle : Z)
| CallGetDeviceDescriptor (dev : Z)
| CallGetStringDescriptorAscii (handle : Z) (desc_index : Z) (length : Z)
| CallControlTransfer (handle : Z) (type request value index : Z)
                      (length : Z) (timeout : Z)
| CallBulkTransfer (handle : Z) (endpoint : Z) (offset : Z)
                   (length : Z) (timeout : Z)
| CallInterruptTransfer (handle : Z) (endpoint : Z) (offset : Z)
                        (length : Z) (timeout : Z).

(** What the native library answers.  Every answer may depend on the
    calls issued so far. *)
Record libusb := {
  (* libusb_init: status, and the context pointer left in [ctx] *)
  usb_init : list usb_call -> Z * Z;
  (* libusb_get_device_list: returned count, and the array left in
     [dev_list] *)
  usb_get_device_list : list usb_call -> Z -> Z * list libusb_device;
  (* libusb_get_string_descriptor_ascii: status, and the bytes left in
     the caller's buffer *)
  usb_get_string_descriptor_ascii :
    list usb_call -> Z -> Z -> Z -> Z * list Z;
  (* libusb_control_transfer: status *)
  usb_control_transfer :
    list usb_call -> Z -> Z -> Z -> Z -> Z -> Z -> Z -> Z;
  (* libusb_bulk_transfer, libusb_interrupt_transfer: status, and the
     value left in [transferred] *)
  usb_bulk_transfer : list usb_call -> Z -> Z -> Z -> Z -> Z -> Z * Z;
  usb_interrupt_transfer : list usb_call -> Z -> Z -> Z -> Z -> Z -> Z * Z
}.

(** ** Interpreter objects *)

(** struct _ydev_instance; NULL pointers are [None] and [0]. *)
Record ydev_instance := {
  device : option libusb_device;
  handle : Z;
  descriptor : libusb_device_descriptor;
  bus : Z;
  port : Z;
  address : Z
}.

Definition zero_instance : ydev_instance :=
  {| device := None; handle := 0; descriptor := zero_descriptor;
     bus := 0; port := 0; address := 0 |}.

(** Values the binding pushes on the interpreter stack. *)
Inductive yvalue :=
| YNil
| YInt (v : Z)
| YString (s : string)
| YIntArray (dims : list Z) (data : list Z)
| YObj (o : ydev_instance).

(** Lines of the device summary written to stdout, one constructor per
    [fprintf] format. *)
Inductive out_line :=
| OutDevice (i : Z)
| OutBusNumber (n : Z)
| OutPortNumber (n : Z)
| OutDeviceAddress (n : Z)
| OutVendorID (v : Z)
| OutProductID (v : Z)
| OutManufacturer (s : string)
| OutProduct (s : string)
| OutSerialNumber (s : string).

(** ** Program state *)

Record state := {
  ctx : Z;                            (* static libusb_context* ctx *)
  dev_list_id : nat;                  (* which allocation dev_list points to *)
  dev_list : list libusb_device;      (* the array dev_list points to *)
  dev_count : Z;                      (* static ssize_t dev_count *)
  on_quit : bool;                     (* ycall_on_quit(finalize) was called *)
  stack : list yvalue;                (* interpreter stack, top first *)
  globals : gmap Z yvalue;            (* interpreter global variables *)
  stdout : list out_line;             (* text written so far *)
  calls : list usb_call               (* native calls issued so far *)
}.

Definition initial_state : state :=
  {| ctx := 0; dev_list_id := 0%nat; dev_list := []; dev_count := 0;
     on_quit := false; stack := []; globals := ∅; stdout := [];
     calls := [] |}.

Definition set_ctx (v : Z) (s : state) : state :=
  {| ctx := v; dev_list_id := dev_list_id s; dev_list := dev_list s;
     dev_count := dev_count s; on_quit := on_quit s; stack := stack s;
     globals := globals s; stdout := stdout s; calls := calls s |}.

Definition set_dev_list (i : nat) (l : list libusb_device) (s : state) : state :=
  {| ctx := ctx s; dev_list_id := i; dev_list := l;
     dev_count := dev_count s; on_quit := on_quit s; stack := stack s;
     globals := globals s; stdout := stdout s; calls := calls s |}.

Definition set_dev_count (v : Z) (s : state) : state :=
  {| ctx := ctx s; dev_list_id := dev_list_id s; dev_list := dev_list s;
     dev_count := v; on_quit := on_quit s; stack := stack s;
     globals := globals s; stdout := stdout s; calls := calls s |}.

Definition set_on_quit (v : bool) (s : state) : state :=
  {| ctx := ctx s; dev_list_id := dev_list_id s; dev_list := dev_list s;
     dev_count := dev_count s; on_quit := v; stack := stack s;
     globals := globals s; stdout := stdout s; calls := calls s |}.

Definition set_stack (v : list yvalue) (s : state) : state :=
  {| ctx := ctx s; dev_list_id := dev_list_id s; dev_list := dev_list s;
     dev_count := dev_count s; on_quit := on_quit s; stack := v;
     globals := globals s; stdout := stdout s; calls := calls s |}.

Definition set_globals (v : gmap Z yvalue) (s : state) : state :=
  {| ctx := ctx s; dev_list_id := dev_list_id s; dev_list := dev_list s;
     dev_count := dev_count s; on_quit := on_quit s; stack := stack s;
     globals := v; stdout := stdout s; calls := calls s |}.

Definition set_stdout (v : list out_line) (s : state) : state :=
  {| ctx := ctx s; dev_list_id := dev_list_id s; dev_list := dev_list s;
     dev_count := dev_count s; on_quit := on_quit s; stack := stack s;
     globals := globals s; stdout := v; calls := calls s |}.

Definition set_calls (v : list usb_call) (s : state) : state :=
  {| ctx := ctx s; dev_list_id := dev_list_id s; dev_list := dev_list s;
     dev_count := dev_count s; on_quit := on_quit s; stack := stack s;
     globals := globals s; stdout := stdout s; calls := v |}.

(** ** The monad of interpreter built-ins *)

(** A built-in returns normally, leaves through [y_error] with a message,
    or leaves what C defines: a read outside an array, or a loop that would
    need more turns than the bound given to its transcription. *)
Inductive outcome (A : Type) :=
| Ok (a : A)
| Raised (msg : string)
| Undefined.
Arguments Ok {A} a.
Arguments Raised {A} msg.
Arguments Undefined {A}.

Definition M (A : Type) : Type := state -> outcome A * state.

Definition ret {A : Type} (a : A) : M A := fun s => (Ok a, s).

Definition bind {A B : Type} (m : M A) (k : A -> M B) : M B :=
  fun s =>
    match m s with
    | (Ok a, s') => k a s'
    | (Raised msg, s') => (Raised msg, s')
    | (Undefined, s') => (Undefined, s')
    end.

Declare Scope usb_scope.
Delimit Scope usb_scope with usb.
Notation "x <- c1 ;; c2" := (bind c1 (fun x => c2))
  (at level 100, c1 at next level, c2 at level 200, right associativity)
  : usb_scope.
Notation "c1 ;; c2" := (bind c1 (fun _ => c2))
  (at level 100, c2 at level 200, right associativity) : usb_scope.
Local Open Scope usb_scope.

Definition get {A : Type} (f : state -> A) : M A := fun s => (Ok (f s), s).
Definition modify (f : state -> state) : M unit := fun s => (Ok tt, f s).
Definition when (b : bool) (m : M unit) : M unit := if b then m else ret tt.

(** [y_error]: declared noreturn, so it fits any result type. *)
Definition y_error {A : Type} (msg : string) : M A := fun s => (Raised msg, s).

(** Reading past the end of a native array, or running out of turns. *)
Definition out_of_bounds {A : Type} : M A := fun s => (Undefined, s).

(** Record a native call. *)
Definition log (c : usb_call) : M unit :=
  modify (fun s => set_calls (calls s ++ [c]) s).

(** ** Interpreter primitives (yapi.h) used by the binding *)

Definition ypush (v : yvalue) : M unit :=
  modify (fun s => set_stack (v :: stack s) s).

Definition ypush_int (v : Z) : M unit := ypush (YInt v).
Definition ypush_nil : M unit := ypush YNil.

(** push_string: [ypush_q(NULL)[0] = p_strcpy(str)]. *)
Definition push_string (str : string) : M unit := ypush (YString str).

(** ypush_i(dims): a fresh array of int on top of the stack; the binding
    then writes through the returned pointer. *)
Definition ypush_i (dims : list Z) (ntot : Z) : M unit :=
  ypush (YIntArray dims (replicate (Z.to_nat ntot) 0)).

(** ypush_obj(&ydev_class, sizeof(ydev_instance_t)): a fresh instance on
    top of the stack; [obj] points to it. *)
Definition ypush_obj : M unit := ypush (YObj zero_instance).

(** A store through [obj]: the instance lives on top of the stack. *)
Definition update_obj (f : ydev_instance -> ydev_instance) : M unit :=
  fun s =>
    match stack s with
    | YObj o :: rest => (Ok tt, set_stack (YObj (f o) :: rest) s)
    | _ => (Undefined, s)
    end.

(** A store [data[k] = v] through the pointer returned by [ypush_i]. *)
Definition store_data (k : Z) (v : Z) : M unit :=
  fun s =>
    match stack s with
    | YIntArray dims data :: rest =>
        if (0 <=? k) && (k <? Z.of_nat (length data))
        then (Ok tt,
              set_stack (YIntArray dims (<[Z.to_nat k := v]> data) :: rest) s)
        else (Undefined, s)
    | _ => (Undefined, s)
    end.

(** yput_global(index, iarg): store stack element [iarg] in global
    variable [index]; the stack is left as it is. *)
Definition yput_global (index : Z) (iarg : nat) : M unit :=
  fun s =>
    match stack s !! iarg with
    | Some v => (Ok tt, set_globals (<[index := v]> (globals s)) s)
    | None => (Undefined, s)
    end.

Definition fprintf (l : out_line) : M unit :=
  modify (fun s => set_stdout (stdout s ++ [l]) s).

(** failure(reason, code): always leaves through [y_error]. *)
Definition failure {A : Type} (reason : option string) (code : Z) : M A :=
  match reason with
  | None => y_error (get_error_description code)
  | Some "" => y_error (get_error_description code)
  | Some r => y_error (r +:+ " [" +:+ get_error_name code +:+ "]")
  end.

(** ** Buffers and C strings *)

Definition STRING_DESCRIPTOR_SIZE : Z := 256.

(** A [char] array of STRING_DESCRIPTOR_SIZE bytes holding [bytes]. *)
Definition string_buffer (bytes : list Z) : list Z :=
  take (Z.to_nat STRING_DESCRIPTOR_SIZE)
       (bytes ++ replicate (Z.to_nat STRING_DESCRIPTOR_SIZE) 0).

(** [str[sizeof(str)/sizeof(str[0]) - 1] = 0]. *)
Definition terminate (buf : list Z) : list Z :=
  <[Z.to_nat (STRING_DESCRIPTOR_SIZE - 1) := 0]> buf.

(** The text a [const char*] denotes: the bytes before the first NUL. *)
Fixpoint cstring (buf : list Z) : string :=
  match buf with
  | [] => ""
  | b :: buf' =>
      if b =? 0 then ""
      else String (Ascii.ascii_of_N (Z.to_N (b mod 256))) (cstring buf')
  end.

(** ** The binding *)

Section Binding.

Variable usb : libusb.

(** *** Native calls: log the call, ask the oracle *)

Definition libusb_init : M Z :=
  fun s =>
    let '(code, c) := usb_init usb (calls s) in
    (Ok code, set_ctx c (set_calls (calls s ++ [CallInit]) s)).

Definition libusb_exit (c : Z) : M unit := log (CallExit c).

Definition libusb_set_debug (c level : Z) : M unit := log (CallSetDebug c level).

Definition libusb_setlocale (locale : string) : M unit :=
  log (CallSetLocale locale).

(** [dev_count = libusb_get_device_list(ctx, &dev_list)]: returns the
    count; the array it leaves in [dev_list] is a new allocation. *)
Definition libusb_get_device_list : M Z :=
  fun s =>
    let '(n, l) := usb_get_device_list usb (calls s) (ctx s) in
    (Ok n, set_dev_list (length (calls s)) l
             (set_calls (calls s ++ [CallGetDeviceList (ctx s)]) s)).

(** [libusb_free_device_list(dev_list, unref)]. *)
Definition libusb_free_device_list (unref : Z) : M unit :=
  id <- get dev_list_id ;;
  log (CallFreeDeviceList id unref).

Definition libusb_get_bus_number (dev : libusb_device) : Z := bus_number dev.
Definition libusb_get_port_number (dev : libusb_device) : Z := port_number dev.
Definition libusb_get_device_address (dev : libusb_device) : Z :=
  device_address dev.

Definition libusb_ref_device (dev : libusb_device) : M libusb_device :=
  log (CallRefDevice (dev_ptr dev)) ;; ret dev.

Definition libusb_unref_device (dev : libusb_device) : M unit :=
  log (CallUnrefDevice (dev_ptr dev)).

(** Status, and the handle left in the out parameter. *)
Definition libusb_open (dev : libusb_device) : M (Z * Z) :=
  log (CallOpen (dev_ptr dev)) ;; ret (open_status dev, open_handle dev).

Definition libusb_close (h : Z) : M unit := log (CallClose h).

(** Status, and the descriptor left in the out parameter. *)
Definition libusb_get_device_descriptor (dev : libusb_device)
  : M (Z * libusb_device_descriptor) :=
  log (CallGetDeviceDescriptor (dev_ptr dev)) ;;
  ret (descriptor_status dev, dev_descriptor dev).

(** Status, and the caller's buffer after the call. *)
Definition libusb_get_string_descriptor_ascii (h desc_index length : Z)
  : M (Z * list Z) :=
  fun s =>
    let '(code, bytes) :=
      usb_get_string_descriptor_ascii usb (calls s) h desc_index length in
    (Ok (code, string_buffer bytes),
     set_calls (calls s ++ [CallGetStringDescriptorAscii h desc_index length]) s).

Definition libusb_control_transfer
  (h type request value index length timeout : Z) : M Z :=
  fun s =>
    (Ok (usb_control_transfer usb (calls s) h type request value index
           length timeout),
     set_calls
       (calls s ++ [CallControlTransfer h type request value index
                      length timeout]) s).

(** Status, and the value left in [transferred]; [offset] is the position
    of the [data] argument inside the caller's buffer. *)
Definition libusb_bulk_transfer (h endpoint offset length timeout : Z)
  : M (Z * Z) :=
  fun s =>
    (Ok (usb_bulk_transfer usb (calls s) h endpoint offset length timeout),
     set_calls
       (calls s ++ [CallBulkTransfer h endpoint offset length timeout]) s).

Definition libusb_interrupt_transfer (h endpoint offset length timeout : Z)
  : M (Z * Z) :=
  fun s =>
    (Ok (usb_interrupt_transfer usb (calls s) h endpoint offset length timeout),
     set_calls
       (calls s ++ [CallInterruptTransfer h endpoint offset length timeout]) s).

(** *** Context and device list *)

Definition free_dev_list : M unit :=
  n <- get dev_count ;;
  if 0 <? n then
    modify (set_dev_count 0) ;;
    libusb_free_device_list 1
  else ret tt.

(** must only be called on exit *)
Definition finalize : M unit :=
  tmp <- get ctx ;;
  modify (set_ctx 0) ;;
  free_dev_list ;;
  if negb (tmp =? 0) then libusb_exit tmp else ret tt.

Definition initialize : M unit :=
  c <- get ctx ;;
  if c =? 0 then
    code <- libusb_init ;;
    (if negb (code =? 0) then
       c1 <- get ctx ;;
       when (negb (c1 =? 0))
         (y_error
            "*** ASSERTION FAILED *** non NULL context on libusb_init failure") ;;
       failure None code
     else ret tt) ;;
    c2 <- get ctx ;;
    when (c2 =? 0)
      (y_error "*** ASSERTION FAILED *** NULL context on libusb_init success") ;;
    modify (set_on_quit true) ;;
    libusb_set_debug c2 LIBUSB_LOG_LEVEL_NONE ;;
    libusb_setlocale "en"
  else ret tt.

(** #define INITIALIZE if (ctx != NULL) ; else initialize() *)
Definition INITIALIZE : M unit :=
  c <- get ctx ;;
  if negb (c =? 0) then ret tt else initialize.

Definition load_device_list : M unit :=
  INITIALIZE ;;
  free_dev_list ;; (* in case of interrupts *)
  n <- libusb_get_device_list ;;
  modify (set_dev_count n) ;;
  when (n <? 0) (y_error "failed to get USB devices list").

(** [dev_list[i]] *)
Definition dev_list_at (i : Z) : M libusb_device :=
  l <- get dev_list ;;
  if i <? 0 then out_of_bounds
  else match l !! Z.to_nat i with
       | Some dev => ret dev
       | None => out_of_bounds
       end.

(** *** String descriptors *)

Definition get_string_descriptor (h index length : Z) : M (Z * list Z) :=
  libusb_get_string_descriptor_ascii h (Z.land index 255) length.

Definition get_string (h index : Z) : M string :=
  if index <=? 0 then ret "unknown"
  else
    r <- get_string_descriptor h index STRING_DESCRIPTOR_SIZE ;;
    let '(code, str) := r in
    (if negb (code =? 0) then
       libusb_close h ;;
       failure None code
     else ret tt) ;;
    ret (cstring (terminate str)).

(** *** Y_usb_summary *)

(** One iteration of the [for] loop of Y_usb_summary. *)
Definition summary_body (i : Z) : M unit :=
  dev <- dev_list_at i ;;
  let bus_number := libusb_get_bus_number dev in
  let port_number := libusb_get_port_number dev in
  let device_address := libusb_get_device_address dev in
  fprintf (OutDevice i) ;;
  fprintf (OutBusNumber bus_number) ;;
  fprintf (OutPortNumber port_number) ;;
  fprintf (OutDeviceAddress device_address) ;;
  r <- libusb_get_device_descriptor dev ;;
  let '(code, desc) := r in
  (if negb (code =? 0) then failure None code else ret tt) ;;
  fprintf (OutVendorID (idVendor desc)) ;;
  fprintf (OutProductID (idProduct desc)) ;;
  r <- libusb_open dev ;;
  let '(code, h) := r in
  if code =? 0 then
    s1 <- get_string h (iManufacturer desc) ;;
    fprintf (OutManufacturer s1) ;;
    s2 <- get_string h (idProduct desc) ;;
    fprintf (OutProduct s2) ;;
    s3 <- get_string h (iSerialNumber desc) ;;
    fprintf (OutSerialNumber s3) ;;
    libusb_close h
  else ret tt.

(** [for (i = 0; i < dev_count; ++i)]: the condition is read from the
    global at every turn; [fuel] bounds the number of turns, and callers
    give one more than [dev_count], which the loop cannot exhaust. *)
Fixpoint summary_loop (fuel : nat) (i : Z) : M unit :=
  match fuel with
  | O => out_of_bounds
  | S fuel' =>
      n <- get dev_count ;;
      if i <? n then summary_body i ;; summary_loop fuel' (i + 1)
      else ret tt
  end.

(** [argc] is not read. *)
Definition Y_usb_summary (argc : Z) : M unit :=
  load_device_list ;;
  n <- get dev_count ;;
  summary_loop (S (Z.to_nat n)) 0 ;;
  free_dev_list ;;
  ypush_nil.

(** *** The device object *)

Definition set_device (d : option libusb_device) (o : ydev_instance) :=
  {| device := d; handle := handle o; descriptor := descriptor o;
     bus := bus o; port := port o; address := address o |}.
Definition set_handle (h : Z) (o : ydev_instance) :=
  {| device := device o; handle := h; descriptor := descriptor o;
     bus := bus o; port := port o; address := address o |}.
Definition set_descriptor (d : libusb_device_descriptor) (o : ydev_instance) :=
  {| device := device o; handle := handle o; descriptor := d;
     bus := bus o; port := port o; address := address o |}.
Definition set_bus (v : Z) (o : ydev_instance) :=
  {| device := device o; handle := handle o; descriptor := descriptor o;
     bus := v; port := port o; address := address o |}.
Definition set_port (v : Z) (o : ydev_instance) :=
  {| device := device o; handle := handle o; descriptor := descriptor o;
     bus := bus o; port := v; address := address o |}.
Definition set_address (v : Z) (o : ydev_instance) :=
  {| device := device o; handle := handle o; descriptor := descriptor o;
     bus := bus o; port := port o; address := v |}.

Definition ydev_free (obj : ydev_instance) : M unit :=
  (if negb (handle obj =? 0) then libusb_close (handle obj) else ret tt) ;;
  match device obj with
  | Some d => libusb_unref_device d
  | None => ret tt
  end.

(** [member != NULL ? member[0] : '\0'] *)
Definition first_char (member : option string) : Ascii.ascii :=
  match member with
  | Some (String c _) => c
  | _ => Ascii.zero
  end.

(** [strcmp(member, name) == 0]; only evaluated when [member] is not
    NULL, since the test on the first character comes first. *)
Definition strcmp_eq (member : option string) (name : string) : bool :=
  match member with
  | Some m => String.eqb m name
  | None => false
  end.

Definition ydev_extract (obj : ydev_instance) (member : option string)
  : M unit :=
  let c := first_char member in
  if Ascii.eqb c "b"%char && strcmp_eq member "bus" then
    ypush_int (bus obj)
  else if Ascii.eqb c "p"%char && strcmp_eq member "port" then
    ypush_int (port obj)
  else if Ascii.eqb c "a"%char && strcmp_eq member "address" then
    ypush_int (address obj)
  else if Ascii.eqb c "v"%char && strcmp_eq member "vendor" then
    ypush_int (idVendor (descriptor obj))
  else if Ascii.eqb c "p"%char && strcmp_eq member "product" then
    ypush_int (idProduct (descriptor obj))
  else if Ascii.eqb c "m"%char && strcmp_eq member "manufacturer" then
    ypush_int (iManufacturer (descriptor obj))
  else if Ascii.eqb c "s"%char && strcmp_eq member "serial" then
    ypush_int (iSerialNumber (descriptor obj))
  else
    y_error "bad member name".

(** *** Y_usb_open_device *)

(** The body of the [if] inside the loop of Y_usb_open_device, up to the
    [break]. *)
Definition open_matched (dev : libusb_device) (bus port : Z) : M unit :=
  ypush_obj ;;
  d <- libusb_ref_device dev ;;
  update_obj (set_device (Some d)) ;;
  r <- libusb_open d ;;
  let '(ret_, h) := r in
  update_obj (set_handle h) ;;
  (if ret_ <? 0 then
     update_obj (set_handle 0) ;;
     failure (Some "failed to open device") ret_
   else ret tt) ;;
  update_obj (set_bus bus) ;;
  update_obj (set_port port) ;;
  update_obj (set_address (libusb_get_device_address dev)) ;;
  r <- libusb_get_device_descriptor dev ;;
  let '(ret_, desc) := r in
  update_obj (set_descriptor desc) ;;
  (if negb (ret_ =? 0) then
     free_dev_list ;;
     failure (Some "unable to get device descriptor") ret_
   else ret tt).

(** The loop; the result tells whether [obj] is non-NULL when it ends. *)
Fixpoint open_loop (bus port : Z) (fuel : nat) (i : Z) : M bool :=
  match fuel with
  | O => out_of_bounds
  | S fuel' =>
      n <- get dev_count ;;
      if i <? n then
        dev <- dev_list_at i ;;
        if (libusb_get_bus_number dev =? bus)
           && (libusb_get_port_number dev =? port)
        then open_matched dev bus port ;; ret true
        else open_loop bus port fuel' (i + 1)
      else ret false
  end.

(** [bus] is ygets_i(1) and [port] is ygets_i(0). *)
Definition Y_usb_open_device (argc : Z) (bus port : Z) : M unit :=
  when (negb (argc =? 2)) (y_error "expecting exactly 2 arguments") ;;
  load_device_list ;;
  n <- get dev_count ;;
  found <- open_loop bus port (S (Z.to_nat n)) 0 ;;
  free_dev_list ;;
  when (negb found) ypush_nil.

(** *** Y__usb_probe_devices *)

Definition probe_body (i : Z) (data : Z) : M unit :=
  dev <- dev_list_at i ;;
  r <- libusb_get_device_descriptor dev ;;
  let '(ret_, desc) := r in
  (if negb (ret_ =? 0) then
     free_dev_list ;;
     failure (Some "unable to get device descriptor") ret_
   else ret tt) ;;
  store_data (data + 0) (libusb_get_bus_number dev) ;;
  store_data (data + 1) (libusb_get_port_number dev) ;;
  store_data (data + 2) (libusb_get_device_address dev) ;;
  store_data (data + 3) (idVendor desc) ;;
  store_data (data + 4) (idProduct desc) ;;
  store_data (data + 5) (iManufacturer desc) ;;
  store_data (data + 6) (iSerialNumber desc).

(** [data] is the position of the moving pointer inside the array. *)
Fixpoint probe_loop (fuel : nat) (i : Z) (data : Z) : M unit :=
  match fuel with
  | O => out_of_bounds
  | S fuel' =>
      n <- get dev_count ;;
      if i <? n then probe_body i data ;; probe_loop fuel' (i + 1) (data + 7)
      else ret tt
  end.

(** [arg_nil] is yarg_nil(0). *)
Definition Y__usb_probe_devices (argc : Z) (arg_nil : bool) : M unit :=
  when (negb (argc =? 1) || negb arg_nil)
    (y_error "expecting exactly one nil argument") ;;
  load_device_list ;;
  n <- get dev_count ;;
  (if 0 <? n then
     ypush_i [7; n] (7 * n) ;;
     probe_loop (S (Z.to_nat n)) 0 0
   else ypush_nil) ;;
  free_dev_list.

(** *** Y_usb_get_string *)

(** [obj] is get_device(1) and [index] is ygets_i(0). *)
Definition Y_usb_get_string (argc : Z) (obj : ydev_instance) (index : Z)
  : M unit :=
  when (negb (argc =? 2)) (y_error "expecting exactly 2 arguments") ;;
  r <- get_string_descriptor (handle obj) index STRING_DESCRIPTOR_SIZE ;;
  let '(ret_, str) := r in
  if ret_ <? 0 then ypush_int ret_
  else push_string (cstring (terminate str)).

(** *** Buffers passed to transfers *)

(** Type codes of yapi.h. *)
Definition Y_CHAR : Z := 0.
Definition Y_SHORT : Z := 1.
Definition Y_INT : Z := 2.
Definition Y_LONG : Z := 3.
Definition Y_FLOAT : Z := 4.
Definition Y_DOUBLE : Z := 5.
Definition Y_COMPLEX : Z := 6.

(** [sizeof] on an LP64 platform. *)
Definition sizeof_char : Z := 1.
Definition sizeof_short : Z := 2.
Definition sizeof_int : Z := 4.
Definition sizeof_long : Z := 8.
Definition sizeof_float : Z := 4.
Definition sizeof_double : Z := 8.

(** What the interpreter holds at a buffer argument: nil, or an array
    with the type code and element count reported by ygeta_any. *)
Inductive ydata :=
| DataNil
| DataArray (type : Z) (ntot : Z).

(** get_data(iarg, &size): the size in bytes written to [*the_size]. *)
Definition get_data (d : ydata) : M Z :=
  match d with
  | DataNil => ret 0
  | DataArray type ntot =>
      if type =? Y_CHAR then ret (sizeof_char * ntot)
      else if type =? Y_SHORT then ret (sizeof_short * ntot)
      else if type =? Y_INT then ret (sizeof_int * ntot)
      else if type =? Y_LONG then ret (sizeof_long * ntot)
      else if type =? Y_FLOAT then ret (sizeof_float * ntot)
      else if type =? Y_DOUBLE then ret (sizeof_double * ntot)
      else if type =? Y_COMPLEX then ret (2 * sizeof_double * ntot)
      else y_error "bad data type"
  end.

(** *** Y_usb_control_transfer *)

(** The eight arguments as the yapi accessors return them, before any
    masking, and the answer of yarg_subroutine(). *)
Record control_args := {
  ca_obj : ydev_instance;      (* get_device(7) *)
  ca_type : Z;                 (* ygets_i(6) *)
  ca_request : Z;              (* ygets_i(5) *)
  ca_value : Z;                (* ygets_i(4) *)
  ca_index : Z;                (* ygets_i(3) *)
  ca_data : ydata;             (* argument 2 *)
  ca_length : Z;               (* ygets_i(1) *)
  ca_timeout : Z;              (* ygets_l(0) *)
  ca_subroutine : bool         (* yarg_subroutine() *)
}.

Definition Y_usb_control_transfer (argc : Z) (a : control_args) : M unit :=
  (* Get arguments. *)
  when (negb (argc =? 8)) (y_error "expecting exactly 8 arguments") ;;
  let obj := ca_obj a in
  let type := Z.land (ca_type a) 255 in
  let request := Z.land (ca_request a) 255 in
  let value := Z.land (ca_value a) 65535 in
  let index := Z.land (ca_index a) 65535 in
  size <- get_data (ca_data a) ;;
  let length := Z.land (ca_length a) 65535 in
  let timeout := Z.land (ca_timeout a) 4294967295 in
  when (length <? 0) (y_error "invalid length") ;;
  when (size <? length)
    (y_error "length must be at most the size of the data") ;;
  (* Apply operation. *)
  ret_ <- libusb_control_transfer (handle obj) type request value index
            length timeout ;;
  (if (ret_ <? 0) && ca_subroutine a then failure None ret_ else ret tt) ;;
  ypush_int ret_.

(** *** do_transfer *)

(** The arguments of a bulk or interrupt transfer as the yapi accessors
    return them; [ta_offset] is only read when seven arguments are given. *)
Record transfer_args := {
  ta_obj : ydev_instance;      (* get_device *)
  ta_endpoint : Z;             (* ygets_i *)
  ta_data : ydata;             (* the buffer argument *)
  ta_length : Z;               (* ygets_i *)
  ta_transferred_index : Z;    (* yget_ref *)
  ta_timeout : Z;              (* ygets_l *)
  ta_offset : Z;               (* ygets_i, seventh argument *)
  ta_subroutine : bool         (* yarg_subroutine() *)
}.

Definition do_transfer (argc : Z)
  (transfer : Z -> Z -> Z -> Z -> Z -> M (Z * Z)) (a : transfer_args)
  : M unit :=
  (* Get arguments. *)
  when (negb (argc =? 6) && negb (argc =? 7))
    (y_error "expecting 6 or 7 arguments") ;;
  let iarg := argc in
  let iarg := iarg - 1 in
  let obj := ta_obj a in
  let iarg := iarg - 1 in
  let endpoint := Z.land (ta_endpoint a) 255 in
  let iarg := iarg - 1 in
  size <- get_data (ta_data a) ;;
  let iarg := iarg - 1 in
  let length := ta_length a in
  when (length <? 0) (y_error "invalid length") ;;
  when (size <? length)
    (y_error "length must be at most the size of the data") ;;
  let iarg := iarg - 1 in
  let transferred_index := ta_transferred_index a in
  when (transferred_index <? 0)
    (y_error "expecting a simple variable reference") ;;
  let iarg := iarg - 1 in
  let timeout := Z.land (ta_timeout a) 4294967295 in
  offset <-
    (if 0 <? iarg then
       let offset := ta_offset a in
       when ((offset <? 0) || (length <? offset)) (y_error "invalid offset") ;;
       ret offset
     else ret 0) ;;
  (* Apply operation. *)
  ret_ <-
    (if offset <? length then
       r <- transfer (handle obj) endpoint offset (int_sub length offset)
              timeout ;;
       let '(ret_, transferred) := r in
       (if (0 <=? transferred_index)
           && ((ret_ =? 0) || (ret_ =? LIBUSB_ERROR_TIMEOUT))
        then
          (* Store total number of transferred bytes so far. *)
          ypush_int (int_add transferred offset) ;;
          yput_global transferred_index 0
        else ret tt) ;;
       (if (ret_ <? 0) && ta_subroutine a then failure None ret_
        else ret tt) ;;
       ret ret_
     else
       (* Nothing to do. *)
       ret 0) ;;
  ypush_int ret_.

Definition Y_usb_bulk_transfer (argc : Z) (a : transfer_args) : M unit :=
  do_transfer argc libusb_bulk_transfer a.

Definition Y_usb_interrupt_transfer (argc : Z) (a : transfer_args) : M unit :=
  do_transfer argc libusb_interrupt_transfer a.

End Binding.

(** * The rest of the binding

    The built-ins that export the error table and set the debug level,
    transcribed as above. *)

Section Exports.

Variable usb : libusb.

(** yget_global(name, 0): the index of the global variable called
    [name], as the interpreter's symbol table gives it. *)
Variable yget_global : string -> Z.

(** yarg_drop(n): discard the [n] topmost stack elements. *)
Definition yarg_drop (n : nat) : M unit :=
  modify (fun s => set_stack (drop n (stack s)) s).

Definition Y_usb_error_name (argc : Z) (code : Z) : M unit :=
  when (negb (argc =? 1)) (y_error "expected exactly one argument") ;;
  push_string (get_error_name code).

Definition Y_usb_error_description (argc : Z) (code : Z) : M unit :=
  when (negb (argc =? 1)) (y_error "expected exactly one argument") ;;
  push_string (get_error_description code).

Definition define_global_int (name : string) (value : Z) : M unit :=
  ypush_int value ;;
  yput_global (yget_global name) 0 ;;
  yarg_drop 1.

(** ERROR_TABLE expanded with
    [ERROR_ENTRY(a,b) define_global_int("USB_"#a, LIBUSB_##a);]. *)
Fixpoint define_error_globals (t : list (Z * (string * string))) : M unit :=
  match t with
  | [] => ret tt
  | (code, (a, _)) :: t' =>
      define_global_int ("USB_" +:+ a) code ;;
      define_error_globals t'
  end.

(** [argc] is not read. *)
Definition Y__usb_init (argc : Z) : M unit :=
  define_error_globals ERROR_TABLE ;;
  ypush_nil.

(** [level] is ygets_i(0). *)
Definition Y_usb_debug (argc : Z) (level : Z) : M unit :=
  when (negb (argc =? 1)) (y_error "expecting exactly one argument") ;;
  INITIALIZE usb ;;
  c <- get ctx ;;
  libusb_set_debug c level ;;
  ypush_nil.

End Exports.

(** * Vocabulary of the properties *)

(** The native call string resolution issues for [index] on handle [h]. *)
Definition string_call (h index : Z) : usb_call :=
  CallGetStringDescriptorAscii h (Z.land index 255) STRING_DESCRIPTOR_SIZE.

(** What the native library answers to that call after history [hist]:
    its status, and the text found in the buffer once terminated. *)
Definition string_status (usb : libusb) (hist : list usb_call) (h index : Z)
  : Z :=
  fst (usb_get_string_descriptor_ascii usb hist h (Z.land index 255)
         STRING_DESCRIPTOR_SIZE).

Definition string_text (usb : libusb) (hist : list usb_call) (h index : Z)
  : string :=
  cstring (terminate (string_buffer
    (snd (usb_get_string_descriptor_ascii usb hist h (Z.land index 255)
            STRING_DESCRIPTOR_SIZE)))).


(** ** Fabricated native libraries

    A native library whose answers do not depend on the history: it
    enumerates [devs], answers [strings i] to a string-descriptor request
    for index [i], [control_status] to a control transfer and
    [transfer_reply] to bulk and interrupt transfers. *)
Definition fabricated_usb (devs : list libusb_device)
  (strings : Z -> Z * list Z) (control_status : Z) (transfer_reply : Z * Z)
  : libusb :=
  {| usb_init := fun _ => (0, 1);
     usb_get_device_list := fun _ _ => (Z.of_nat (length devs), devs);
     usb_get_string_descriptor_ascii := fun _ _ i _ => strings i;
     usb_control_transfer := fun _ _ _ _ _ _ _ _ => control_status;
     usb_bulk_transfer := fun _ _ _ _ _ _ => transfer_reply;
     usb_interrupt_transfer := fun _ _ _ _ _ _ => transfer_reply |}.

(** A device on bus 1, port 2, whose product ID (0x0002) differs from
    all three of its string indices. *)
Definition widget_descriptor : libusb_device_descriptor :=
  {| idVendor := 4660; idProduct := 2; iManufacturer := 1; iProduct := 4;
     iSerialNumber := 3 |}.

Definition widget : libusb_device :=
  {| dev_ptr := 4096; bus_number := 1; port_number := 2; device_address := 5;
     open_status := 0; open_handle := 77; descriptor_status := 0;
     dev_descriptor := widget_descriptor |}.

(** The same device when the user lacks the permission to open it. *)
Definition locked_widget : libusb_device :=
  {| dev_ptr := 4096; bus_number := 1; port_number := 2; device_address := 5;
     open_status := LIBUSB_ERROR_ACCESS; open_handle := 0;
     descriptor_status := 0; dev_descriptor := widget_descriptor |}.

(** String descriptors: index [i] holds the one-letter text whose code is
    64 + i ("A" for 1, "B" for 2, ...); the status is [status]. *)
Definition lettered (status : Z) (i : Z) : Z * list Z := (status, [64 + i]).

(** A library that reports string descriptors the way libusb documents
    it: the number of bytes written. *)
Definition byte_counting_usb : libusb :=
  fabricated_usb [widget] (lettered 1) 0 (0, 0).

(** A library whose string requests answer status 0. *)
Definition zero_status_usb : libusb :=
  fabricated_usb [widget] (lettered 0) 0 (0, 0).

(** A library that rejects every string request. *)
Definition rejecting_usb : libusb :=
  fabricated_usb [widget]
    (fun _ => (LIBUSB_ERROR_INVALID_PARAM, [])) 0 (0, 0).

(** The descriptor indices of the string requests found in a log. *)
Definition string_requests (l : list usb_call) : list Z :=
  omap (fun c => match c with
                 | CallGetStringDescriptorAscii _ i _ => Some i
                 | _ => None
                 end) l.

(** ** Transfers *)

(** The buffer argument [d] is accepted by [get_data] with [size] bytes. *)
Definition data_size_is (d : ydata) (size : Z) : Prop :=
  forall s, get_data d s = (Ok size, s).

(** The native call a control transfer issues, and the status the native
    library answers to it after history [hist]. *)
Definition control_call (a : control_args) : usb_call :=
  CallControlTransfer (handle (ca_obj a))
    (Z.land (ca_type a) 255) (Z.land (ca_request a) 255)
    (Z.land (ca_value a) 65535) (Z.land (ca_index a) 65535)
    (Z.land (ca_length a) 65535) (Z.land (ca_timeout a) 4294967295).

Definition control_status (usb : libusb) (hist : list usb_call)
  (a : control_args) : Z :=
  usb_control_transfer usb hist (handle (ca_obj a))
    (Z.land (ca_type a) 255) (Z.land (ca_request a) 255)
    (Z.land (ca_value a) 65535) (Z.land (ca_index a) 65535)
    (Z.land (ca_length a) 65535) (Z.land (ca_timeout a) 4294967295).

(** The two transfers served by [do_transfer]. *)
Inductive transfer_kind := Bulk | Interrupt.

Definition Y_usb_transfer (k : transfer_kind) (usb : libusb)
  : Z -> transfer_args -> M unit :=
  match k with
  | Bulk => Y_usb_bulk_transfer usb
  | Interrupt => Y_usb_interrupt_transfer usb
  end.

(** The starting offset: the seventh argument when there is one, else 0. *)
Definition transfer_offset (argc : Z) (a : transfer_args) : Z :=
  if argc =? 7 then ta_offset a else 0.

(** The arguments pass every check of [do_transfer], for a buffer of
    [size] bytes. *)
Definition transfer_args_valid (argc : Z) (a : transfer_args) (size : Z)
  : Prop :=
  (argc = 6 \/ argc = 7)
  /\ 0 <= ta_length a <= size
  /\ 0 <= ta_transferred_index a
  /\ 0 <= transfer_offset argc a <= ta_length a.

(** The native call a transfer starting at offset [O] issues, and the
    (status, transferred) pair answered to it after history [hist]. *)
Definition transfer_call (k : transfer_kind) (a : transfer_args) (O : Z)
  : usb_call :=
  match k with
  | Bulk =>
      CallBulkTransfer (handle (ta_obj a)) (Z.land (ta_endpoint a) 255) O
        (int_sub (ta_length a) O) (Z.land (ta_timeout a) 4294967295)
  | Interrupt =>
      CallInterruptTransfer (handle (ta_obj a)) (Z.land (ta_endpoint a) 255) O
        (int_sub (ta_length a) O) (Z.land (ta_timeout a) 4294967295)
  end.

Definition transfer_reply (k : transfer_kind) (usb : libusb)
  (hist : list usb_call) (a : transfer_args) (O : Z) : Z * Z :=
  match k with
  | Bulk =>
      usb_bulk_transfer usb hist (handle (ta_obj a))
        (Z.land (ta_endpoint a) 255) O
        (int_sub (ta_length a) O) (Z.land (ta_timeout a) 4294967295)
  | Interrupt =>
      usb_interrupt_transfer usb hist (handle (ta_obj a))
        (Z.land (ta_endpoint a) 255) O
        (int_sub (ta_length a) O) (Z.land (ta_timeout a) 4294967295)
  end.

(** The state a transfer leaves once the native call has answered
    [(r, t)]: the call is logged and, for status 0 or timeout, the
    accumulator value is pushed and stored in the referenced variable. *)
Definition after_transfer (k : transfer_kind) (a : transfer_args) (O : Z)
  (r t : Z) (s : state) : state :=
  let s1 := set_calls (calls s ++ [transfer_call k a O]) s in
  if (r =? 0) || (r =? LIBUSB_ERROR_TIMEOUT) then
    set_globals
      (<[ta_transferred_index a := YInt (int_add t O)]> (globals s))
      (set_stack (YInt (int_add t O) :: stack s) s1)
  else s1.

(** A transfer call of any of the three kinds. *)
Inductive transfer_request :=
| Control (a : control_args)
| BulkOrInterrupt (k : transfer_kind) (argc : Z) (a : transfer_args).

Definition issue (usb : libusb) (q : transfer_request) : M unit :=
  match q with
  | Control a => Y_usb_control_transfer usb 8 a
  | BulkOrInterrupt k argc a => Y_usb_transfer k usb argc a
  end.

(** The call passes validation and has something to transfer, so that the
    native transfer is issued. *)
Definition reaches_native (q : transfer_request) : Prop :=
  match q with
  | Control a =>
      exists size,
        data_size_is (ca_data a) size /\ Z.land (ca_length a) 65535 <= size
  | BulkOrInterrupt k argc a =>
      exists size,
        data_size_is (ta_data a) size
        /\ transfer_args_valid argc a size
        /\ transfer_offset argc a < ta_length a
  end.

(** The status the native transfer answers after history [hist]. *)
Definition native_result (usb : libusb) (hist : list usb_call)
  (q : transfer_request) : Z :=
  match q with
  | Control a => control_status usb hist a
  | BulkOrInterrupt k argc a =>
      fst (transfer_reply k usb hist a (transfer_offset argc a))
  end.

Definition in_subroutine (q : transfer_request) : bool :=
  match q with
  | Control a => ca_subroutine a
  | BulkOrInterrupt _ _ a => ta_subroutine a
  end.

(** ** Fabricated calls *)

Definition open_widget : ydev_instance :=
  {| device := Some widget; handle := 77; descriptor := widget_descriptor;
     bus := 1; port := 2; address := 5 |}.

(** A control transfer on a ten-byte buffer. *)
Definition control_request (length : Z) (sub : bool) : control_args :=
  {| ca_obj := open_widget; ca_type := 192; ca_request := 6; ca_value := 256;
     ca_index := 0; ca_data := DataArray Y_CHAR 10; ca_length := length;
     ca_timeout := 1000; ca_subroutine := sub |}.

(** A bulk or interrupt transfer of [length] bytes of a ten-byte buffer,
    accumulating in global variable 4. *)
Definition transfer_request_of (length offset : Z) (sub : bool)
  : transfer_args :=
  {| ta_obj := open_widget; ta_endpoint := 129;
     ta_data := DataArray Y_CHAR 10; ta_length := length;
     ta_transferred_index := 4; ta_timeout := 1000; ta_offset := offset;
     ta_subroutine := sub |}.

(** The endpoint stalls: every transfer answers LIBUSB_ERROR_PIPE. *)
Definition stalled_usb : libusb :=
  fabricated_usb [widget] (lettered 0) LIBUSB_ERROR_PIPE (LIBUSB_ERROR_PIPE, 0).

(** Three bytes move, then the transfer times out. *)
Definition slow_usb : libusb :=
  fabricated_usb [widget] (lettered 0) LIBUSB_ERROR_TIMEOUT
    (LIBUSB_ERROR_TIMEOUT, 3).

(** A state in which the accumulator variable already holds 2. *)
Definition accumulating_state : state :=
  set_globals (<[4 := YInt 2]> ∅) initial_state.

(** ** Device lists *)

(** The device lists freed in a log, in order. *)
Definition freed (l : list usb_call) : list nat :=
  omap (fun c => match c with
                 | CallFreeDeviceList id _ => Some id
                 | _ => None
                 end) l.

(** The bookkeeping the binding relies on: no list has been freed twice,
    every freed list was allocated by an earlier call, and a positive
    [dev_count] means [dev_list] is an allocated list not yet freed. *)
Definition lists_well_tracked (s : state) : Prop :=
  NoDup (freed (calls s))
  /\ (forall id, id ∈ freed (calls s) -> (id < length (calls s))%nat)
  /\ (0 < dev_count s ->
      (dev_list_id s < length (calls s))%nat
      /\ dev_list_id s ∉ freed (calls s)).

(** [m], run from a well-tracked state satisfying [P], leaves a
    well-tracked state, never reads outside an array, and establishes [Q]
    when it returns normally. *)
Definition tracked_triple {A : Type}
  (P : state -> Prop) (m : M A) (Q : state -> Prop) : Prop :=
  forall s,
    lists_well_tracked s -> P s ->
    lists_well_tracked (snd (m s))
    /\ fst (m s) <> Undefined
    /\ (forall a, fst (m s) = Ok a -> Q (snd (m s))).

(** Load then free, twice in a row, with no use in between. *)
Definition load_free_twice (usb : libusb) : M unit :=
  load_device_list usb ;;
  free_dev_list ;;
  load_device_list usb ;;
  free_dev_list.

(** A library that sees one device at the first enumeration and two at
    the next ones. *)
Definition hotplug_usb : libusb :=
  {| usb_init := fun _ => (0, 1);
     usb_get_device_list := fun hist _ =>
       match hist with
       | [_; _; _] => (1, [widget])
       | _ => (2, [widget; locked_widget])
       end;
     usb_get_string_descriptor_ascii := fun _ _ i _ => lettered 0 i;
     usb_control_transfer := fun _ _ _ _ _ _ _ _ => 0;
     usb_bulk_transfer := fun _ _ _ _ _ _ => (0, 0);
     usb_interrupt_transfer := fun _ _ _ _ _ _ => (0, 0) |}.

(** ** Opening a device *)

(** [dev] is on bus [bus], port [port]. *)
Definition at_bus_port (bus port : Z) (dev : libusb_device) : Prop :=
  bus_number dev = bus /\ port_number dev = port.

(** What reading member [member] of a device object yields: the outcome
    of [ydev_extract] and the stack it leaves, starting from an empty
    stack. *)
Definition read_member (obj : ydev_instance) (member : string)
  : outcome unit * list yvalue :=
  let run := ydev_extract obj (Some member) initial_state in
  (fst run, stack (snd run)).

(** Only a locked device is plugged in. *)
Definition locked_usb : libusb :=
  fabricated_usb [locked_widget] (lettered 0) 0 (0, 0).

(** A device whose descriptor cannot be read. *)
Definition mute_widget : libusb_device :=
  {| dev_ptr := 8192; bus_number := 3; port_number := 1; device_address := 9;
     open_status := 0; open_handle := 78;
     descriptor_status := LIBUSB_ERROR_IO;
     dev_descriptor := zero_descriptor |}.

Definition mute_usb : libusb :=
  fabricated_usb [widget; mute_widget] (lettered 0) 0 (0, 0).
(** ** Vocabulary of the further properties *)

(** The status codes the error table knows. *)
Definition known_codes : list Z := map fst ERROR_TABLE.

(** The global variable that [Y__usb_init] defines for a table entry. *)
Definition exported_index (yget_global : string -> Z)
  (e : Z * (string * string)) : Z :=
  yget_global ("USB_" +:+ fst (snd e)).

(** The global variables after the entries of [t] have been defined, in
    order, over [g]. *)
Definition exported_globals (yget_global : string -> Z)
  (t : list (Z * (string * string))) (g : gmap Z yvalue) : gmap Z yvalue :=
  fold_left (fun g e => <[exported_index yget_global e := YInt (fst e)]> g)
    t g.

(** A symbol table: the index of a name is the code of the name. *)
Definition symbol_table (name : string) : Z := Z.pos (encode name).

(** A native call that takes the context, made with a NULL context. *)
Definition with_null_context (c : usb_call) : bool :=
  match c with
  | CallExit c | CallSetDebug c _ | CallGetDeviceList c => c =? 0
  | _ => false
  end.

(** None of the calls of [l] is made with a NULL context. *)
Definition context_safe (l : list usb_call) : Prop :=
  Forall (fun c => with_null_context c = false) l.

(** libusb_init succeeds once and yields context 1; later calls would
    fail. *)
Definition single_init_usb : libusb :=
  {| usb_init := fun hist => match hist with [] => (0, 1) | _ => (-99, 0) end;
     usb_get_device_list := fun _ _ => (1, [widget]);
     usb_get_string_descriptor_ascii := fun _ _ i _ => lettered 0 i;
     usb_control_transfer := fun _ _ _ _ _ _ _ _ => 0;
     usb_bulk_transfer := fun _ _ _ _ _ _ => (0, 0);
     usb_interrupt_transfer := fun _ _ _ _ _ _ => (0, 0) |}.

(** libusb_init fails for lack of memory. *)
Definition no_init_usb : libusb :=
  {| usb_init := fun _ => (LIBUSB_ERROR_NO_MEM, 0);
     usb_get_device_list := fun _ _ => (0, []);
     usb_get_string_descriptor_ascii := fun _ _ i _ => lettered 0 i;
     usb_control_transfer := fun _ _ _ _ _ _ _ _ => 0;
     usb_bulk_transfer := fun _ _ _ _ _ _ => (0, 0);
     usb_interrupt_transfer := fun _ _ _ _ _ _ => (0, 0) |}.

(** The enumeration fails. *)
Definition no_list_usb : libusb :=
  {| usb_init := fun _ => (0, 1);
     usb_get_device_list := fun _ _ => (LIBUSB_ERROR_NO_MEM, []);
     usb_get_string_descriptor_ascii := fun _ _ i _ => lettered 0 i;
     usb_control_transfer := fun _ _ _ _ _ _ _ _ => 0;
     usb_bulk_transfer := fun _ _ _ _ _ _ => (0, 0);
     usb_interrupt_transfer := fun _ _ _ _ _ _ => (0, 0) |}.

(** The member names a device object answers to. *)
Definition member_names : list string :=
  ["bus"; "port"; "address"; "vendor"; "product"; "manufacturer"; "serial"].

(** The device object on top of the stack, if there is one. *)
Definition top_object (s : state) : option ydev_instance :=
  match stack s with
  | YObj o :: _ => Some o
  | _ => None
  end.

(** The seven integers [Y__usb_probe_devices] stores for a device. *)
Definition device_row (dev : libusb_device) : list Z :=
  [bus_number dev; port_number dev; device_address dev;
   idVendor (dev_descriptor dev); idProduct (dev_descriptor dev);
   iManufacturer (dev_descriptor dev); iSerialNumber (dev_descriptor dev)].

(** The descriptor requests for a list of devices, in order. *)
Definition descriptor_calls (devs : list libusb_device) : list usb_call :=
  map (fun dev => CallGetDeviceDescriptor (dev_ptr dev)) devs.

(** A second readable device, on bus 1, port 3. *)
Definition gadget : libusb_device :=
  {| dev_ptr := 12288; bus_number := 1; port_number := 3; device_address := 6;
     open_status := LIBUSB_ERROR_BUSY; open_handle := 0;
     descriptor_status := 0;
     dev_descriptor :=
       {| idVendor := 1133; idProduct := 49271; iManufacturer := 0;
          iProduct := 2; iSerialNumber := 0 |} |}.

Definition two_device_usb : libusb :=
  fabricated_usb [widget; gadget] (lettered 0) 0 (0, 0).

Definition empty_usb : libusb :=
  fabricated_usb [] (lettered 0) 0 (0, 0).

(** The messages with which [do_transfer] rejects its arguments. *)
Definition transfer_rejections : list string :=
  ["expecting 6 or 7 arguments"; "invalid length";
   "length must be at most the size of the data";
   "expecting a simple variable reference"; "invalid offset"].

(** What a transfer call must respect for a buffer of [size] bytes: every
    scalar within the width of its native type, and the slice
    [offset, offset + length) inside the buffer. *)
Definition within_buffer (size : Z) (c : usb_call) : Prop :=
  match c with
  | CallControlTransfer _ type request value index length timeout =>
      0 <= type <= 255 /\ 0 <= request <= 255
      /\ 0 <= value <= 65535 /\ 0 <= index <= 65535
      /\ 0 <= length <= 65535 /\ length <= size
      /\ 0 <= timeout <= 4294967295
  | CallBulkTransfer _ endpoint offset length timeout
  | CallInterruptTransfer _ endpoint offset length timeout =>
      0 <= endpoint <= 255
      /\ 0 <= offset /\ 0 < length /\ offset + length <= size
      /\ 0 <= timeout <= 4294967295
  | _ => True
  end.

(** The buffer argument and the requested length of a transfer call. *)
Definition request_data (q : transfer_request) : ydata :=
  match q with
  | Control a => ca_data a
  | BulkOrInterrupt _ _ a => ta_data a
  end.

Definition request_length (q : transfer_request) : Z :=
  match q with
  | Control a => ca_length a
  | BulkOrInterrupt _ _ a => ta_length a
  end.

(** The same transfer call resumed at offset [O]. *)
Definition with_offset (O : Z) (a : transfer_args) : transfer_args :=
  {| ta_obj := ta_obj a; ta_endpoint := ta_endpoint a; ta_data := ta_data a;
     ta_length := ta_length a;
     ta_transferred_index := ta_transferred_index a;
     ta_timeout := ta_timeout a; ta_offset := O;
     ta_subroutine := ta_subroutine a |}.

(** Every transfer moves three bytes and times out. *)
Definition three_bytes_usb : libusb :=
  fabricated_usb [widget] (lettered 0) 0 (LIBUSB_ERROR_TIMEOUT, 3).

(** The native library fills the whole buffer with the letter "A" and
    reports success without terminating the text. *)
Definition overflowing_usb : libusb :=
  fabricated_usb [widget] (fun _ => (0, replicate 300 65)) 0 (0, 0).

(** The handles closed in a log, in order. *)
Definition closed (l : list usb_call) : list Z :=
  omap (fun c => match c with
                 | CallClose h => Some h
                 | _ => None
                 end) l.

(** The handle the summary gets for a device, when libusb_open answers
    status 0. *)
Definition opened_handle (dev : libusb_device) : option Z :=
  if open_status dev =? 0 then Some (open_handle dev) else None.

(** A state that differs from [s] by what was logged and printed. *)
Definition logged_and_printed (extra : list usb_call) (out : list out_line)
  (s : state) : state :=
  set_stdout (stdout s ++ out) (set_calls (calls s ++ extra) s).

(** Two devices: the first cannot be opened, the second can. *)
Definition mixed_usb : libusb :=
  fabricated_usb [gadget; widget] (lettered 0) 0 (0, 0).

(** ** Sessions *)

(** [m] keeps the state property [I]: it holds after [m], however [m]
    ends, whenever it held before. *)
Definition keeps {A : Type} (I : state -> Prop) (m : M A) : Prop :=
  forall s, I s -> I (snd (m s)).

(** The native calls that take neither the context nor a device list. *)
Definition plain_call (c : usb_call) : bool :=
  match c with
  | CallRefDevice _ | CallUnrefDevice _ | CallOpen _ | CallClose _
  | CallGetDeviceDescriptor _ | CallGetStringDescriptorAscii _ _ _
  | CallControlTransfer _ _ _ _ _ _ _ | CallBulkTransfer _ _ _ _ _
  | CallInterruptTransfer _ _ _ _ _ => true
  | _ => false
  end.

(** What the interpreter can make the binding do: call a built-in with
    some arguments, read a member of a device object, free a device
    object, or quit. *)
Inductive builtin :=
| BInit (argc : Z)
| BErrorName (argc code : Z)
| BErrorDescription (argc code : Z)
| BDebug (argc level : Z)
| BSummary (argc : Z)
| BOpenDevice (argc bus port : Z)
| BProbeDevices (argc : Z) (arg_nil : bool)
| BGetString (argc : Z) (obj : ydev_instance) (index : Z)
| BControlTransfer (argc : Z) (a : control_args)
| BBulkTransfer (argc : Z) (a : transfer_args)
| BInterruptTransfer (argc : Z) (a : transfer_args)
| BExtract (obj : ydev_instance) (member : option string)
| BFree (obj : ydev_instance)
| BQuit.

Definition run_builtin (usb : libusb) (yget_global : string -> Z)
  (b : builtin) : M unit :=
  match b with
  | BInit argc => Y__usb_init yget_global argc
  | BErrorName argc code => Y_usb_error_name argc code
  | BErrorDescription argc code => Y_usb_error_description argc code
  | BDebug argc level => Y_usb_debug usb argc level
  | BSummary argc => Y_usb_summary usb argc
  | BOpenDevice argc bus port => Y_usb_open_device usb argc bus port
  | BProbeDevices argc arg_nil => Y__usb_probe_devices usb argc arg_nil
  | BGetString argc obj index => Y_usb_get_string usb argc obj index
  | BControlTransfer argc a => Y_usb_control_transfer usb argc a
  | BBulkTransfer argc a => Y_usb_bulk_transfer usb argc a
  | BInterruptTransfer argc a => Y_usb_interrupt_transfer usb argc a
  | BExtract obj member => ydev_extract obj member
  | BFree obj => ydev_free obj
  | BQuit => finalize
  end.

(** A session: the built-ins run one after the other, each in the state
    the previous one left, whether it returned or raised.  Nothing is
    said of what follows an undefined behaviour: the session stops
    there. *)
Fixpoint session (usb : libusb) (yget_global : string -> Z)
  (bs : list builtin) (s : state) : state :=
  match bs with
  | [] => s
  | b :: bs' =>
      match run_builtin usb yget_global b s with
      | (Undefined, s') => s'
      | (_, s') => session usb yget_global bs' s'
      end
  end.

(** [m] never reads or writes outside the device list, the pushed array
    or the stack, and its loops end within their bound. *)
Definition never_undefined {A : Type} (m : M A) : Prop :=
  forall s, fst (m s) <> Undefined.

(** libusb_get_device_list returns the number of devices of the list it
    stores, or a negative error code. *)
Definition counts_its_devices (usb : libusb) : Prop :=
  forall hist c,
    0 <= fst (usb_get_device_list usb hist c) ->
    fst (usb_get_device_list usb hist c)
    = Z.of_nat (length (snd (usb_get_device_list usb hist c))).

(** A library that reports two devices and stores one. *)
Definition miscounting_usb : libusb :=
  {| usb_init := fun _ => (0, 1);
     usb_get_device_list := fun _ _ => (2, [widget]);
     usb_get_string_descriptor_ascii := fun _ _ i _ => lettered 0 i;
     usb_control_transfer := fun _ _ _ _ _ _ _ _ => 0;
     usb_bulk_transfer := fun _ _ _ _ _ _ => (0, 0);
     usb_interrupt_transfer := fun _ _ _ _ _ _ => (0, 0) |}.
(** * Properties *)

(** ** Reasoning about the monad *)

Lemma bind_ok {A B : Type} (m : M A) (k : A -> M B) s a s' :
  m s = (Ok a, s') -> bind m k s = k a s'.
Proof. intros H. unfold bind. now rewrite H. Qed.

Lemma bind_eq {A B : Type} (m : M A) (k : A -> M B) s :
  bind m k s =
  match m s with
  | (Ok a, s') => k a s'
  | (Raised msg, s') => (Raised msg, s')
  | (Undefined, s') => (Undefined, s')
  end.
Proof. reflexivity. Qed.

(** An action that only looks at the state, or only extends it, is
    reduced by computation; this tactic exposes the next step. *)
Ltac step :=
  cbv beta iota delta
    [bind ret get modify when y_error out_of_bounds log
     ypush ypush_int ypush_nil push_string ypush_obj fprintf failure];
  cbn [fst snd ctx dev_list_id dev_list dev_count on_quit stack globals
       stdout calls set_ctx set_dev_list set_dev_count set_on_quit
       set_stack set_globals set_stdout set_calls negb andb orb
       Z.eqb Z.ltb Z.leb Z.compare Pos.eqb Pos.compare Pos.compare_cont
       Z.sub Z.add Z.opp Z.pos_sub Pos.pred_double Pos.add Pos.succ].

(** ** String resolution *)

Lemma get_string_descriptor_run usb h index s :
  get_string_descriptor usb h index STRING_DESCRIPTOR_SIZE s =
  (Ok (string_status usb (calls s) h index,
       string_buffer
         (snd (usb_get_string_descriptor_ascii usb (calls s) h
                 (Z.land index 255) STRING_DESCRIPTOR_SIZE))),
   set_calls (calls s ++ [string_call h index]) s).
Proof.
  unfold get_string_descriptor, libusb_get_string_descriptor_ascii,
    string_status, string_call.
  now destruct (usb_get_string_descriptor_ascii _ _ _ _ _).
Qed.

Lemma get_string_placeholder usb h index s :
  index <= 0 -> get_string usb h index s = (Ok "unknown", s).
Proof.
  intros Hle. unfold get_string.
  destruct (index <=? 0) eqn:E; [reflexivity | lia].
Qed.

Lemma get_string_success usb h index s :
  0 < index ->
  string_status usb (calls s) h index = 0 ->
  get_string usb h index s =
  (Ok (string_text usb (calls s) h index),
   set_calls (calls s ++ [string_call h index]) s).
Proof.
  intros Hpos Hz. unfold get_string.
  destruct (index <=? 0) eqn:E; [lia |].
  rewrite (bind_ok _ _ _ _ _ (get_string_descriptor_run usb h index s)).
  rewrite Hz. reflexivity.
Qed.

Lemma get_string_failure usb h index s :
  0 < index ->
  string_status usb (calls s) h index <> 0 ->
  get_string usb h index s =
  (Raised (get_error_description (string_status usb (calls s) h index)),
   set_calls (calls s ++ [string_call h index; CallClose h]) s).
Proof.
  intros Hpos Hnz. unfold get_string.
  destruct (index <=? 0) eqn:E; [lia |].
  rewrite (bind_ok _ _ _ _ _ (get_string_descriptor_run usb h index s)).
  destruct (string_status usb (calls s) h index =? 0) eqn:Ez; [lia |].
  step. unfold libusb_close. step. rewrite <- app_assoc. reflexivity.
Qed.

(** C10.  In [get_string], for every index > 0, any nonzero status of the
    native string-descriptor call (a positive byte count included) takes
    the failure branch, which closes the handle and then raises; only a
    status of exactly 0 returns the text of the buffer. *)
Theorem C10_get_string_fails_on_any_nonzero_status
  (usb : libusb) (h index : Z) (s : state) :
  0 < index ->
  let code := string_status usb (calls s) h index in
  (code <> 0 ->
   get_string usb h index s =
   (Raised (get_error_description code),
    set_calls (calls s ++ [string_call h index; CallClose h]) s))
  /\ (0 < code -> exists msg s', get_string usb h index s = (Raised msg, s'))
  /\ (code = 0 ->
      get_string usb h index s =
      (Ok (string_text usb (calls s) h index),
       set_calls (calls s ++ [string_call h index]) s))
  /\ (forall text s', get_string usb h index s = (Ok text, s') -> code = 0).
Proof.
  intros Hpos code. repeat split.
  - intros Hnz. now apply get_string_failure.
  - intros Hgt. eexists _, _. apply get_string_failure; [assumption | lia].
  - intros Hz. now apply get_string_success.
  - intros text s' Hrun. destruct (Z.eq_dec code 0) as [|Hnz]; [assumption |].
    rewrite (get_string_failure usb h index s Hpos Hnz) in Hrun. discriminate.
Qed.

Lemma C10_witness :
  get_string byte_counting_usb 77 1 initial_state =
  (Raised "Unknown error.",
   set_calls [string_call 77 1; CallClose 77] initial_state).
Proof.
  destruct (C10_get_string_fails_on_any_nonzero_status
              byte_counting_usb 77 1 initial_state) as [H _].
  - lia.
  - apply H. vm_compute. discriminate.
Defined.

Lemma Y_usb_get_string_run usb obj index s :
  Y_usb_get_string usb 2 obj index s =
  (Ok tt,
   set_stack
     ((if string_status usb (calls s) (handle obj) index <? 0
       then YInt (string_status usb (calls s) (handle obj) index)
       else YString (string_text usb (calls s) (handle obj) index))
      :: stack s)
     (set_calls (calls s ++ [string_call (handle obj) index]) s)).
Proof.
  unfold Y_usb_get_string. step.
  rewrite get_string_descriptor_run.
  destruct (string_status usb (calls s) (handle obj) index <? 0); reflexivity.
Qed.

(** C6 (as amended).  For every index <= 0 the summary-side resolver
    [get_string] issues no native call and returns the placeholder
    "unknown".  The entry point [Y_usb_get_string] has no such guard: for
    every index it issues the native string-descriptor call with the low
    eight bits of the index and pushes either the negative status or the
    text of the buffer. *)
Theorem C6_placeholder_only_in_get_string
  (usb : libusb) (h : Z) (obj : ydev_instance) (index : Z) (s : state) :
  index <= 0 ->
  get_string usb h index s = (Ok "unknown", s)
  /\ Y_usb_get_string usb 2 obj index s =
     (Ok tt,
      set_stack
        ((if string_status usb (calls s) (handle obj) index <? 0
          then YInt (string_status usb (calls s) (handle obj) index)
          else YString (string_text usb (calls s) (handle obj) index))
         :: stack s)
        (set_calls (calls s ++ [string_call (handle obj) index]) s)).
Proof.
  intros Hle. split.
  - now apply get_string_placeholder.
  - apply Y_usb_get_string_run.
Qed.

Lemma C6_witness :
  get_string rejecting_usb 77 0 initial_state = (Ok "unknown", initial_state)
  /\ Y_usb_get_string rejecting_usb 2 zero_instance 0 initial_state =
     (Ok tt,
      set_stack [YInt LIBUSB_ERROR_INVALID_PARAM]
        (set_calls [string_call 0 0] initial_state)).
Proof.
  apply (C6_placeholder_only_in_get_string
           rejecting_usb 77 zero_instance 0 initial_state).
  lia.
Defined.

(** C6 as stated fails for [Y_usb_get_string]: with index 0 it does issue
    the native call, and what it pushes is not the placeholder. *)
Lemma C6_counterexample :
  let run := Y_usb_get_string rejecting_usb 2 zero_instance 0 initial_state in
  calls (snd run) = [CallGetStringDescriptorAscii 0 0 256]
  /\ stack (snd run) = [YInt (-2)]
  /\ ~ (calls (snd run) = calls initial_state
        /\ stack (snd run) = YString "unknown" :: stack initial_state).
Proof.
  vm_compute. repeat split; try discriminate.
  intros [H _]. discriminate.
Qed.

(** ** The device summary *)

Lemma dev_list_at_run i dev s :
  0 <= i -> dev_list s !! Z.to_nat i = Some dev ->
  dev_list_at i s = (Ok dev, s).
Proof.
  intros Hi Hl. unfold dev_list_at. step.
  destruct (i <? 0) eqn:E; [lia |]. now rewrite Hl.
Qed.

(** C9 (as amended).  In the device summary the manufacturer line is
    resolved from the manufacturer string index [iManufacturer]; it is the
    product line that is resolved from the product ID [idProduct], where
    the product string index [iProduct] was intended.  Stated on one turn
    of the loop, for a device that opens, with three positive indices and
    string requests answering status 0. *)
Theorem C9_summary_resolves_product_line_from_idProduct
  (usb : libusb) (dev : libusb_device) (i : Z) (s : state) :
  0 <= i ->
  dev_list s !! Z.to_nat i = Some dev ->
  descriptor_status dev = 0 ->
  open_status dev = 0 ->
  0 < iManufacturer (dev_descriptor dev) ->
  0 < idProduct (dev_descriptor dev) ->
  0 < iSerialNumber (dev_descriptor dev) ->
  (forall hist index, string_status usb hist (open_handle dev) index = 0) ->
  let desc := dev_descriptor dev in
  let h := open_handle dev in
  let hist0 :=
    calls s ++ [CallGetDeviceDescriptor (dev_ptr dev); CallOpen (dev_ptr dev)] in
  let hist1 := hist0 ++ [string_call h (iManufacturer desc)] in
  let hist2 := hist1 ++ [string_call h (idProduct desc)] in
  let hist3 := hist2 ++ [string_call h (iSerialNumber desc)] in
  exists s',
    summary_body usb i s = (Ok tt, s')
    /\ calls s' = hist3 ++ [CallClose h]
    /\ stdout s' =
       stdout s ++
       [OutDevice i; OutBusNumber (bus_number dev);
        OutPortNumber (port_number dev);
        OutDeviceAddress (device_address dev);
        OutVendorID (idVendor desc); OutProductID (idProduct desc);
        OutManufacturer (string_text usb hist0 h (iManufacturer desc));
        OutProduct (string_text usb hist1 h (idProduct desc));
        OutSerialNumber (string_text usb hist2 h (iSerialNumber desc))].
Proof.
  intros Hi Hl Hd Ho Hm Hp Hs Hz desc h hist0 hist1 hist2 hist3.
  unfold summary_body.
  rewrite (bind_ok _ _ _ _ _ (dev_list_at_run i dev s Hi Hl)).
  unfold libusb_get_device_descriptor, libusb_open,
    libusb_get_bus_number, libusb_get_port_number, libusb_get_device_address,
    libusb_close.
  rewrite Hd, Ho. step.
  rewrite get_string_success by (auto using Hz). step.
  rewrite get_string_success by (auto using Hz). step.
  rewrite get_string_success by (auto using Hz). step.
  eexists. split; [reflexivity |].
  subst hist3 hist2 hist1 hist0 h desc. step.
  rewrite <- !app_assoc. cbn [app]. split; reflexivity.
Qed.

Lemma C9_witness :
  exists s',
    summary_body zero_status_usb 0 (set_dev_list 0 [widget] initial_state)
    = (Ok tt, s')
    /\ string_requests (calls s') = [1; 2; 3]
    /\ stdout s' =
       [OutDevice 0; OutBusNumber 1; OutPortNumber 2; OutDeviceAddress 5;
        OutVendorID 4660; OutProductID 2;
        OutManufacturer "A"; OutProduct "B"; OutSerialNumber "C"].
Proof.
  destruct (C9_summary_resolves_product_line_from_idProduct
              zero_status_usb widget 0 (set_dev_list 0 [widget] initial_state))
    as (s' & Hrun & Hcalls & Hout);
    [lia | reflexivity | reflexivity | reflexivity
     | vm_compute; reflexivity | vm_compute; reflexivity
     | vm_compute; reflexivity | reflexivity |].
  exists s'. split; [exact Hrun |]. split.
  - rewrite Hcalls. reflexivity.
  - rewrite Hout. reflexivity.
Defined.

(** C9 as stated fails: the string request that feeds the manufacturer
    line carries [iManufacturer] (here 1), not [idProduct] (here 2); the
    request carrying [idProduct] feeds the product line. *)
Lemma C9_counterexample :
  let run := Y_usb_summary zero_status_usb 0 initial_state in
  fst run = Ok tt
  /\ string_requests (calls (snd run)) =
     [iManufacturer widget_descriptor; idProduct widget_descriptor;
      iSerialNumber widget_descriptor]
  /\ stdout (snd run) =
     [OutDevice 0; OutBusNumber 1; OutPortNumber 2; OutDeviceAddress 5;
      OutVendorID 4660; OutProductID 2;
      OutManufacturer "A"; OutProduct "B"; OutSerialNumber "C"]
  /\ head (string_requests (calls (snd run)))
     <> Some (Z.land (idProduct widget_descriptor) 255).
Proof.
  vm_compute. repeat split. discriminate.
Qed.

(** ** Transfers *)

(** Settle the comparisons of the goal that linear arithmetic decides. *)
Ltac settle :=
  repeat match goal with
  | |- context [Z.ltb ?a ?b] =>
      first [ replace (Z.ltb a b) with true by (symmetry; apply Z.ltb_lt; lia)
            | replace (Z.ltb a b) with false
                by (symmetry; apply Z.ltb_ge; lia) ]
  | |- context [Z.leb ?a ?b] =>
      first [ replace (Z.leb a b) with true by (symmetry; apply Z.leb_le; lia)
            | replace (Z.leb a b) with false
                by (symmetry; apply Z.leb_gt; lia) ]
  | |- context [Z.eqb ?a ?b] =>
      first [ replace (Z.eqb a b) with true by (symmetry; apply Z.eqb_eq; lia)
            | replace (Z.eqb a b) with false
                by (symmetry; apply Z.eqb_neq; lia) ]
  end.

Lemma int_wrap_id z : in_int z -> int_wrap z = z.
Proof.
  unfold in_int, INT_MIN, INT_MAX, int_wrap. intros H.
  rewrite Z.mod_small; lia.
Qed.

Lemma land_mask_nonneg x m : 0 <= m -> 0 <= Z.land x m.
Proof. intros Hm. apply Z.land_nonneg. now right. Qed.

Lemma land_16_le x : 0 <= x -> Z.land x 65535 <= x.
Proof.
  intros Hx. change 65535 with (Z.ones 16).
  rewrite Z.land_ones by lia. apply Z.mod_le; lia.
Qed.

Lemma control_transfer_run usb a s size :
  data_size_is (ca_data a) size ->
  Y_usb_control_transfer usb 8 a s =
  if size <? Z.land (ca_length a) 65535 then
    (Raised "length must be at most the size of the data", s)
  else
    let r := control_status usb (calls s) a in
    let s1 := set_calls (calls s ++ [control_call a]) s in
    if (r <? 0) && ca_subroutine a
    then (Raised (get_error_description r), s1)
    else (Ok tt, set_stack (YInt r :: stack s) s1).
Proof.
  intros Hsize. unfold Y_usb_control_transfer. step.
  rewrite (Hsize s).
  pose proof (land_mask_nonneg (ca_length a) 65535 ltac:(lia)) as Hn.
  destruct (Z.land (ca_length a) 65535 <? 0) eqn:E; [lia |].
  destruct (size <? Z.land (ca_length a) 65535); [reflexivity |].
  unfold libusb_control_transfer. step.
  fold (control_status usb (calls s) a). fold (control_call a).
  destruct (control_status usb (calls s) a <? 0), (ca_subroutine a);
    reflexivity.
Qed.

Lemma transfer_run k usb argc a s size :
  transfer_args_valid argc a size ->
  data_size_is (ta_data a) size ->
  Y_usb_transfer k usb argc a s =
  let O := transfer_offset argc a in
  if O <? ta_length a then
    let r := fst (transfer_reply k usb (calls s) a O) in
    let t := snd (transfer_reply k usb (calls s) a O) in
    let s2 := after_transfer k a O r t s in
    if (r <? 0) && ta_subroutine a
    then (Raised (get_error_description r), s2)
    else (Ok tt, set_stack (YInt r :: stack s2) s2)
  else (Ok tt, set_stack (YInt 0 :: stack s) s).
Proof.
  intros (Hargc & Hlen & Href & Hoff) Hsize.
  unfold transfer_offset in *.
  destruct k, Hargc as [-> | ->]; cbn [Z.eqb Pos.eqb] in *;
    unfold Y_usb_transfer, Y_usb_bulk_transfer, Y_usb_interrupt_transfer,
      do_transfer; step; rewrite (Hsize s); step; settle; step.
  all: match goal with |- context [?o <? ta_length ?x] =>
         destruct (o <? ta_length x); [| reflexivity] end.
  all: unfold libusb_bulk_transfer, libusb_interrupt_transfer, transfer_reply,
         after_transfer, transfer_call.
  all: match goal with |- context [usb_bulk_transfer ?u ?h ?x1 ?x2 ?x3 ?x4 ?x5] =>
         destruct (usb_bulk_transfer u h x1 x2 x3 x4 x5) as [r t]
       | |- context [usb_interrupt_transfer ?u ?h ?x1 ?x2 ?x3 ?x4 ?x5] =>
         destruct (usb_interrupt_transfer u h x1 x2 x3 x4 x5) as [r t]
       end.
  all: step; destruct ((r =? 0) || (r =? LIBUSB_ERROR_TIMEOUT));
         unfold yput_global; step; cbn [lookup list_lookup];
         destruct (r <? 0), (ta_subroutine _); reflexivity.
Qed.

Lemma ten_bytes_size : data_size_is (DataArray Y_CHAR 10) 10.
Proof. intros s. reflexivity. Qed.

(** C1.  A control, bulk or interrupt transfer whose native result is
    negative raises the translated error exactly when the call is made in
    subroutine context, and returns normally with the raw negative status
    on top of the stack exactly when it is not. *)
Theorem C1_failing_transfer_raises_iff_subroutine
  (usb : libusb) (q : transfer_request) (s : state) :
  reaches_native q ->
  native_result usb (calls s) q < 0 ->
  let r := native_result usb (calls s) q in
  let run := issue usb q s in
  (fst run = Raised (get_error_description r) <-> in_subroutine q = true)
  /\ (fst run = Ok tt <-> in_subroutine q = false)
  /\ (in_subroutine q = false -> head (stack (snd run)) = Some (YInt r)).
Proof.
  intros Hq Hneg r run. subst run r.
  destruct q as [a | k argc a]; cbn [issue native_result in_subroutine] in *.
  - destruct Hq as (size & Hsize & Hlen).
    rewrite (control_transfer_run usb a s size Hsize).
    destruct (size <? Z.land (ca_length a) 65535) eqn:E; [lia |].
    cbv zeta.
    destruct (control_status usb (calls s) a <? 0) eqn:En; [| lia].
    destruct (ca_subroutine a); cbn [andb fst snd stack set_stack head];
      repeat split; intros; try reflexivity; try discriminate.
  - destruct Hq as (size & Hsize & Hvalid & Hoff).
    rewrite (transfer_run k usb argc a s size Hvalid Hsize).
    cbv zeta.
    destruct (transfer_offset argc a <? ta_length a) eqn:E; [| lia].
    destruct (fst (transfer_reply k usb (calls s) a (transfer_offset argc a))
              <? 0) eqn:En; [| lia].
    destruct (ta_subroutine a); cbn [andb fst snd stack set_stack head];
      repeat split; intros; try reflexivity; try discriminate.
Qed.

Lemma C1_witness :
  (* subroutine context: the three calls raise *)
  fst (issue stalled_usb (Control (control_request 8 true)) initial_state)
  = Raised "Pipe error."
  /\ fst (issue stalled_usb
            (BulkOrInterrupt Bulk 6 (transfer_request_of 8 0 true))
            initial_state)
     = Raised "Pipe error."
  (* value-producing context: the status is returned *)
  /\ head (stack (snd (issue stalled_usb
                         (BulkOrInterrupt Interrupt 7
                            (transfer_request_of 8 2 false))
                         initial_state)))
     = Some (YInt LIBUSB_ERROR_PIPE).
Proof.
  split; [| split].
  - apply (C1_failing_transfer_raises_iff_subroutine
             stalled_usb (Control (control_request 8 true)) initial_state).
    + exists 10. split; [apply ten_bytes_size | vm_compute; discriminate].
    + reflexivity.
    + reflexivity.
  - apply (C1_failing_transfer_raises_iff_subroutine stalled_usb
             (BulkOrInterrupt Bulk 6 (transfer_request_of 8 0 true))
             initial_state).
    + exists 10. split; [apply ten_bytes_size |].
      unfold transfer_args_valid. cbn. lia.
    + reflexivity.
    + reflexivity.
  - apply (C1_failing_transfer_raises_iff_subroutine stalled_usb
             (BulkOrInterrupt Interrupt 7 (transfer_request_of 8 2 false))
             initial_state).
    + exists 10. split; [apply ten_bytes_size |].
      unfold transfer_args_valid. cbn. lia.
    + reflexivity.
    + reflexivity.
Defined.

Lemma transfer_run_globals k usb argc a s size :
  data_size_is (ta_data a) size ->
  transfer_args_valid argc a size ->
  transfer_offset argc a < ta_length a ->
  let O := transfer_offset argc a in
  globals (snd (Y_usb_transfer k usb argc a s)) =
  globals (after_transfer k a O
             (fst (transfer_reply k usb (calls s) a O))
             (snd (transfer_reply k usb (calls s) a O)) s).
Proof.
  intros Hsize Hvalid Hoff O.
  rewrite (transfer_run k usb argc a s size Hvalid Hsize). cbv zeta.
  fold O. destruct (O <? ta_length a) eqn:E; [| lia].
  destruct (_ && _); reflexivity.
Qed.

(** C3.  A bulk or interrupt transfer with starting offset O strictly
    below the length sets the accumulator variable to transferred + O when
    the native status is 0 or the timeout code (the sum being computed on
    [int], it is exact whenever it is representable), and leaves the
    global variables as they were for every other status. *)
Theorem C3_accumulator_is_transferred_plus_offset
  (k : transfer_kind) (usb : libusb) (argc : Z) (a : transfer_args)
  (size : Z) (s : state) :
  data_size_is (ta_data a) size ->
  transfer_args_valid argc a size ->
  transfer_offset argc a < ta_length a ->
  let O := transfer_offset argc a in
  let r := fst (transfer_reply k usb (calls s) a O) in
  let transferred := snd (transfer_reply k usb (calls s) a O) in
  let s' := snd (Y_usb_transfer k usb argc a s) in
  (r = 0 \/ r = LIBUSB_ERROR_TIMEOUT ->
   in_int (transferred + O) ->
   globals s' =
     <[ta_transferred_index a := YInt (transferred + O)]> (globals s)
   /\ globals s' !! ta_transferred_index a = Some (YInt (transferred + O)))
  /\ (r <> 0 -> r <> LIBUSB_ERROR_TIMEOUT -> globals s' = globals s).
Proof.
  intros Hsize Hvalid Hoff O r transferred s'. subst s'.
  rewrite (transfer_run_globals k usb argc a s size Hsize Hvalid Hoff).
  fold O r transferred. unfold after_transfer.
  split.
  - intros Hr Hint.
    assert ((r =? 0) || (r =? LIBUSB_ERROR_TIMEOUT) = true) as ->.
    { apply orb_true_iff. destruct Hr as [-> | ->]; [left | right];
        reflexivity. }
    unfold int_add. rewrite (int_wrap_id _ Hint). cbn [globals set_globals].
    split; [reflexivity | apply lookup_insert_eq].
  - intros H0 Ht.
    assert ((r =? 0) || (r =? LIBUSB_ERROR_TIMEOUT) = false) as ->.
    { apply orb_false_iff. split; apply Z.eqb_neq; assumption. }
    reflexivity.
Qed.

Lemma C3_witness :
  (* offset 2, three bytes moved before the timeout: the accumulator,
     which held 2, now holds 5 *)
  globals (snd (Y_usb_transfer Bulk slow_usb 7 (transfer_request_of 8 2 false)
                  accumulating_state)) !! 4 = Some (YInt 5)
  (* a stalled endpoint leaves it at 2 *)
  /\ globals (snd (Y_usb_transfer Interrupt stalled_usb 7
                     (transfer_request_of 8 2 false) accumulating_state))
     = globals accumulating_state.
Proof.
  split.
  - apply (C3_accumulator_is_transferred_plus_offset Bulk slow_usb 7
             (transfer_request_of 8 2 false) 10 accumulating_state).
    + apply ten_bytes_size.
    + unfold transfer_args_valid. cbn. lia.
    + cbn. lia.
    + right. reflexivity.
    + unfold in_int, INT_MIN, INT_MAX. cbn. lia.
  - apply (C3_accumulator_is_transferred_plus_offset Interrupt stalled_usb 7
             (transfer_request_of 8 2 false) 10 accumulating_state).
    + apply ten_bytes_size.
    + unfold transfer_args_valid. cbn. lia.
    + cbn. lia.
    + cbn. discriminate.
    + cbn. discriminate.
Defined.

(** C4.  A bulk or interrupt transfer whose offset equals its length, the
    arguments passing validation, pushes status 0 and does nothing else:
    no native call is logged and no global variable is written. *)
Theorem C4_offset_equal_length_is_a_no_op
  (k : transfer_kind) (usb : libusb) (argc : Z) (a : transfer_args)
  (size : Z) (s : state) :
  data_size_is (ta_data a) size ->
  transfer_args_valid argc a size ->
  transfer_offset argc a = ta_length a ->
  let run := Y_usb_transfer k usb argc a s in
  run = (Ok tt, set_stack (YInt 0 :: stack s) s)
  /\ calls (snd run) = calls s
  /\ globals (snd run) = globals s.
Proof.
  intros Hsize Hvalid Hoff run. subst run.
  rewrite (transfer_run k usb argc a s size Hvalid Hsize). cbv zeta.
  destruct (transfer_offset argc a <? ta_length a) eqn:E; [lia |].
  repeat split.
Qed.

Lemma C4_witness :
  Y_usb_transfer Bulk stalled_usb 7 (transfer_request_of 8 8 true)
    accumulating_state
  = (Ok tt, set_stack [YInt 0] accumulating_state).
Proof.
  apply (C4_offset_equal_length_is_a_no_op Bulk stalled_usb 7
           (transfer_request_of 8 8 true) 10 accumulating_state).
  - apply ten_bytes_size.
  - unfold transfer_args_valid. cbn. lia.
  - reflexivity.
Defined.

(** C5 (as amended).  A control transfer reduces the supplied length to
    its low 16 bits before checking it.  If the reduced length exceeds the
    byte size of the buffer, the call fails with the invalid-argument
    error before any native transfer is issued.  If the supplied length
    satisfies 0 <= length <= buffer byte size, no validation error is
    raised: the native transfer is issued, and the call either returns or
    raises the translation of a negative native status. *)
Theorem C5_control_length_is_checked_after_masking
  (usb : libusb) (a : control_args) (size : Z) (s : state) :
  data_size_is (ca_data a) size ->
  let run := Y_usb_control_transfer usb 8 a s in
  let r := control_status usb (calls s) a in
  (size < Z.land (ca_length a) 65535 ->
   run = (Raised "length must be at most the size of the data", s))
  /\ (0 <= ca_length a <= size ->
      calls (snd run) = calls s ++ [control_call a]
      /\ (fst run = Ok tt
          \/ (fst run = Raised (get_error_description r)
              /\ r < 0 /\ ca_subroutine a = true))).
Proof.
  intros Hsize run r. subst run.
  rewrite (control_transfer_run usb a s size Hsize). cbv zeta. fold r.
  split.
  - intros Hgt.
    destruct (size <? Z.land (ca_length a) 65535) eqn:E; [reflexivity | lia].
  - intros [H0 Hle].
    pose proof (land_16_le (ca_length a) H0) as Hm.
    destruct (size <? Z.land (ca_length a) 65535) eqn:E; [lia |].
    destruct (r <? 0) eqn:En, (ca_subroutine a);
      cbn [andb fst snd calls set_calls set_stack];
      (split; [reflexivity |]); try (left; reflexivity).
    right. repeat split. lia.
Qed.

Lemma C5_witness :
  (* 11 bytes asked of a ten-byte buffer *)
  Y_usb_control_transfer stalled_usb 8 (control_request 11 false)
    initial_state
  = (Raised "length must be at most the size of the data", initial_state)
  (* 8 bytes asked: the transfer is issued *)
  /\ calls (snd (Y_usb_control_transfer stalled_usb 8
                   (control_request 8 false) initial_state))
     = [CallControlTransfer 77 192 6 256 0 8 1000].
Proof.
  split.
  - apply (C5_control_length_is_checked_after_masking stalled_usb
             (control_request 11 false) 10 initial_state).
    + apply ten_bytes_size.
    + vm_compute. reflexivity.
  - apply (C5_control_length_is_checked_after_masking stalled_usb
             (control_request 8 false) 10 initial_state).
    + apply ten_bytes_size.
    + cbn. lia.
Defined.

(** C5 as stated fails: a supplied length of 65541 is outside
    0 <= length <= 10, yet no invalid-argument error is raised; the
    transfer is issued with length 5. *)
Lemma C5_counterexample :
  let a := control_request 65541 false in
  let run := Y_usb_control_transfer stalled_usb 8 a initial_state in
  data_size_is (ca_data a) 10
  /\ ~ (0 <= ca_length a <= 10)
  /\ fst run = Ok tt
  /\ calls (snd run) = [CallControlTransfer 77 192 6 256 0 5 1000].
Proof.
  split; [apply ten_bytes_size |].
  split; [cbn; lia |].
  split; reflexivity.
Qed.

(** ** The device list *)

Lemma free_dev_list_run s :
  free_dev_list s =
  (Ok tt,
   if 0 <? dev_count s
   then set_calls (calls s ++ [CallFreeDeviceList (dev_list_id s) 1])
          (set_dev_count 0 s)
   else s).
Proof.
  unfold free_dev_list, libusb_free_device_list. step.
  destruct (0 <? dev_count s); reflexivity.
Qed.

Lemma freed_app l1 l2 : freed (l1 ++ l2) = freed l1 ++ freed l2.
Proof. apply omap_app. Qed.

(** The invariant only looks at the log, the count and the list. *)
Lemma lists_well_tracked_frame s s' extra :
  lists_well_tracked s ->
  calls s' = calls s ++ extra ->
  freed extra = [] ->
  dev_count s' = dev_count s ->
  dev_list_id s' = dev_list_id s ->
  lists_well_tracked s'.
Proof.
  intros (Hnd & Hlt & Hlive) Hc Hf Hn Hid.
  unfold lists_well_tracked.
  rewrite Hc, Hn, Hid, freed_app, Hf, app_nil_r, length_app.
  repeat split.
  - assumption.
  - intros id Hin. specialize (Hlt id Hin). lia.
  - destruct (Hlive H) as [Hl _]. lia.
  - destruct (Hlive H) as [_ Hfresh]. assumption.
Qed.

Lemma free_dev_list_tracked s :
  lists_well_tracked s -> lists_well_tracked (snd (free_dev_list s)).
Proof.
  intros Hwf. rewrite free_dev_list_run. cbn [snd].
  destruct (0 <? dev_count s) eqn:E; [| assumption].
  destruct Hwf as (Hnd & Hlt & Hlive).
  destruct Hlive as [Hl Hfresh]; [lia |].
  unfold lists_well_tracked. step.
  rewrite freed_app, length_app. cbn [freed omap length].
  repeat split.
  - apply NoDup_app. repeat split.
    + assumption.
    + intros id Hin Hin'. apply list_elem_of_singleton in Hin'. now subst.
    + apply NoDup_singleton.
  - intros id Hin. apply elem_of_app in Hin as [Hin | Hin].
    + specialize (Hlt id Hin). lia.
    + apply list_elem_of_singleton in Hin. subst. cbn. lia.
  - lia.
  - lia.
Qed.

Lemma INITIALIZE_frame usb s :
  exists extra,
    calls (snd (INITIALIZE usb s)) = calls s ++ extra
    /\ freed extra = []
    /\ dev_count (snd (INITIALIZE usb s)) = dev_count s
    /\ dev_list_id (snd (INITIALIZE usb s)) = dev_list_id s
    /\ fst (INITIALIZE usb s) <> Undefined.
Proof.
  unfold INITIALIZE, initialize, libusb_init, libusb_set_debug,
    libusb_setlocale. step.
  destruct (ctx s =? 0) eqn:E; step; rewrite ?E.
  2: { exists []. rewrite app_nil_r. repeat split. discriminate. }
  destruct (usb_init usb (calls s)) as [code c]. step.
  destruct (code =? 0); step; destruct (c =? 0); step.
  all: eexists; (split; [try rewrite <- !app_assoc; reflexivity |]);
    repeat split; discriminate.
Qed.

(** Fetching a list: the new list is a fresh allocation. *)
Lemma fetch_tracked usb s :
  lists_well_tracked s ->
  dev_count s <= 0 ->
  let run :=
    (n <- libusb_get_device_list usb ;;
     modify (set_dev_count n) ;;
     when (n <? 0) (y_error "failed to get USB devices list")) s in
  lists_well_tracked (snd run)
  /\ fst run <> Undefined
  /\ (fst run = Ok tt -> 0 <= dev_count (snd run)).
Proof.
  intros (Hnd & Hlt & _) Hn run. subst run.
  unfold libusb_get_device_list. step.
  destruct (usb_get_device_list usb (calls s) (ctx s)) as [n l]. step.
  assert (lists_well_tracked
            (set_dev_count n
               (set_dev_list (length (calls s)) l
                  (set_calls (calls s ++ [CallGetDeviceList (ctx s)]) s))))
    as Hwf.
  { unfold lists_well_tracked. step.
    rewrite freed_app, length_app. cbn [freed omap length].
    rewrite app_nil_r. repeat split.
    - assumption.
    - intros id Hin. specialize (Hlt id Hin). lia.
    - lia.
    - intros Hin. specialize (Hlt _ Hin). lia. }
  destruct (n <? 0) eqn:E; step;
    (split; [exact Hwf | split; [discriminate | intros Hok]]).
  - discriminate.
  - lia.
Qed.

Lemma load_device_list_tracked usb s :
  lists_well_tracked s ->
  let run := load_device_list usb s in
  lists_well_tracked (snd run)
  /\ fst run <> Undefined
  /\ (fst run = Ok tt -> 0 <= dev_count (snd run)).
Proof.
  intros Hwf run. subst run. unfold load_device_list.
  destruct (INITIALIZE_frame usb s) as (extra & Hc & Hf & Hn & Hid & Hdef).
  rewrite bind_eq.
  destruct (INITIALIZE usb s) as [[[] | msg |] s1]; cbn [fst snd] in *.
  - pose proof (lists_well_tracked_frame s s1 extra Hwf Hc Hf Hn Hid) as Hwf1.
    rewrite bind_eq, free_dev_list_run.
    apply fetch_tracked.
    + pose proof (free_dev_list_tracked s1 Hwf1) as H.
      now rewrite free_dev_list_run in H.
    + destruct (0 <? dev_count s1) eqn:E; step; lia.
  - split; [| split; [discriminate | intros Hok; discriminate]].
    exact (lists_well_tracked_frame s s1 extra Hwf Hc Hf Hn Hid).
  - congruence.
Qed.

Lemma initial_state_tracked : lists_well_tracked initial_state.
Proof.
  split; [| split].
  - apply NoDup_nil. exact I.
  - intros id Hin. now apply elem_of_nil in Hin.
  - cbn. lia.
Qed.

Lemma tracked_bind {A B : Type} (P Q R : state -> Prop)
  (m : M A) (k : A -> M B) :
  tracked_triple P m Q ->
  (forall a, tracked_triple Q (k a) R) ->
  tracked_triple P (bind m k) R.
Proof.
  intros Hm Hk s Hwf HP. rewrite bind_eq.
  destruct (Hm s Hwf HP) as (Hwf1 & Hdef & HQ).
  destruct (m s) as [[a | msg |] s1]; cbn [fst snd] in *.
  - apply Hk; [assumption | now apply (HQ a)].
  - split; [assumption | split; [discriminate | intros b Hb; discriminate]].
  - congruence.
Qed.

Lemma tracked_weaken {A : Type} (P P' Q : state -> Prop) (m : M A) :
  (forall s, P' s -> P s) -> tracked_triple P m Q -> tracked_triple P' m Q.
Proof. intros HP Hm s Hwf HP'. apply Hm; auto. Qed.

Lemma load_device_list_triple usb :
  tracked_triple (fun _ => True) (load_device_list usb)
    (fun s => 0 <= dev_count s).
Proof.
  intros s Hwf _.
  destruct (load_device_list_tracked usb s Hwf) as (H1 & H2 & H3).
  split; [assumption | split; [assumption |]].
  intros [] Hok. now apply H3.
Qed.

Lemma free_dev_list_triple :
  tracked_triple (fun s => 0 <= dev_count s) free_dev_list
    (fun s => dev_count s = 0).
Proof.
  intros s Hwf Hn. split; [now apply free_dev_list_tracked |].
  rewrite free_dev_list_run. cbn [fst snd].
  split; [discriminate |]. intros _ _.
  destruct (0 <? dev_count s) eqn:E; [reflexivity | lia].
Qed.

Lemma load_free_twice_triple usb :
  tracked_triple (fun _ => True) (load_free_twice usb)
    (fun s => dev_count s = 0).
Proof.
  unfold load_free_twice.
  eapply tracked_bind; [apply load_device_list_triple | intros _].
  eapply tracked_bind; [apply free_dev_list_triple | intros _].
  eapply tracked_bind.
  - eapply tracked_weaken; [| apply load_device_list_triple].
    intros s _. exact I.
  - intros _. apply free_dev_list_triple.
Qed.

(** C8.  [free_dev_list] releases a held list and zeroes its count, and
    does nothing at all when no list is held; so a device count, once
    freed, is 0.  Loading then freeing twice in a row never frees a list
    twice, never reads outside a list, and leaves the device count at 0
    when both loads succeed. *)
Theorem C8_free_dev_list_is_idempotent (usb : libusb) (s : state) :
  (0 < dev_count s ->
   free_dev_list s =
   (Ok tt,
    set_calls (calls s ++ [CallFreeDeviceList (dev_list_id s) 1])
      (set_dev_count 0 s)))
  /\ (dev_count s <= 0 -> free_dev_list s = (Ok tt, s))
  /\ (0 <= dev_count s -> dev_count (snd (free_dev_list s)) = 0)
  /\ (lists_well_tracked s ->
      let run := load_free_twice usb s in
      NoDup (freed (calls (snd run)))
      /\ fst run <> Undefined
      /\ (fst run = Ok tt -> dev_count (snd run) = 0)).
Proof.
  split; [| split; [| split]].
  - intros Hn. rewrite free_dev_list_run.
    destruct (0 <? dev_count s) eqn:E; [reflexivity | lia].
  - intros Hn. rewrite free_dev_list_run.
    destruct (0 <? dev_count s) eqn:E; [lia | reflexivity].
  - intros Hn. rewrite free_dev_list_run. cbn [snd].
    destruct (0 <? dev_count s) eqn:E; [reflexivity | lia].
  - intros Hwf run.
    destruct (load_free_twice_triple usb s Hwf I) as (Hwf' & Hdef & Hq).
    split; [apply Hwf' | split; [exact Hdef |]].
    intros Hok. now apply (Hq tt).
Qed.

Lemma C8_witness :
  (* a held list of one device *)
  dev_count (snd (free_dev_list
                    (set_dev_count 1 (set_dev_list 0 [widget] initial_state))))
  = 0
  (* an empty list *)
  /\ free_dev_list initial_state = (Ok tt, initial_state)
  (* two rounds: both loads succeed, two distinct lists are freed *)
  /\ (let run := load_free_twice hotplug_usb initial_state in
      NoDup (freed (calls (snd run)))
      /\ fst run <> Undefined
      /\ (fst run = Ok tt -> dev_count (snd run) = 0)).
Proof.
  split; [| split].
  - apply (proj1 (proj2 (proj2
             (C8_free_dev_list_is_idempotent hotplug_usb
                (set_dev_count 1 (set_dev_list 0 [widget] initial_state)))))).
    vm_compute. discriminate.
  - apply (proj1 (proj2 (C8_free_dev_list_is_idempotent hotplug_usb
                           initial_state))).
    vm_compute. discriminate.
  - apply (proj2 (proj2 (proj2
             (C8_free_dev_list_is_idempotent hotplug_usb initial_state)))).
    apply initial_state_tracked.
Defined.

Example load_free_twice_hotplug :
  load_free_twice hotplug_usb initial_state =
  (Ok tt,
   set_calls
     [CallInit; CallSetDebug 1 0; CallSetLocale "en";
      CallGetDeviceList 1; CallFreeDeviceList 3 1;
      CallGetDeviceList 1; CallFreeDeviceList 5 1]
     (set_dev_list 5 [widget; locked_widget]
        (set_on_quit true (set_ctx 1 initial_state)))).
Proof. reflexivity. Qed.

(** ** Opening a device *)

Lemma open_matched_run dev bus port s :
  0 <= open_status dev ->
  descriptor_status dev = 0 ->
  open_matched dev bus port s =
  (Ok tt,
   set_stack
     (YObj {| device := Some dev; handle := open_handle dev;
              descriptor := dev_descriptor dev;
              bus := bus; port := port;
              address := device_address dev |} :: stack s)
     (set_calls
        (calls s ++ [CallRefDevice (dev_ptr dev); CallOpen (dev_ptr dev);
                     CallGetDeviceDescriptor (dev_ptr dev)]) s)).
Proof.
  intros Hopen Hdesc.
  unfold open_matched, libusb_ref_device, libusb_open,
    libusb_get_device_descriptor, libusb_get_device_address, update_obj.
  step. settle. step.
  rewrite <- !app_assoc. reflexivity.
Qed.

Lemma open_loop_no_match bus port s :
  dev_count s = Z.of_nat (length (dev_list s)) ->
  (forall j dev, dev_list s !! j = Some dev -> ~ at_bus_port bus port dev) ->
  forall fuel i,
    0 <= i ->
    (Z.to_nat (dev_count s - i) < fuel)%nat ->
    open_loop bus port fuel i s = (Ok false, s).
Proof.
  intros Hcount Hnone fuel.
  induction fuel as [| fuel IH]; intros i Hi Hfuel; [lia |].
  cbn [open_loop]. step.
  destruct (i <? dev_count s) eqn:E; [| reflexivity].
  apply Z.ltb_lt in E.
  destruct (dev_list s !! Z.to_nat i) as [dev |] eqn:El.
  2: { apply lookup_ge_None in El. lia. }
  rewrite (dev_list_at_run i dev s Hi El).
  unfold libusb_get_bus_number, libusb_get_port_number.
  destruct ((bus_number dev =? bus) && (port_number dev =? port)) eqn:Em.
  - exfalso. apply (Hnone _ _ El).
    apply andb_true_iff in Em as [Hb Hp].
    split; now apply Z.eqb_eq.
  - apply IH; lia.
Qed.

Lemma open_loop_first_match bus port s k dev :
  dev_list s !! k = Some dev ->
  at_bus_port bus port dev ->
  (forall j dev', (j < k)%nat -> dev_list s !! j = Some dev' ->
                  ~ at_bus_port bus port dev') ->
  Z.of_nat k < dev_count s ->
  forall fuel i,
    0 <= i <= Z.of_nat k ->
    (k - Z.to_nat i < fuel)%nat ->
    open_loop bus port fuel i s =
    (open_matched dev bus port ;; ret true) s.
Proof.
  intros Hk [Hb Hp] Hbefore Hcount fuel.
  induction fuel as [| fuel IH]; intros i Hi Hfuel; [lia |].
  cbn [open_loop]. rewrite bind_eq. unfold get at 1.
  destruct (i <? dev_count s) eqn:E; [| apply Z.ltb_ge in E; lia].
  destruct (Z.eq_dec i (Z.of_nat k)) as [-> | Hne].
  - rewrite bind_eq.
    rewrite (dev_list_at_run (Z.of_nat k) dev s);
      [| lia | now rewrite Nat2Z.id].
    unfold libusb_get_bus_number, libusb_get_port_number.
    rewrite Hb, Hp, !Z.eqb_refl. reflexivity.
  - assert (Z.to_nat i < k)%nat as Hlt by lia.
    destruct (dev_list s !! Z.to_nat i) as [dev' |] eqn:El.
    2: { apply lookup_ge_None in El. apply lookup_lt_Some in Hk. lia. }
    rewrite bind_eq, (dev_list_at_run i dev' s) by (lia || assumption).
    unfold libusb_get_bus_number, libusb_get_port_number.
    destruct ((bus_number dev' =? bus) && (port_number dev' =? port)) eqn:Em.
    + exfalso. apply (Hbefore _ _ Hlt El).
      apply andb_true_iff in Em as [Hb' Hp'].
      split; now apply Z.eqb_eq.
    + apply IH; lia.
Qed.

Lemma free_dev_list_stack s : stack (snd (free_dev_list s)) = stack s.
Proof.
  rewrite free_dev_list_run. cbn [snd].
  destruct (0 <? dev_count s); reflexivity.
Qed.

Lemma Y_usb_open_device_no_match usb bus port s s1 :
  load_device_list usb s = (Ok tt, s1) ->
  dev_count s1 = Z.of_nat (length (dev_list s1)) ->
  (forall j dev, dev_list s1 !! j = Some dev -> ~ at_bus_port bus port dev) ->
  Y_usb_open_device usb 2 bus port s =
  (Ok tt, set_stack (YNil :: stack s1) (snd (free_dev_list s1))).
Proof.
  intros Hload Hcount Hnone. unfold Y_usb_open_device.
  cbn [when negb Z.eqb Pos.eqb]. rewrite bind_eq. cbn [ret].
  rewrite bind_eq, Hload, bind_eq. unfold get at 1.
  rewrite bind_eq, (open_loop_no_match bus port s1 Hcount Hnone) by lia.
  rewrite bind_eq, free_dev_list_run. cbn [snd when negb].
  unfold ypush_nil, ypush, modify.
  destruct (0 <? dev_count s1); reflexivity.
Qed.

Lemma Y_usb_open_device_match usb bus port s s1 k dev :
  load_device_list usb s = (Ok tt, s1) ->
  dev_count s1 = Z.of_nat (length (dev_list s1)) ->
  dev_list s1 !! k = Some dev ->
  at_bus_port bus port dev ->
  (forall j dev', (j < k)%nat -> dev_list s1 !! j = Some dev' ->
                  ~ at_bus_port bus port dev') ->
  0 <= open_status dev ->
  descriptor_status dev = 0 ->
  Y_usb_open_device usb 2 bus port s =
  (Ok tt,
   snd (free_dev_list
          (set_stack
             (YObj {| device := Some dev; handle := open_handle dev;
                      descriptor := dev_descriptor dev;
                      bus := bus; port := port;
                      address := device_address dev |} :: stack s1)
             (set_calls
                (calls s1 ++ [CallRefDevice (dev_ptr dev);
                              CallOpen (dev_ptr dev);
                              CallGetDeviceDescriptor (dev_ptr dev)]) s1)))).
Proof.
  intros Hload Hcount Hk Hat Hbefore Hopen Hdesc. unfold Y_usb_open_device.
  cbn [when negb Z.eqb Pos.eqb]. rewrite bind_eq. cbn [ret].
  rewrite bind_eq, Hload, bind_eq. unfold get at 1.
  pose proof (lookup_lt_Some _ _ _ Hk) as Hlt.
  rewrite bind_eq,
    (open_loop_first_match bus port s1 k dev Hk Hat Hbefore) by lia.
  rewrite bind_eq, (open_matched_run dev bus port s1 Hopen Hdesc).
  cbn [ret]. rewrite bind_eq, free_dev_list_run. reflexivity.
Qed.

(** C7.  Once the device list is loaded, [Y_usb_open_device] pushes nil,
    without raising, when no enumerated device is on the requested bus and
    port.  When one is, and it opens and yields its descriptor, the call
    pushes a device object whose members bus, port, address, vendor,
    product, manufacturer and serial read as the bus number, port number
    and device address of the first such device and the idVendor,
    idProduct, iManufacturer and iSerialNumber of its descriptor. *)
Theorem C7_open_device_by_bus_and_port
  (usb : libusb) (bus port : Z) (s s1 : state) :
  load_device_list usb s = (Ok tt, s1) ->
  dev_count s1 = Z.of_nat (length (dev_list s1)) ->
  let run := Y_usb_open_device usb 2 bus port s in
  ((forall j dev, dev_list s1 !! j = Some dev -> ~ at_bus_port bus port dev) ->
   fst run = Ok tt /\ stack (snd run) = YNil :: stack s1)
  /\ (forall k dev,
        dev_list s1 !! k = Some dev ->
        at_bus_port bus port dev ->
        (forall j dev', (j < k)%nat -> dev_list s1 !! j = Some dev' ->
                        ~ at_bus_port bus port dev') ->
        0 <= open_status dev ->
        descriptor_status dev = 0 ->
        exists obj,
          fst run = Ok tt
          /\ stack (snd run) = YObj obj :: stack s1
          /\ read_member obj "bus" = (Ok tt, [YInt (bus_number dev)])
          /\ read_member obj "port" = (Ok tt, [YInt (port_number dev)])
          /\ read_member obj "address" = (Ok tt, [YInt (device_address dev)])
          /\ read_member obj "vendor"
             = (Ok tt, [YInt (idVendor (dev_descriptor dev))])
          /\ read_member obj "product"
             = (Ok tt, [YInt (idProduct (dev_descriptor dev))])
          /\ read_member obj "manufacturer"
             = (Ok tt, [YInt (iManufacturer (dev_descriptor dev))])
          /\ read_member obj "serial"
             = (Ok tt, [YInt (iSerialNumber (dev_descriptor dev))])).
Proof.
  intros Hload Hcount run. subst run. split.
  - intros Hnone.
    rewrite (Y_usb_open_device_no_match usb bus port s s1 Hload Hcount Hnone).
    cbn [fst snd stack set_stack]. split; reflexivity.
  - intros k dev Hk Hat Hbefore Hopen Hdesc.
    rewrite (Y_usb_open_device_match usb bus port s s1 k dev
               Hload Hcount Hk Hat Hbefore Hopen Hdesc).
    eexists. split; [reflexivity |]. split.
    + cbn [snd]. rewrite free_dev_list_stack. reflexivity.
    + destruct Hat as [<- <-]. repeat split.
Qed.

Lemma C7_witness :
  (* nothing is plugged on bus 9, port 9 *)
  (fst (Y_usb_open_device mute_usb 2 9 9 initial_state) = Ok tt
   /\ stack (snd (Y_usb_open_device mute_usb 2 9 9 initial_state)) = [YNil])
  (* the widget is on bus 1, port 2 *)
  /\ exists obj,
       fst (Y_usb_open_device mute_usb 2 1 2 initial_state) = Ok tt
       /\ stack (snd (Y_usb_open_device mute_usb 2 1 2 initial_state))
          = [YObj obj]
       /\ read_member obj "bus" = (Ok tt, [YInt 1])
       /\ read_member obj "port" = (Ok tt, [YInt 2])
       /\ read_member obj "address" = (Ok tt, [YInt 5])
       /\ read_member obj "vendor" = (Ok tt, [YInt 4660])
       /\ read_member obj "product" = (Ok tt, [YInt 2])
       /\ read_member obj "manufacturer" = (Ok tt, [YInt 1])
       /\ read_member obj "serial" = (Ok tt, [YInt 3]).
Proof.
  split.
  - apply (proj1 (C7_open_device_by_bus_and_port mute_usb 9 9 initial_state
                    (snd (load_device_list mute_usb initial_state))
                    eq_refl eq_refl)).
    intros j dev Hl [Hb Hp].
    destruct j as [| [| j]]; cbn in Hl; inversion Hl; subst; discriminate.
  - apply (proj2 (C7_open_device_by_bus_and_port mute_usb 1 2 initial_state
                    (snd (load_device_list mute_usb initial_state))
                    eq_refl eq_refl) 0%nat widget).
    + reflexivity.
    + split; reflexivity.
    + intros j dev' Hj. lia.
    + vm_compute. discriminate.
    + reflexivity.
Defined.

(** ** Releasing the device list on failure *)

(** The two failure branches of [open_matched]: the first raises with the
    device list as it was, the second frees it first. *)
Lemma open_matched_open_failure dev bus port s :
  open_status dev < 0 ->
  let run := open_matched dev bus port s in
  fst run =
    Raised ("failed to open device [" +:+ get_error_name (open_status dev)
            +:+ "]")
  /\ dev_count (snd run) = dev_count s
  /\ freed (calls (snd run)) = freed (calls s).
Proof.
  intros Hneg run. subst run.
  unfold open_matched, libusb_ref_device, libusb_open, update_obj.
  step. settle. step.
  rewrite !freed_app. cbn [freed omap]. rewrite !app_nil_r.
  repeat split.
Qed.

Lemma open_matched_descriptor_failure dev bus port s :
  0 <= open_status dev ->
  descriptor_status dev <> 0 ->
  0 < dev_count s ->
  let run := open_matched dev bus port s in
  fst run =
    Raised ("unable to get device descriptor ["
            +:+ get_error_name (descriptor_status dev) +:+ "]")
  /\ dev_count (snd run) = 0
  /\ freed (calls (snd run)) = freed (calls s) ++ [dev_list_id s].
Proof.
  intros Hopen Hdesc Hheld run. subst run.
  unfold open_matched, libusb_ref_device, libusb_open,
    libusb_get_device_descriptor, libusb_get_device_address, update_obj,
    free_dev_list, libusb_free_device_list.
  step. settle. step. settle. step.
  rewrite !freed_app. cbn [freed omap]. rewrite !app_nil_r.
  repeat split.
Qed.

(** C2 fails on the open-failure path of [Y_usb_open_device]: the error
    is raised while the device list is still held (the count is still 1
    and no list has been freed). *)
Theorem C2_open_failure_keeps_device_list :
  let run := Y_usb_open_device locked_usb 2 1 2 initial_state in
  fst run = Raised "failed to open device [LIBUSB_ERROR_ACCESS]"
  /\ dev_count (snd run) = 1
  /\ freed (calls (snd run)) = []
  /\ calls (snd run) =
     [CallInit; CallSetDebug 1 0; CallSetLocale "en"; CallGetDeviceList 1;
      CallRefDevice 4096; CallOpen 4096].
Proof. vm_compute. repeat split. Qed.

(** The sibling path nine lines below does release the list: when the
    descriptor cannot be read, the list is freed before the error is
    raised. *)
Example open_device_descriptor_failure_frees :
  let run := Y_usb_open_device mute_usb 2 3 1 initial_state in
  fst run = Raised "unable to get device descriptor [LIBUSB_ERROR_IO]"
  /\ dev_count (snd run) = 0
  /\ freed (calls (snd run)) = [3%nat].
Proof. vm_compute. repeat split. Qed.

(** So does device probing. *)
Example probe_descriptor_failure_frees :
  let run := Y__usb_probe_devices mute_usb 1 true initial_state in
  fst run = Raised "unable to get device descriptor [LIBUSB_ERROR_IO]"
  /\ dev_count (snd run) = 0
  /\ freed (calls (snd run)) = [3%nat].
Proof. vm_compute. repeat split. Qed.

(** The summary does not: a descriptor failure raises with the list
    still held. *)
Example summary_descriptor_failure_keeps_device_list :
  let run := Y_usb_summary mute_usb 0 initial_state in
  fst run = Raised "Input/output error."
  /\ dev_count (snd run) = 2
  /\ freed (calls (snd run)) = [].
Proof. vm_compute. repeat split. Qed.

(** The next load recovers the list that an error left behind. *)
Example next_load_frees_the_kept_list :
  let s := snd (Y_usb_open_device locked_usb 2 1 2 initial_state) in
  freed (calls (snd (load_device_list locked_usb s))) = [3%nat].
Proof. vm_compute. reflexivity. Qed.

(** * Further properties *)

(** ** The error table *)

Lemma switch_table_unknown {A : Type} code (t : list (Z * A)) :
  ~ In code (map fst t) -> switch_table code t = None.
Proof.
  induction t as [| [c a] t IH]; intros Hnot; [reflexivity |].
  cbn [switch_table]. cbn [map fst In] in Hnot.
  destruct (c =? code) eqn:E.
  - apply Z.eqb_eq in E. tauto.
  - apply IH. tauto.
Qed.

(** X1.  The name and the description of a status code are looked up in
    the same table: a code has a name other than "UNKNOWN" exactly when
    it has a description other than "Unknown error.", exactly when it is
    one of the fourteen codes of the table; and two codes of the table
    with the same name are the same code. *)
Theorem X1_error_table_lookup (code : Z) :
  (In code known_codes <-> get_error_name code <> "UNKNOWN")
  /\ (In code known_codes <-> get_error_description code <> "Unknown error.")
  /\ (forall code',
        In code known_codes -> In code' known_codes ->
        get_error_name code = get_error_name code' -> code = code').
Proof.
  split; [| split].
  - split.
    + intros Hin. cbn in Hin.
      repeat (destruct Hin as [<- | Hin]; [vm_compute; discriminate |]).
      destruct Hin.
    + intros Hname.
      destruct (In_dec Z.eq_dec code known_codes) as [Hin | Hnot];
        [assumption |].
      exfalso. apply Hname. unfold get_error_name.
      now rewrite (switch_table_unknown code ERROR_TABLE Hnot).
  - split.
    + intros Hin. cbn in Hin.
      repeat (destruct Hin as [<- | Hin]; [vm_compute; discriminate |]).
      destruct Hin.
    + intros Hdesc.
      destruct (In_dec Z.eq_dec code known_codes) as [Hin | Hnot];
        [assumption |].
      exfalso. apply Hdesc. unfold get_error_description.
      now rewrite (switch_table_unknown code ERROR_TABLE Hnot).
  - intros code' Hin Hin'. cbn in Hin, Hin'.
    repeat (destruct Hin as [<- | Hin];
            [repeat (destruct Hin' as [<- | Hin'];
                     [vm_compute; intros H;
                      first [reflexivity | discriminate H] |]);
             destruct Hin' |]).
    destruct Hin.
Qed.

Lemma X1_witness :
  LIBUSB_ERROR_TIMEOUT = LIBUSB_ERROR_TIMEOUT
  /\ get_error_name LIBUSB_ERROR_TIMEOUT = "LIBUSB_ERROR_TIMEOUT"
  /\ get_error_name 1 = "UNKNOWN".
Proof.
  split; [| split; reflexivity].
  apply (proj2 (proj2 (X1_error_table_lookup LIBUSB_ERROR_TIMEOUT))
           LIBUSB_ERROR_TIMEOUT).
  - vm_compute. tauto.
  - vm_compute. tauto.
  - reflexivity.
Defined.

(** ** Exporting the status codes *)

Lemma define_global_int_run yget_global name value s :
  define_global_int yget_global name value s =
  (Ok tt, set_globals (<[yget_global name := YInt value]> (globals s)) s).
Proof. reflexivity. Qed.

Lemma define_error_globals_run yget_global t s :
  define_error_globals yget_global t s =
  (Ok tt, set_globals (exported_globals yget_global t (globals s)) s).
Proof.
  revert s. induction t as [| [code [a b]] t IH]; intros s.
  - destruct s; reflexivity.
  - cbn [define_error_globals]. rewrite bind_eq, define_global_int_run, IH.
    reflexivity.
Qed.

Lemma exported_globals_other yget_global t g i :
  ~ In i (map (exported_index yget_global) t) ->
  exported_globals yget_global t g !! i = g !! i.
Proof.
  revert g. induction t as [| e t IH]; intros g Hnot; [reflexivity |].
  cbn [map In] in Hnot. unfold exported_globals in *. cbn [fold_left].
  rewrite IH by tauto. apply lookup_insert_ne. tauto.
Qed.

Lemma exported_globals_entry yget_global t g e :
  List.NoDup (map (exported_index yget_global) t) ->
  In e t ->
  exported_globals yget_global t g !! exported_index yget_global e
  = Some (YInt (fst e)).
Proof.
  revert g. induction t as [| e' t IH]; intros g Hnd Hin; [destruct Hin |].
  cbn [map] in Hnd. inversion Hnd as [| i l Hfresh Hnd']; subst.
  unfold exported_globals in *. cbn [fold_left].
  destruct Hin as [-> | Hin].
  - fold (exported_globals yget_global t
            (<[exported_index yget_global e := YInt (fst e)]> g)).
    rewrite exported_globals_other by assumption.
    apply lookup_insert_eq.
  - now apply IH.
Qed.

Lemma exported_names_distinct :
  List.NoDup (map (fun e : Z * (string * string) => fst (snd e)) ERROR_TABLE).
Proof.
  cbn. repeat (constructor; [cbn; intuition discriminate |]). constructor.
Qed.

Lemma exported_indices_distinct yget_global :
  (forall n1 n2, yget_global n1 = yget_global n2 -> n1 = n2) ->
  List.NoDup (map (exported_index yget_global) ERROR_TABLE).
Proof.
  intros Hinj.
  change (map (exported_index yget_global) ERROR_TABLE)
    with (map (fun a => yget_global ("USB_" +:+ a))
            (map (fun e : Z * (string * string) => fst (snd e)) ERROR_TABLE)).
  apply Finite.Injective_map_NoDup; [| apply exported_names_distinct].
  intros a b Hab. apply Hinj in Hab. now inversion Hab.
Qed.

(** X2.  [Y__usb_init] defines one global per entry of the error table:
    when the symbol table gives distinct names distinct indices, the
    global USB_<name> holds the status code of that entry, and the code it
    holds is named LIBUSB_<name> by [get_error_name]; every other global
    is untouched, no native call is made, and the stack only gains nil. *)
Theorem X2_exported_constants_name_themselves
  (yget_global : string -> Z) (argc : Z) (s : state) :
  (forall n1 n2, yget_global n1 = yget_global n2 -> n1 = n2) ->
  let run := Y__usb_init yget_global argc s in
  fst run = Ok tt
  /\ stack (snd run) = YNil :: stack s
  /\ calls (snd run) = calls s
  /\ (forall code a b,
        In (code, (a, b)) ERROR_TABLE ->
        globals (snd run) !! yget_global ("USB_" +:+ a) = Some (YInt code)
        /\ get_error_name code = "LIBUSB_" +:+ a)
  /\ (forall i,
        ~ In i (map (exported_index yget_global) ERROR_TABLE) ->
        globals (snd run) !! i = globals s !! i).
Proof.
  intros Hinj run. subst run. unfold Y__usb_init.
  rewrite bind_eq, define_error_globals_run.
  cbn [fst snd ypush_nil ypush modify stack globals calls set_stack
       set_globals].
  split; [reflexivity |]. split; [reflexivity |]. split; [reflexivity |].
  split.
  - intros code a b Hin. split.
    + apply (exported_globals_entry yget_global ERROR_TABLE (globals s)
               (code, (a, b)));
        [now apply exported_indices_distinct | assumption].
    + cbn in Hin.
      repeat (destruct Hin as [Heq | Hin];
              [inversion Heq; subst; reflexivity |]).
      destruct Hin.
  - intros i Hnot. now apply exported_globals_other.
Qed.

Lemma symbol_table_injective n1 n2 :
  symbol_table n1 = symbol_table n2 -> n1 = n2.
Proof.
  unfold symbol_table. intros H. inversion H as [Henc].
  now apply (inj encode) in Henc.
Qed.

Lemma X2_witness :
  globals (snd (Y__usb_init symbol_table 0 initial_state))
    !! symbol_table "USB_ERROR_TIMEOUT"
  = Some (YInt (-7)).
Proof.
  apply (proj1 (proj2 (proj2 (proj2
           (X2_exported_constants_name_themselves symbol_table 0
              initial_state symbol_table_injective))))
           (-7) "ERROR_TIMEOUT" "Operation timed out.").
  cbn. tauto.
Defined.

(** ** The context *)

(** Every way [INITIALIZE] can end. *)
Lemma INITIALIZE_cases usb s :
  (ctx s <> 0 /\ INITIALIZE usb s = (Ok tt, s))
  \/ (ctx s = 0
      /\ exists c,
           c <> 0
           /\ usb_init usb (calls s) = (0, c)
           /\ INITIALIZE usb s =
              (Ok tt,
               set_calls
                 (calls s ++ [CallInit; CallSetDebug c LIBUSB_LOG_LEVEL_NONE;
                              CallSetLocale "en"])
                 (set_on_quit true (set_ctx c s))))
  \/ (ctx s = 0
      /\ exists code c msg,
           usb_init usb (calls s) = (code, c)
           /\ (code <> 0 \/ c = 0)
           /\ INITIALIZE usb s =
              (Raised msg, set_ctx c (set_calls (calls s ++ [CallInit]) s))).
Proof.
  unfold INITIALIZE, initialize, libusb_init, libusb_set_debug,
    libusb_setlocale. step.
  destruct (ctx s =? 0) eqn:E; step; rewrite ?E.
  2: { left. apply Z.eqb_neq in E. now split. }
  apply Z.eqb_eq in E. right.
  destruct (usb_init usb (calls s)) as [code c]. step.
  destruct (code =? 0) eqn:Ec; step; destruct (c =? 0) eqn:Ez; step.
  - right. split; [assumption |]. eexists _, _, _.
    split; [reflexivity |]. apply Z.eqb_eq in Ez.
    split; [now right | reflexivity].
  - left. split; [assumption |]. exists c.
    apply Z.eqb_eq in Ec. apply Z.eqb_neq in Ez. subst code.
    split; [assumption |]. split; [reflexivity |].
    rewrite <- !app_assoc. reflexivity.
  - right. split; [assumption |]. eexists _, _, _.
    split; [reflexivity |]. apply Z.eqb_neq in Ec.
    split; [now left | reflexivity].
  - right. split; [assumption |]. eexists _, _, _.
    split; [reflexivity |]. apply Z.eqb_neq in Ec.
    split; [now left | reflexivity].
Qed.

(** X3.  [INITIALIZE] returns normally only with a non-NULL context;
    with a non-NULL context it does nothing, so running it twice is
    running it once and libusb_init is not called again; starting from a
    NULL context, a normal return has called libusb_init once, registered
    [finalize] and configured the library, and a failure has done
    neither. *)
Theorem X3_INITIALIZE_is_idempotent (usb : libusb) (s : state) :
  let run := INITIALIZE usb s in
  (fst run = Ok tt -> ctx (snd run) <> 0)
  /\ (ctx s <> 0 -> run = (Ok tt, s))
  /\ (INITIALIZE usb ;; INITIALIZE usb) s = run
  /\ (ctx s = 0 ->
      (fst run = Ok tt ->
       calls (snd run) =
         calls s ++ [CallInit;
                     CallSetDebug (ctx (snd run)) LIBUSB_LOG_LEVEL_NONE;
                     CallSetLocale "en"]
       /\ on_quit (snd run) = true)
      /\ (fst run <> Ok tt ->
          calls (snd run) = calls s ++ [CallInit]
          /\ on_quit (snd run) = on_quit s)).
Proof.
  intros run. subst run.
  destruct (INITIALIZE_cases usb s)
    as [[Hc Hrun] | [[Hc (c & Hnz & Hinit & Hrun)]
                    | [Hc (code & c & msg & Hinit & Hbad & Hrun)]]];
    rewrite bind_eq, Hrun; cbn [fst snd ctx set_ctx set_calls set_on_quit
                                calls on_quit].
  - split; [intros _; assumption |]. split; [reflexivity |].
    split; [exact Hrun |]. intros Hz. contradiction.
  - split; [intros _; assumption |]. split; [intros Hn; contradiction |].
    split.
    + unfold INITIALIZE. step.
      destruct (c =? 0) eqn:E; [apply Z.eqb_eq in E; contradiction |].
      reflexivity.
    + intros _. split; [intros _; split; reflexivity |].
      intros Hno. now contradiction Hno.
  - split; [intros Hok; discriminate |].
    split; [intros Hn; contradiction |].
    split; [reflexivity |].
    intros _. split; [intros Hok; discriminate |].
    intros _. split; reflexivity.
Qed.

Lemma X3_witness :
  INITIALIZE single_init_usb initial_state =
  (Ok tt,
   set_calls [CallInit; CallSetDebug 1 0; CallSetLocale "en"]
     (set_on_quit true (set_ctx 1 initial_state)))
  /\ INITIALIZE single_init_usb
       (snd (INITIALIZE single_init_usb initial_state))
     = (Ok tt, snd (INITIALIZE single_init_usb initial_state))
  /\ calls (snd (INITIALIZE no_init_usb initial_state)) = [CallInit].
Proof.
  split; [reflexivity |]. split.
  - apply (proj1 (proj2 (X3_INITIALIZE_is_idempotent single_init_usb
                           (snd (INITIALIZE single_init_usb initial_state))))).
    vm_compute. discriminate.
  - apply (proj2 (proj2 (proj2 (proj2
             (X3_INITIALIZE_is_idempotent no_init_usb initial_state)))
             eq_refl)).
    vm_compute. discriminate.
Defined.

Lemma finalize_run s :
  finalize s =
  (Ok tt,
   set_calls
     (calls s
      ++ (if 0 <? dev_count s
          then [CallFreeDeviceList (dev_list_id s) 1] else [])
      ++ (if ctx s =? 0 then [] else [CallExit (ctx s)]))
     (set_dev_count (if 0 <? dev_count s then 0 else dev_count s)
        (set_ctx 0 s))).
Proof.
  unfold finalize, free_dev_list, libusb_free_device_list, libusb_exit. step.
  destruct (0 <? dev_count s), (ctx s =? 0); step;
    rewrite <- ?app_assoc, ?app_nil_r; reflexivity.
Qed.

(** X4.  [finalize] always returns; it leaves a NULL context and no held
    list; it frees a held list first and then exits the context, and it
    calls libusb_exit exactly when there was a context, never with NULL;
    run a second time it does nothing more. *)
Theorem X4_finalize_releases_once (s : state) :
  let run := finalize s in
  fst run = Ok tt
  /\ ctx (snd run) = 0
  /\ dev_count (snd run) <= 0
  /\ calls (snd run) =
     calls s
     ++ (if 0 <? dev_count s
         then [CallFreeDeviceList (dev_list_id s) 1] else [])
     ++ (if ctx s =? 0 then [] else [CallExit (ctx s)])
  /\ finalize (snd run) = (Ok tt, snd run)
  /\ (finalize ;; finalize) s = run.
Proof.
  intros run. subst run.
  assert (finalize (snd (finalize s)) = (Ok tt, snd (finalize s))) as Hagain.
  { rewrite (finalize_run s). cbn [snd]. rewrite finalize_run. step.
    destruct (0 <? dev_count s) eqn:E; step; rewrite ?E, ?app_nil_r;
      reflexivity. }
  split; [now rewrite finalize_run |].
  split; [now rewrite finalize_run |].
  split.
  { rewrite finalize_run. step. destruct (0 <? dev_count s) eqn:E; lia. }
  split; [now rewrite finalize_run |].
  split; [exact Hagain |].
  rewrite bind_eq.
  destruct (finalize s) as [[[] | msg |] s'] eqn:Hrun;
    rewrite finalize_run in Hrun; inversion Hrun; subst s'.
  cbn [snd] in Hagain. rewrite Hagain. reflexivity.
Qed.

Example finalize_frees_then_exits :
  calls (snd (finalize
                (set_ctx 1 (set_dev_count 1
                              (set_dev_list 3 [widget] initial_state)))))
  = [CallFreeDeviceList 3 1; CallExit 1].
Proof. reflexivity. Qed.

(** ** Loading the device list *)

(** What follows [INITIALIZE] in [load_device_list]. *)
Lemma load_after_INITIALIZE usb s :
  (free_dev_list ;;
   n <- libusb_get_device_list usb ;;
   modify (set_dev_count n) ;;
   when (n <? 0) (y_error "failed to get USB devices list")) s =
  let s1 := snd (free_dev_list s) in
  let r := usb_get_device_list usb (calls s1) (ctx s1) in
  (if fst r <? 0 then Raised "failed to get USB devices list" else Ok tt,
   set_dev_count (fst r)
     (set_dev_list (length (calls s1)) (snd r)
        (set_calls (calls s1 ++ [CallGetDeviceList (ctx s1)]) s1))).
Proof.
  rewrite bind_eq, free_dev_list_run. cbn [snd].
  unfold libusb_get_device_list. step.
  destruct (usb_get_device_list usb _ _) as [n l]. step.
  destruct (n <? 0); reflexivity.
Qed.

Lemma free_dev_list_ctx s : ctx (snd (free_dev_list s)) = ctx s.
Proof.
  rewrite free_dev_list_run. cbn [snd]. destruct (0 <? dev_count s);
    reflexivity.
Qed.

Lemma free_dev_list_calls s :
  calls (snd (free_dev_list s)) =
  calls s ++ (if 0 <? dev_count s
              then [CallFreeDeviceList (dev_list_id s) 1] else []).
Proof.
  rewrite free_dev_list_run. cbn [snd]. destruct (0 <? dev_count s).
  - reflexivity.
  - now rewrite app_nil_r.
Qed.

Lemma context_safe_free s :
  context_safe (if 0 <? dev_count s
                then [CallFreeDeviceList (dev_list_id s) 1] else []).
Proof.
  destruct (0 <? dev_count s); repeat constructor.
Qed.

(** X5.  [load_device_list] never reads outside an array and never hands
    a NULL context to the native library.  It returns normally only with
    a non-NULL context and a non-negative count.  With a context already
    there, it frees the list held on entry, asks for a new one, stores
    the returned count in [dev_count] whatever its sign, and raises
    exactly when that count is negative. *)
Theorem X5_load_device_list (usb : libusb) (s : state) :
  let run := load_device_list usb s in
  fst run <> Undefined
  /\ (exists extra, calls (snd run) = calls s ++ extra /\ context_safe extra)
  /\ (fst run = Ok tt -> ctx (snd run) <> 0 /\ 0 <= dev_count (snd run))
  /\ (ctx s <> 0 ->
      let s1 := snd (free_dev_list s) in
      let n := fst (usb_get_device_list usb (calls s1) (ctx s)) in
      calls (snd run) =
        calls s
        ++ (if 0 <? dev_count s
            then [CallFreeDeviceList (dev_list_id s) 1] else [])
        ++ [CallGetDeviceList (ctx s)]
      /\ dev_count (snd run) = n
      /\ fst run =
         (if n <? 0 then Raised "failed to get USB devices list"
          else Ok tt)).
Proof.
  intros run. subst run. unfold load_device_list. rewrite bind_eq.
  destruct (INITIALIZE_cases usb s)
    as [[Hc Hrun] | [[Hc (c & Hnz & Hinit & Hrun)]
                    | [Hc (code & c & msg & Hinit & Hbad & Hrun)]]];
    rewrite Hrun.
  - rewrite load_after_INITIALIZE. cbv zeta.
    cbn [fst snd ctx calls dev_count set_dev_count set_dev_list set_calls].
    rewrite !free_dev_list_ctx, !free_dev_list_calls.
    split; [destruct (_ <? 0); discriminate |].
    split.
    { eexists. rewrite <- app_assoc. split; [reflexivity |].
      apply Forall_app. split; [apply context_safe_free |].
      constructor; [| constructor]. cbn. now apply Z.eqb_neq. }
    split.
    { destruct (_ <? 0) eqn:E; [discriminate |]. intros _.
      split; [assumption | lia]. }
    intros _. rewrite <- app_assoc. repeat split.
  - rewrite load_after_INITIALIZE. cbv zeta.
    cbn [fst snd ctx calls dev_count set_dev_count set_dev_list set_calls].
    rewrite !free_dev_list_ctx, !free_dev_list_calls.
    cbn [fst snd ctx calls dev_count set_dev_count set_dev_list set_calls
         set_on_quit set_ctx dev_list_id].
    split; [destruct (_ <? 0); discriminate |].
    split.
    { eexists. rewrite <- !app_assoc. split; [reflexivity |].
      repeat (apply Forall_cons; split;
              [cbn; try reflexivity; now apply Z.eqb_neq |]).
      apply Forall_app. split; [apply context_safe_free |].
      constructor; [| constructor]. cbn. now apply Z.eqb_neq. }
    split.
    { destruct (_ <? 0) eqn:E; [discriminate |]. intros _.
      split; [assumption | lia]. }
    intros Hn. contradiction.
  - cbn [fst snd calls set_ctx set_calls].
    split; [discriminate |].
    split.
    { eexists. split; [reflexivity |]. repeat constructor. }
    split; [intros Hok; discriminate |].
    intros Hn. contradiction.
Qed.

Lemma X5_witness :
  (* a context and a list are held on entry, the enumeration fails *)
  let s := set_ctx 1 (set_dev_count 1 (set_dev_list 3 [widget] initial_state)) in
  let run := load_device_list no_list_usb s in
  calls (snd run) = [CallFreeDeviceList 3 1; CallGetDeviceList 1]
  /\ dev_count (snd run) = LIBUSB_ERROR_NO_MEM
  /\ fst run = Raised "failed to get USB devices list".
Proof.
  apply (proj2 (proj2 (proj2
           (X5_load_device_list no_list_usb
              (set_ctx 1 (set_dev_count 1
                            (set_dev_list 3 [widget] initial_state))))))).
  vm_compute. discriminate.
Defined.

(** ** The debug level *)

(** X6.  [Y_usb_debug] called with one argument never hands a NULL
    context to libusb_set_debug.  With a context already there it only
    sets the requested level and pushes nil; starting from a NULL context
    it initialises the library first, the requested level being set after
    the default one; and when the initialisation fails it raises without
    setting any level.  With another number of arguments it raises and
    does nothing. *)
Theorem X6_debug_level_needs_a_context
  (usb : libusb) (argc level : Z) (s : state) :
  let run := Y_usb_debug usb argc level s in
  (argc <> 1 -> run = (Raised "expecting exactly one argument", s))
  /\ (argc = 1 ->
      (exists extra,
         calls (snd run) = calls s ++ extra /\ context_safe extra)
      /\ (ctx s <> 0 ->
          run = (Ok tt,
                 set_stack (YNil :: stack s)
                   (set_calls (calls s ++ [CallSetDebug (ctx s) level]) s)))
      /\ (ctx s = 0 -> fst run = Ok tt ->
          calls (snd run) =
            calls s ++ [CallInit;
                        CallSetDebug (ctx (snd run)) LIBUSB_LOG_LEVEL_NONE;
                        CallSetLocale "en";
                        CallSetDebug (ctx (snd run)) level]
          /\ ctx (snd run) <> 0)
      /\ (fst run <> Ok tt ->
          calls (snd run) = calls s ++ [CallInit]
          /\ stack (snd run) = stack s)).
Proof.
  intros run. subst run. unfold Y_usb_debug. split.
  - intros Hargc. rewrite bind_eq. step.
    destruct (argc =? 1) eqn:E; [apply Z.eqb_eq in E; contradiction |].
    reflexivity.
  - intros ->. rewrite bind_eq. cbn [when negb Z.eqb Pos.eqb ret].
    rewrite bind_eq.
    destruct (INITIALIZE_cases usb s)
      as [[Hc Hrun] | [[Hc (c & Hnz & Hinit & Hrun)]
                      | [Hc (code & c & msg & Hinit & Hbad & Hrun)]]];
      rewrite Hrun; unfold libusb_set_debug; step.
    + split.
      { eexists. split; [reflexivity |]. constructor; [| constructor].
        cbn. now apply Z.eqb_neq. }
      split; [intros _; reflexivity |].
      split; [intros Hz; contradiction |].
      intros Hno. now contradiction Hno.
    + split.
      { eexists. rewrite <- !app_assoc. split; [reflexivity |].
        repeat (apply Forall_cons; split;
                [cbn; try reflexivity; now apply Z.eqb_neq |]).
        constructor. }
      split; [intros Hn; contradiction |].
      split.
      { intros _ _. rewrite <- !app_assoc. split; [reflexivity | assumption]. }
      intros Hno. now contradiction Hno.
    + split.
      { eexists. split; [reflexivity |]. repeat constructor. }
      split; [intros Hn; contradiction |].
      split; [intros _ Hok; discriminate |].
      intros _. split; reflexivity.
Qed.

Lemma X6_witness :
  Y_usb_debug single_init_usb 2 3 initial_state
  = (Raised "expecting exactly one argument", initial_state)
  /\ calls (snd (Y_usb_debug single_init_usb 1 3 initial_state))
     = [CallInit; CallSetDebug 1 0; CallSetLocale "en"; CallSetDebug 1 3]
  /\ calls (snd (Y_usb_debug no_init_usb 1 3 initial_state)) = [CallInit].
Proof.
  split; [| split].
  - apply (proj1 (X6_debug_level_needs_a_context single_init_usb 2 3
                    initial_state)).
    lia.
  - apply (proj1 (proj2 (proj2 (proj2
             (X6_debug_level_needs_a_context single_init_usb 1 3
                initial_state) eq_refl))) eq_refl eq_refl).
  - apply (proj2 (proj2 (proj2
             (X6_debug_level_needs_a_context no_init_usb 1 3
                initial_state) eq_refl))).
    vm_compute. discriminate.
Defined.

(** ** The device object *)

(** X7.  A device object answers to exactly seven member names.  For one
    of them [ydev_extract] pushes one integer and does nothing else; for
    any other name, the empty name and a NULL name included, it raises
    "bad member name" and leaves the state as it was. *)
Theorem X7_device_members (obj : ydev_instance) (member : option string)
  (s : state) :
  let run := ydev_extract obj member s in
  (fst run = Ok tt <->
   exists name, member = Some name /\ In name member_names)
  /\ (fst run = Ok tt ->
      exists v, snd run = set_stack (YInt v :: stack s) s)
  /\ (fst run <> Ok tt -> run = (Raised "bad member name", s)).
Proof.
  intros run. subst run. unfold ydev_extract, strcmp_eq.
  destruct member as [m |].
  2: { cbn. split; [split; [discriminate | intros (n & Hn & _); discriminate] |].
       split; [discriminate | reflexivity]. }
  destruct (String.eqb_spec m "bus") as [-> | Hbus].
  { cbn. split; [split; [intros _; exists "bus"; cbn; tauto | reflexivity] |].
    split; [intros _; eexists; reflexivity | intros H; now contradiction H]. }
  destruct (String.eqb_spec m "port") as [-> | Hport].
  { cbn. split; [split; [intros _; exists "port"; cbn; tauto | reflexivity] |].
    split; [intros _; eexists; reflexivity | intros H; now contradiction H]. }
  destruct (String.eqb_spec m "address") as [-> | Haddress].
  { cbn. split; [split; [intros _; exists "address"; cbn; tauto | reflexivity] |].
    split; [intros _; eexists; reflexivity | intros H; now contradiction H]. }
  destruct (String.eqb_spec m "vendor") as [-> | Hvendor].
  { cbn. split; [split; [intros _; exists "vendor"; cbn; tauto | reflexivity] |].
    split; [intros _; eexists; reflexivity | intros H; now contradiction H]. }
  destruct (String.eqb_spec m "product") as [-> | Hproduct].
  { cbn. split; [split; [intros _; exists "product"; cbn; tauto | reflexivity] |].
    split; [intros _; eexists; reflexivity | intros H; now contradiction H]. }
  destruct (String.eqb_spec m "manufacturer") as [-> | Hmanufacturer].
  { cbn.
    split; [split; [intros _; exists "manufacturer"; cbn; tauto | reflexivity] |].
    split; [intros _; eexists; reflexivity | intros H; now contradiction H]. }
  destruct (String.eqb_spec m "serial") as [-> | Hserial].
  { cbn. split; [split; [intros _; exists "serial"; cbn; tauto | reflexivity] |].
    split; [intros _; eexists; reflexivity | intros H; now contradiction H]. }
  rewrite !andb_false_r. cbn [fst snd y_error].
  split; [split |].
  - discriminate.
  - intros (name & Heq & Hin). inversion Heq; subst name. cbn in Hin.
    intuition congruence.
  - split; [discriminate | reflexivity].
Qed.

Lemma X7_witness :
  ydev_extract open_widget (Some "colour") initial_state
  = (Raised "bad member name", initial_state)
  /\ ydev_extract open_widget None initial_state
     = (Raised "bad member name", initial_state).
Proof.
  split.
  - apply (proj2 (proj2 (X7_device_members open_widget (Some "colour")
                           initial_state))).
    vm_compute. discriminate.
  - apply (proj2 (proj2 (X7_device_members open_widget None initial_state))).
    vm_compute. discriminate.
Defined.

Lemma ydev_free_run obj s :
  ydev_free obj s =
  (Ok tt,
   set_calls
     (calls s
      ++ (if handle obj =? 0 then [] else [CallClose (handle obj)])
      ++ (match device obj with
          | Some d => [CallUnrefDevice (dev_ptr d)]
          | None => []
          end)) s).
Proof.
  unfold ydev_free, libusb_close, libusb_unref_device. step.
  destruct (handle obj =? 0), (device obj); step;
    rewrite <- ?app_assoc, ?app_nil_r; try reflexivity.
  all: destruct s; reflexivity.
Qed.

(** X8.  However the opening of a matched device ends (open failure,
    descriptor failure or success), the object it leaves on top of the
    stack releases exactly what was acquired when the interpreter frees
    it: the one device reference taken is dropped once, and the handle is
    closed, before that, exactly when libusb_open did not fail and left a
    non-NULL handle. *)
Theorem X8_object_releases_what_open_acquired
  (dev : libusb_device) (bus port : Z) (s : state) :
  exists obj,
    top_object (snd (open_matched dev bus port s)) = Some obj
    /\ forall s2,
         ydev_free obj s2 =
         (Ok tt,
          set_calls
            (calls s2
             ++ (if (open_status dev <? 0) || (open_handle dev =? 0)
                 then [] else [CallClose (open_handle dev)])
             ++ [CallUnrefDevice (dev_ptr dev)]) s2).
Proof.
  unfold open_matched, libusb_ref_device, libusb_open,
    libusb_get_device_descriptor, libusb_get_device_address, update_obj,
    free_dev_list, libusb_free_device_list, top_object.
  step.
  destruct (open_status dev <? 0) eqn:Eo; step.
  - eexists. split; [reflexivity |]. intros s2.
    rewrite ydev_free_run. reflexivity.
  - destruct (descriptor_status dev =? 0) eqn:Ed; step.
    + eexists. split; [reflexivity |]. intros s2.
      rewrite ydev_free_run. reflexivity.
    + destruct (0 <? dev_count s) eqn:En; step;
        (eexists; split; [reflexivity |]; intros s2;
         rewrite ydev_free_run; reflexivity).
Qed.

(** ** Opening a device: every path *)

Lemma first_match bus port (l : list libusb_device) :
  (forall j dev, l !! j = Some dev -> ~ at_bus_port bus port dev)
  \/ (exists k dev,
        l !! k = Some dev
        /\ at_bus_port bus port dev
        /\ forall j dev', (j < k)%nat -> l !! j = Some dev' ->
                          ~ at_bus_port bus port dev').
Proof.
  induction l as [| d l IH].
  - left. intros j dev Hl. destruct j; discriminate.
  - destruct (Z.eq_dec (bus_number d) bus) as [Hb | Hb];
      [destruct (Z.eq_dec (port_number d) port) as [Hp | Hp] |].
    + right. exists 0%nat, d. split; [reflexivity |]. split; [now split |].
      intros j dev' Hj. lia.
    + destruct IH as [Hnone | (k & dev & Hk & Hat & Hbefore)].
      * left. intros [| j] dev Hl.
        -- inversion Hl; subst. intros [_ Hp']. contradiction.
        -- now apply (Hnone j).
      * right. exists (S k), dev. split; [exact Hk |]. split; [exact Hat |].
        intros [| j] dev' Hj Hl.
        -- inversion Hl; subst. intros [_ Hp']. contradiction.
        -- apply (Hbefore j); [lia | exact Hl].
    + destruct IH as [Hnone | (k & dev & Hk & Hat & Hbefore)].
      * left. intros [| j] dev Hl.
        -- inversion Hl; subst. intros [Hb' _]. contradiction.
        -- now apply (Hnone j).
      * right. exists (S k), dev. split; [exact Hk |]. split; [exact Hat |].
        intros [| j] dev' Hj Hl.
        -- inversion Hl; subst. intros [Hb' _]. contradiction.
        -- apply (Hbefore j); [lia | exact Hl].
Qed.

Lemma Y_usb_open_device_at_match usb bus port s s1 k dev :
  load_device_list usb s = (Ok tt, s1) ->
  dev_count s1 = Z.of_nat (length (dev_list s1)) ->
  dev_list s1 !! k = Some dev ->
  at_bus_port bus port dev ->
  (forall j dev', (j < k)%nat -> dev_list s1 !! j = Some dev' ->
                  ~ at_bus_port bus port dev') ->
  Y_usb_open_device usb 2 bus port s =
  match open_matched dev bus port s1 with
  | (Ok _, s2) => (Ok tt, snd (free_dev_list s2))
  | (Raised msg, s2) => (Raised msg, s2)
  | (Undefined, s2) => (Undefined, s2)
  end.
Proof.
  intros Hload Hcount Hk Hat Hbefore. unfold Y_usb_open_device.
  cbn [when negb Z.eqb Pos.eqb]. rewrite bind_eq. cbn [ret].
  rewrite bind_eq, Hload, bind_eq. unfold get at 1.
  pose proof (lookup_lt_Some _ _ _ Hk) as Hlt.
  rewrite bind_eq,
    (open_loop_first_match bus port s1 k dev Hk Hat Hbefore) by lia.
  rewrite bind_eq.
  destruct (open_matched dev bus port s1) as [[[] | msg |] s2];
    try reflexivity.
  cbn [ret]. rewrite bind_eq, free_dev_list_run. reflexivity.
Qed.

Lemma free_dev_list_count s :
  0 <= dev_count s -> dev_count (snd (free_dev_list s)) = 0.
Proof.
  intros Hn. rewrite free_dev_list_run. cbn [snd].
  destruct (0 <? dev_count s) eqn:E; [reflexivity | lia].
Qed.



(** ** Probing the devices *)

Lemma store_data_run k v dims arr rest s :
  stack s = YIntArray dims arr :: rest ->
  0 <= k < Z.of_nat (length arr) ->
  store_data k v s =
  (Ok tt, set_stack (YIntArray dims (<[Z.to_nat k := v]> arr) :: rest) s).
Proof.
  intros Hs Hk. unfold store_data. rewrite Hs. settle. reflexivity.
Qed.

Lemma probe_body_readable i dev dims done tail rest s :
  dev_list s !! i = Some dev ->
  descriptor_status dev = 0 ->
  stack s = YIntArray dims (done ++ replicate 7 0 ++ tail) :: rest ->
  length done = (7 * i)%nat ->
  probe_body (Z.of_nat i) (7 * Z.of_nat i) s =
  (Ok tt,
   set_stack (YIntArray dims (done ++ device_row dev ++ tail) :: rest)
     (set_calls (calls s ++ [CallGetDeviceDescriptor (dev_ptr dev)]) s)).
Proof.
  intros Hl Hd Hs Hlen. unfold probe_body.
  rewrite bind_eq, (dev_list_at_run (Z.of_nat i) dev s)
    by (lia || now rewrite Nat2Z.id).
  unfold libusb_get_device_descriptor. step. rewrite Hd. step.
  assert (forall k (a7 : list Z),
            (k < 7)%nat -> length a7 = 7%nat ->
            0 <= 7 * Z.of_nat i + Z.of_nat k
              < Z.of_nat (length (done ++ a7 ++ tail))) as Hin.
  { intros k a7 Hk Ha. rewrite !length_app, Ha. lia. }
  assert (forall k v (a7 : list Z),
            (k < 7)%nat -> length a7 = 7%nat ->
            <[Z.to_nat (7 * Z.of_nat i + Z.of_nat k) := v]>
              (done ++ a7 ++ tail)
            = done ++ <[k := v]> a7 ++ tail) as Hput.
  { intros k v a7 Hk Ha.
    replace (Z.to_nat (7 * Z.of_nat i + Z.of_nat k))
      with (length done + k)%nat by lia.
    rewrite insert_app_r. f_equal.
    rewrite insert_app_l by lia. reflexivity. }
  unfold libusb_get_bus_number, libusb_get_port_number,
    libusb_get_device_address.
  change (replicate 7 0) with [0; 0; 0; 0; 0; 0; 0] in Hs.
  rewrite (store_data_run _ _ dims (done ++ [0; 0; 0; 0; 0; 0; 0] ++ tail) rest)
    by first [exact Hs | apply (Hin 0%nat); [lia | reflexivity]].
  rewrite (Hput 0%nat) by (lia || reflexivity). cbn [insert list_insert].
  set (b := bus_number dev).
  rewrite (store_data_run _ _ dims (done ++ [b; 0; 0; 0; 0; 0; 0] ++ tail) rest)
    by first [reflexivity | apply (Hin 1%nat); [lia | reflexivity]].
  rewrite (Hput 1%nat) by (lia || reflexivity). cbn [insert list_insert].
  set (p := port_number dev).
  rewrite (store_data_run _ _ dims (done ++ [b; p; 0; 0; 0; 0; 0] ++ tail) rest)
    by first [reflexivity | apply (Hin 2%nat); [lia | reflexivity]].
  rewrite (Hput 2%nat) by (lia || reflexivity). cbn [insert list_insert].
  set (a := device_address dev).
  rewrite (store_data_run _ _ dims (done ++ [b; p; a; 0; 0; 0; 0] ++ tail) rest)
    by first [reflexivity | apply (Hin 3%nat); [lia | reflexivity]].
  rewrite (Hput 3%nat) by (lia || reflexivity). cbn [insert list_insert].
  set (v := idVendor (dev_descriptor dev)).
  rewrite (store_data_run _ _ dims (done ++ [b; p; a; v; 0; 0; 0] ++ tail) rest)
    by first [reflexivity | apply (Hin 4%nat); [lia | reflexivity]].
  rewrite (Hput 4%nat) by (lia || reflexivity). cbn [insert list_insert].
  set (q := idProduct (dev_descriptor dev)).
  rewrite (store_data_run _ _ dims (done ++ [b; p; a; v; q; 0; 0] ++ tail) rest)
    by first [reflexivity | apply (Hin 5%nat); [lia | reflexivity]].
  rewrite (Hput 5%nat) by (lia || reflexivity). cbn [insert list_insert].
  set (m := iManufacturer (dev_descriptor dev)).
  rewrite (store_data_run _ _ dims (done ++ [b; p; a; v; q; m; 0] ++ tail) rest)
    by first [reflexivity | apply (Hin 6%nat); [lia | reflexivity]].
  rewrite (Hput 6%nat) by (lia || reflexivity). cbn [insert list_insert].
  reflexivity.
Qed.

Lemma probe_body_unreadable i dev data s :
  dev_list s !! i = Some dev ->
  descriptor_status dev <> 0 ->
  probe_body (Z.of_nat i) data s =
  (Raised ("unable to get device descriptor ["
           +:+ get_error_name (descriptor_status dev) +:+ "]"),
   snd (free_dev_list
          (set_calls (calls s ++ [CallGetDeviceDescriptor (dev_ptr dev)]) s))).
Proof.
  intros Hl Hd. unfold probe_body.
  rewrite bind_eq, (dev_list_at_run (Z.of_nat i) dev s)
    by (lia || now rewrite Nat2Z.id).
  unfold libusb_get_device_descriptor. step.
  destruct (descriptor_status dev =? 0) eqn:E;
    [apply Z.eqb_eq in E; contradiction |].
  step. rewrite free_dev_list_run. reflexivity.
Qed.

Lemma replicate_rows i n :
  (i < n)%nat ->
  replicate (7 * (n - i)) 0 = replicate 7 0 ++ replicate (7 * (n - S i)) 0.
Proof.
  intros Hlt. rewrite <- replicate_add. f_equal. lia.
Qed.

Lemma probe_loop_unfold fuel i data s :
  probe_loop (S fuel) i data s =
  if i <? dev_count s then
    match probe_body i data s with
    | (Ok _, s') => probe_loop fuel (i + 1) (data + 7) s'
    | (Raised msg, s') => (Raised msg, s')
    | (Undefined, s') => (Undefined, s')
    end
  else (Ok tt, s).
Proof.
  cbn [probe_loop]. rewrite bind_eq. unfold get at 1.
  destruct (i <? dev_count s); reflexivity.
Qed.

Lemma probe_loop_readable dims rest :
  forall fuel i done s,
    dev_count s = Z.of_nat (length (dev_list s)) ->
    Forall (fun d => descriptor_status d = 0) (drop i (dev_list s)) ->
    (i <= length (dev_list s))%nat ->
    stack s =
      YIntArray dims (done ++ replicate (7 * (length (dev_list s) - i)) 0)
      :: rest ->
    length done = (7 * i)%nat ->
    (length (dev_list s) - i < fuel)%nat ->
    probe_loop fuel (Z.of_nat i) (7 * Z.of_nat i) s =
    (Ok tt,
     set_stack
       (YIntArray dims (done ++ flat_map device_row (drop i (dev_list s)))
        :: rest)
       (set_calls (calls s ++ descriptor_calls (drop i (dev_list s))) s)).
Proof.
  induction fuel as [| fuel IH]; intros i done s Hcount Hall Hi Hs Hlen Hfuel;
    [lia |].
  rewrite probe_loop_unfold.
  destruct (Z.of_nat i <? dev_count s) eqn:E.
  - apply Z.ltb_lt in E.
    assert (i < length (dev_list s))%nat as Hlt by lia.
    destruct (lookup_lt_is_Some_2 _ _ Hlt) as [dev Hl].
    rewrite (drop_S _ _ _ Hl) in *.
    inversion Hall as [| d l Hdev Hall']; subst.
    rewrite (replicate_rows i _ Hlt) in Hs.
    rewrite (probe_body_readable i dev dims done _ rest s Hl Hdev Hs Hlen).
    replace (Z.of_nat i + 1) with (Z.of_nat (S i)) by lia.
    replace (7 * Z.of_nat i + 7) with (7 * Z.of_nat (S i)) by lia.
    rewrite (IH (S i) (done ++ device_row dev)).
    + cbn [dev_list calls stack set_stack set_calls flat_map descriptor_calls
           map].
      rewrite <- !app_assoc. reflexivity.
    + exact Hcount.
    + exact Hall'.
    + exact Hlt.
    + cbn [stack set_stack dev_list set_calls]. rewrite <- app_assoc.
      reflexivity.
    + rewrite length_app, Hlen. cbn. lia.
    + cbn [dev_list set_stack set_calls]. lia.
  - apply Z.ltb_ge in E.
    assert (i = length (dev_list s)) as Hn by lia.
    rewrite drop_ge by lia. cbn [flat_map descriptor_calls map].
    rewrite !app_nil_r.
    replace (7 * (length (dev_list s) - i))%nat with 0%nat in Hs by lia.
    cbn [replicate] in Hs. rewrite app_nil_r in Hs. rewrite <- Hs.
    destruct s; reflexivity.
Qed.

Lemma probe_loop_releases dims rest :
  forall fuel i done s,
    dev_count s = Z.of_nat (length (dev_list s)) ->
    (i <= length (dev_list s))%nat ->
    stack s =
      YIntArray dims (done ++ replicate (7 * (length (dev_list s) - i)) 0)
      :: rest ->
    length done = (7 * i)%nat ->
    (length (dev_list s) - i < fuel)%nat ->
    let run := probe_loop fuel (Z.of_nat i) (7 * Z.of_nat i) s in
    fst run <> Undefined
    /\ (fst run = Ok tt -> 0 <= dev_count (snd run))
    /\ (forall msg, fst run = Raised msg -> dev_count (snd run) = 0).
Proof.
  induction fuel as [| fuel IH]; intros i done s Hcount Hi Hs Hlen Hfuel;
    [lia |].
  intros run. subst run. rewrite probe_loop_unfold.
  destruct (Z.of_nat i <? dev_count s) eqn:E.
  - apply Z.ltb_lt in E.
    assert (i < length (dev_list s))%nat as Hlt by lia.
    destruct (lookup_lt_is_Some_2 _ _ Hlt) as [dev Hl].
    destruct (Z.eq_dec (descriptor_status dev) 0) as [Hdev | Hdev].
    + rewrite (replicate_rows i _ Hlt) in Hs.
      rewrite (probe_body_readable i dev dims done _ rest s Hl Hdev Hs Hlen).
      replace (Z.of_nat i + 1) with (Z.of_nat (S i)) by lia.
      replace (7 * Z.of_nat i + 7) with (7 * Z.of_nat (S i)) by lia.
      apply (IH (S i) (done ++ device_row dev)).
      * exact Hcount.
      * exact Hlt.
      * cbn [stack set_stack dev_list set_calls]. rewrite <- app_assoc.
        reflexivity.
      * rewrite length_app, Hlen. cbn. lia.
      * cbn [dev_list set_stack set_calls]. lia.
    + rewrite (probe_body_unreadable i dev _ s Hl Hdev).
      cbn [fst snd]. split; [discriminate |].
      split; [intros Hok; discriminate |].
      intros msg _. apply free_dev_list_count.
      cbn [dev_count set_calls]. lia.
  - cbn [fst snd ret]. split; [discriminate |].
    split; [intros _; lia | intros msg Hr; discriminate].
Qed.

Lemma Y__usb_probe_devices_unfold usb s s1 :
  load_device_list usb s = (Ok tt, s1) ->
  Y__usb_probe_devices usb 1 true s =
  if 0 <? dev_count s1 then
    match probe_loop (S (Z.to_nat (dev_count s1))) 0 0
            (set_stack
               (YIntArray [7; dev_count s1]
                  (replicate (Z.to_nat (7 * dev_count s1)) 0) :: stack s1) s1)
    with
    | (Ok _, s2) => (Ok tt, snd (free_dev_list s2))
    | (Raised msg, s2) => (Raised msg, s2)
    | (Undefined, s2) => (Undefined, s2)
    end
  else (Ok tt, snd (free_dev_list (set_stack (YNil :: stack s1) s1))).
Proof.
  intros Hload. unfold Y__usb_probe_devices.
  cbn [when negb orb Z.eqb Pos.eqb]. rewrite bind_eq. cbn [ret].
  rewrite bind_eq, Hload, bind_eq. unfold get at 1. rewrite bind_eq.
  destruct (0 <? dev_count s1).
  - rewrite bind_eq. cbn [ypush_i ypush modify].
    destruct (probe_loop _ _ _ _) as [[[] | msg |] s2]; try reflexivity.
    rewrite free_dev_list_run. reflexivity.
  - cbn [ypush_nil ypush modify]. rewrite free_dev_list_run. reflexivity.
Qed.

(** X10.  When every enumerated device yields its descriptor,
    [Y__usb_probe_devices] returns a 7-by-n array of int holding, device
    after device in enumeration order, the bus number, port number,
    device address, idVendor, idProduct, iManufacturer and iSerialNumber;
    it asks each descriptor once, in order, then frees the list.  With no
    device it returns nil. *)
Theorem X10_probe_lists_every_device (usb : libusb) (s s1 : state) :
  load_device_list usb s = (Ok tt, s1) ->
  dev_count s1 = Z.of_nat (length (dev_list s1)) ->
  Forall (fun d => descriptor_status d = 0) (dev_list s1) ->
  let run := Y__usb_probe_devices usb 1 true s in
  fst run = Ok tt
  /\ stack (snd run) =
     (match dev_list s1 with
      | [] => YNil
      | _ => YIntArray [7; Z.of_nat (length (dev_list s1))]
               (flat_map device_row (dev_list s1))
      end) :: stack s1
  /\ calls (snd run) =
     calls s1 ++ descriptor_calls (dev_list s1)
     ++ (match dev_list s1 with
         | [] => []
         | _ => [CallFreeDeviceList (dev_list_id s1) 1]
         end)
  /\ dev_count (snd run) = 0.
Proof.
  intros Hload Hcount Hall run. subst run.
  rewrite (Y__usb_probe_devices_unfold usb s s1 Hload).
  destruct (0 <? dev_count s1) eqn:E.
  - apply Z.ltb_lt in E.
    rewrite Hcount, Nat2Z.id.
    replace (Z.to_nat (7 * Z.of_nat (length (dev_list s1))))
      with (7 * (length (dev_list s1) - 0))%nat by lia.
    match goal with
    | |- context [probe_loop ?f 0 0 ?st] =>
        change (probe_loop f 0 0 st)
          with (probe_loop f (Z.of_nat 0%nat) (7 * Z.of_nat 0%nat) st)
    end.
    rewrite (probe_loop_readable [7; Z.of_nat (length (dev_list s1))]
               (stack s1) _ 0%nat []).
    2: exact Hcount.
    2: exact Hall.
    2: apply Nat.le_0_l.
    2: reflexivity.
    2: reflexivity.
    2: cbn [dev_list set_stack]; lia.
    cbn [fst snd dev_list calls set_stack set_calls drop app].
    rewrite free_dev_list_run. cbn [snd dev_count set_stack set_calls].
    rewrite Hcount.
    destruct (dev_list s1) as [| d l] eqn:El; [cbn in Hcount; lia |].
    destruct (0 <? Z.of_nat (length (d :: l))) eqn:E';
      [| apply Z.ltb_ge in E'; cbn [length] in E'; lia].
    cbn [stack calls dev_count dev_list_id set_stack set_calls set_dev_count].
    rewrite <- app_assoc. repeat split.
  - apply Z.ltb_ge in E.
    destruct (dev_list s1) as [| d l] eqn:El; [| cbn in Hcount; lia].
    rewrite free_dev_list_run. cbn [fst snd dev_count set_stack].
    destruct (0 <? dev_count s1) eqn:E'; [lia |].
    cbn [stack calls dev_count set_stack descriptor_calls map app].
    rewrite app_nil_r. cbn in Hcount. repeat split. exact Hcount.
Qed.

Lemma X10_witness :
  let run := Y__usb_probe_devices two_device_usb 1 true initial_state in
  fst run = Ok tt
  /\ stack (snd run) =
     [YIntArray [7; 2] [1; 2; 5; 4660; 2; 1; 3; 1; 3; 6; 1133; 49271; 0; 0]]
  /\ calls (snd run) =
     [CallInit; CallSetDebug 1 0; CallSetLocale "en"; CallGetDeviceList 1;
      CallGetDeviceDescriptor 4096; CallGetDeviceDescriptor 12288;
      CallFreeDeviceList 3 1]
  /\ dev_count (snd run) = 0.
Proof.
  apply (X10_probe_lists_every_device two_device_usb initial_state
           (snd (load_device_list two_device_usb initial_state))
           eq_refl eq_refl).
  repeat constructor.
Defined.

(** Once the list is loaded, the array pushed by [Y__usb_probe_devices]
    has room for every row, and the list is released on every path. *)
Lemma probe_after_load usb s s1 :
  load_device_list usb s = (Ok tt, s1) ->
  dev_count s1 = Z.of_nat (length (dev_list s1)) ->
  fst (Y__usb_probe_devices usb 1 true s) <> Undefined
  /\ dev_count (snd (Y__usb_probe_devices usb 1 true s)) = 0.
Proof.
  intros Hload Hcount.
  rewrite (Y__usb_probe_devices_unfold usb s s1 Hload).
  destruct (0 <? dev_count s1) eqn:E.
  - apply Z.ltb_lt in E.
    rewrite Hcount, Nat2Z.id.
    replace (Z.to_nat (7 * Z.of_nat (length (dev_list s1))))
      with (7 * (length (dev_list s1) - 0))%nat by lia.
    match goal with
    | |- context [probe_loop ?f 0 0 ?st] =>
        change (probe_loop f 0 0 st)
          with (probe_loop f (Z.of_nat 0%nat) (7 * Z.of_nat 0%nat) st)
    end.
    destruct (probe_loop_releases [7; Z.of_nat (length (dev_list s1))]
                (stack s1) (S (length (dev_list s1))) 0%nat []
                (set_stack
                   (YIntArray [7; Z.of_nat (length (dev_list s1))]
                      (replicate (7 * (length (dev_list s1) - 0)) 0)
                    :: stack s1) s1))
      as (Hdef & Hok & Hraised).
    { exact Hcount. }
    { apply Nat.le_0_l. }
    { reflexivity. }
    { reflexivity. }
    { cbn [dev_list set_stack]. lia. }
    destruct (probe_loop _ _ _ _) as [[[] | msg |] s2];
      cbn [fst snd] in *.
    + split; [discriminate |]. apply free_dev_list_count. now apply Hok.
    + split; [discriminate |]. now apply (Hraised msg).
    + congruence.
  - apply Z.ltb_ge in E. cbn [fst snd].
    split; [discriminate |]. apply free_dev_list_count.
    cbn [dev_count set_stack]. lia.
Qed.



(** ** Transfers: rejected arguments *)

Lemma rejected_transfer_run k usb argc a size s :
  data_size_is (ta_data a) size ->
  ~ transfer_args_valid argc a size ->
  exists msg,
    In msg transfer_rejections
    /\ Y_usb_transfer k usb argc a s = (Raised msg, s).
Proof.
  intros Hsize Hbad. unfold transfer_args_valid, transfer_offset in Hbad.
  assert (forall transfer,
            exists msg,
              In msg transfer_rejections
              /\ do_transfer argc transfer a s = (Raised msg, s)) as Hdo.
  { intros transfer. unfold do_transfer. rewrite bind_eq.
    destruct (Z.eq_dec argc 6) as [-> | H6];
      [| destruct (Z.eq_dec argc 7) as [-> | H7]].
    - cbn [when negb andb Z.eqb Pos.eqb ret]. cbn [Z.eqb Pos.eqb] in Hbad.
      rewrite bind_eq, (Hsize s). step.
      destruct (ta_length a <? 0) eqn:E1; step;
        [exists "invalid length"; cbn; tauto |].
      destruct (size <? ta_length a) eqn:E2; step;
        [exists "length must be at most the size of the data"; cbn; tauto |].
      destruct (ta_transferred_index a <? 0) eqn:E3; step;
        [exists "expecting a simple variable reference"; cbn; tauto |].
      exfalso. apply Hbad. lia.
    - cbn [when negb andb Z.eqb Pos.eqb ret]. cbn [Z.eqb Pos.eqb] in Hbad.
      rewrite bind_eq, (Hsize s). step.
      destruct (ta_length a <? 0) eqn:E1; step;
        [exists "invalid length"; cbn; tauto |].
      destruct (size <? ta_length a) eqn:E2; step;
        [exists "length must be at most the size of the data"; cbn; tauto |].
      destruct (ta_transferred_index a <? 0) eqn:E3; step;
        [exists "expecting a simple variable reference"; cbn; tauto |].
      destruct (ta_offset a <? 0) eqn:E4; step;
        [exists "invalid offset"; cbn; tauto |].
      destruct (ta_length a <? ta_offset a) eqn:E5; step;
        [exists "invalid offset"; cbn; tauto |].
      exfalso. apply Hbad. lia.
    - apply Z.eqb_neq in H6, H7. rewrite H6, H7.
      exists "expecting 6 or 7 arguments". cbn. tauto. }
  destruct k; apply Hdo.
Qed.

Lemma get_data_unsupported type ntot s :
  ~ (0 <= type <= 6) ->
  get_data (DataArray type ntot) s = (Raised "bad data type", s).
Proof.
  intros Hbad. unfold get_data, Y_CHAR, Y_SHORT, Y_INT, Y_LONG, Y_FLOAT,
    Y_DOUBLE, Y_COMPLEX.
  settle. reflexivity.
Qed.

(** X12.  A bulk or interrupt transfer whose arguments do not pass
    validation (argument count other than 6 or 7, negative length, length
    beyond the buffer, no variable reference for the accumulator, offset
    outside 0..length) raises one of five messages, and one whose buffer
    has an element type other than the seven numeric ones raises "bad
    data type"; in both cases the whole state is left as it was: no
    native call, no write to the accumulator, nothing pushed. *)
Theorem X12_rejected_transfer_changes_nothing
  (k : transfer_kind) (usb : libusb) (argc : Z) (a : transfer_args)
  (s : state) :
  (forall size,
     data_size_is (ta_data a) size ->
     ~ transfer_args_valid argc a size ->
     exists msg,
       In msg transfer_rejections
       /\ Y_usb_transfer k usb argc a s = (Raised msg, s))
  /\ (forall type ntot,
        ta_data a = DataArray type ntot ->
        ~ (0 <= type <= 6) ->
        argc = 6 \/ argc = 7 ->
        Y_usb_transfer k usb argc a s = (Raised "bad data type", s)).
Proof.
  split.
  - intros size. apply rejected_transfer_run.
  - intros type ntot Hdata Hbad Hargc.
    assert (forall transfer,
              do_transfer argc transfer a s = (Raised "bad data type", s))
      as Hdo.
    { intros transfer. unfold do_transfer. rewrite bind_eq.
      destruct Hargc as [-> | ->];
        cbn [when negb andb Z.eqb Pos.eqb ret];
        now rewrite bind_eq, Hdata, get_data_unsupported. }
    destruct k; apply Hdo.
Qed.

Lemma X12_witness :
  exists msg,
    In msg transfer_rejections
    /\ Y_usb_transfer Bulk stalled_usb 7 (transfer_request_of 8 9 true)
         accumulating_state
       = (Raised msg, accumulating_state).
Proof.
  apply (proj1 (X12_rejected_transfer_changes_nothing Bulk stalled_usb 7
                  (transfer_request_of 8 9 true) accumulating_state) 10).
  - apply ten_bytes_size.
  - unfold transfer_args_valid. cbn. lia.
Defined.

Lemma transfer_args_valid_dec argc a size :
  transfer_args_valid argc a size \/ ~ transfer_args_valid argc a size.
Proof.
  unfold transfer_args_valid.
  destruct (Z.eq_dec argc 6), (Z.eq_dec argc 7),
    (Z_le_dec 0 (ta_length a)), (Z_le_dec (ta_length a) size),
    (Z_le_dec 0 (ta_transferred_index a)),
    (Z_le_dec 0 (transfer_offset argc a)),
    (Z_le_dec (transfer_offset argc a) (ta_length a));
    first [left; lia | right; lia].
Qed.

Lemma nil_buffer_size : data_size_is DataNil 0.
Proof. intros s. reflexivity. Qed.

(** X13.  With a nil buffer a bulk or interrupt transfer never reaches
    the native library and never writes the accumulator: it returns
    status 0 when the length is 0, and it raises in every other case. *)
Theorem X13_nil_buffer_never_reaches_native
  (k : transfer_kind) (usb : libusb) (argc : Z) (a : transfer_args)
  (s : state) :
  ta_data a = DataNil ->
  let run := Y_usb_transfer k usb argc a s in
  calls (snd run) = calls s
  /\ globals (snd run) = globals s
  /\ (fst run = Ok tt ->
      ta_length a = 0 /\ stack (snd run) = YInt 0 :: stack s)
  /\ (ta_length a <> 0 -> exists msg, run = (Raised msg, s)).
Proof.
  intros Hnil run. subst run.
  assert (data_size_is (ta_data a) 0) as Hsize
    by (rewrite Hnil; apply nil_buffer_size).
  destruct (transfer_args_valid_dec argc a 0) as [Hvalid | Hbad].
  - rewrite (transfer_run k usb argc a s 0 Hvalid Hsize). cbv zeta.
    destruct Hvalid as (_ & Hlen & _ & Hoff).
    destruct (transfer_offset argc a <? ta_length a) eqn:E; [lia |].
    cbn [fst snd calls globals stack set_stack].
    split; [reflexivity |]. split; [reflexivity |].
    split; [intros _; split; [lia | reflexivity] |].
    intros Hne. lia.
  - destruct (rejected_transfer_run k usb argc a 0 s Hsize Hbad)
      as (msg & _ & Hrun).
    rewrite Hrun. cbn [fst snd].
    split; [reflexivity |]. split; [reflexivity |].
    split; [intros Hok; discriminate |].
    intros _. now exists msg.
Qed.

Lemma X13_witness :
  let a := {| ta_obj := open_widget; ta_endpoint := 129; ta_data := DataNil;
              ta_length := 0; ta_transferred_index := 4; ta_timeout := 1000;
              ta_offset := 0; ta_subroutine := false |} in
  Y_usb_transfer Interrupt stalled_usb 6 a accumulating_state
  = (Ok tt, set_stack [YInt 0] accumulating_state)
  /\ calls (snd (Y_usb_transfer Interrupt stalled_usb 6 a accumulating_state))
     = [].
Proof.
  split; [reflexivity |].
  apply (X13_nil_buffer_never_reaches_native Interrupt stalled_usb 6
           {| ta_obj := open_widget; ta_endpoint := 129; ta_data := DataNil;
              ta_length := 0; ta_transferred_index := 4; ta_timeout := 1000;
              ta_offset := 0; ta_subroutine := false |} accumulating_state).
  reflexivity.
Defined.

(** ** Transfers: what reaches the native library *)

Lemma land_ones_range x n :
  0 <= n -> 0 <= Z.land x (Z.ones n) <= Z.ones n.
Proof.
  intros Hn. rewrite Z.land_ones by assumption. rewrite Z.ones_equiv.
  pose proof (Z.mod_pos_bound x (2 ^ n) ltac:(apply Z.pow_pos_nonneg; lia)).
  lia.
Qed.

Lemma land_8_range x : 0 <= Z.land x 255 <= 255.
Proof. apply (land_ones_range x 8). lia. Qed.

Lemma land_16_range x : 0 <= Z.land x 65535 <= 65535.
Proof. apply (land_ones_range x 16). lia. Qed.

Lemma land_32_range x : 0 <= Z.land x 4294967295 <= 4294967295.
Proof. apply (land_ones_range x 32). lia. Qed.

(** X14.  A control, bulk or interrupt call issues at most one native
    transfer, and what it hands to the native library is always within
    bounds: request type, request and endpoint fit 8 bits, value, index
    and control length fit 16 bits, the timeout fits 32 bits, and the
    bytes designated (length bytes for a control transfer, the non-empty
    slice from offset to length for the others) lie inside the caller's
    buffer. *)
Theorem X14_native_transfer_stays_within_buffer
  (usb : libusb) (q : transfer_request) (size : Z) (s : state) :
  data_size_is (request_data q) size ->
  in_int (request_length q) ->
  exists extra,
    calls (snd (issue usb q s)) = calls s ++ extra
    /\ (length extra <= 1)%nat
    /\ Forall (within_buffer size) extra.
Proof.
  intros Hsize Hint.
  destruct q as [a | k argc a]; cbn [issue request_data request_length] in *.
  - rewrite (control_transfer_run usb a s size Hsize).
    destruct (size <? Z.land (ca_length a) 65535) eqn:E.
    + exists []. rewrite app_nil_r. repeat split; [cbn; lia | constructor].
    + apply Z.ltb_ge in E. exists [control_call a]. cbv zeta. split.
      { destruct (_ && _); reflexivity. }
      split; [cbn; lia |]. constructor; [| constructor].
      unfold control_call, within_buffer.
      pose proof (land_8_range (ca_type a)).
      pose proof (land_8_range (ca_request a)).
      pose proof (land_16_range (ca_value a)).
      pose proof (land_16_range (ca_index a)).
      pose proof (land_16_range (ca_length a)).
      pose proof (land_32_range (ca_timeout a)).
      repeat split; lia.
  - destruct (transfer_args_valid_dec argc a size) as [Hvalid | Hbad].
    + rewrite (transfer_run k usb argc a s size Hvalid Hsize). cbv zeta.
      destruct Hvalid as (_ & Hlen & _ & Hoff).
      destruct (transfer_offset argc a <? ta_length a) eqn:E.
      * apply Z.ltb_lt in E.
        exists [transfer_call k a (transfer_offset argc a)]. split.
        { unfold after_transfer.
          destruct (_ && _), (_ || _); reflexivity. }
        split; [cbn; lia |]. constructor; [| constructor].
        pose proof (land_8_range (ta_endpoint a)).
        pose proof (land_32_range (ta_timeout a)).
        assert (int_sub (ta_length a) (transfer_offset argc a)
                = ta_length a - transfer_offset argc a) as Hsub.
        { apply int_wrap_id. unfold in_int, INT_MIN, INT_MAX in *. lia. }
        destruct k; unfold transfer_call, within_buffer; rewrite Hsub;
          repeat split; lia.
      * exists []. rewrite app_nil_r. repeat split; [cbn; lia | constructor].
    + destruct (rejected_transfer_run k usb argc a size s Hsize Hbad)
        as (msg & _ & Hrun).
      rewrite Hrun. exists []. rewrite app_nil_r.
      repeat split; [cbn; lia | constructor].
Qed.

Lemma X14_witness :
  exists extra,
    calls (snd (issue slow_usb
                  (BulkOrInterrupt Bulk 7 (transfer_request_of 8 2 false))
                  accumulating_state))
    = calls accumulating_state ++ extra
    /\ (length extra <= 1)%nat
    /\ Forall (within_buffer 10) extra.
Proof.
  apply (X14_native_transfer_stays_within_buffer slow_usb
           (BulkOrInterrupt Bulk 7 (transfer_request_of 8 2 false)) 10
           accumulating_state).
  - apply ten_bytes_size.
  - unfold in_int, INT_MIN, INT_MAX. cbn. lia.
Defined.

(** ** Transfers: resuming *)

(** X15.  Resuming a transfer at the offset left in the accumulator
    continues where it stopped.  After a call at offset O that ended with
    status 0 or timeout having moved t1 bytes, the accumulator holds
    O + t1; the same call made again with that offset does nothing but
    return 0 when O + t1 is the length, and otherwise asks the native
    library for the bytes from O + t1 to the length and, on status 0 or
    timeout with t2 bytes moved, leaves O + t1 + t2 in the accumulator. *)
Theorem X15_resumed_transfer_accumulates
  (k : transfer_kind) (usb : libusb) (a : transfer_args) (size : Z)
  (s : state) :
  data_size_is (ta_data a) size ->
  transfer_args_valid 7 a size ->
  in_int (ta_length a) ->
  ta_offset a < ta_length a ->
  let O := ta_offset a in
  let r1 := fst (transfer_reply k usb (calls s) a O) in
  let t1 := snd (transfer_reply k usb (calls s) a O) in
  r1 = 0 \/ r1 = LIBUSB_ERROR_TIMEOUT ->
  0 <= t1 ->
  O + t1 <= ta_length a ->
  let s1 := snd (Y_usb_transfer k usb 7 a s) in
  let a2 := with_offset (O + t1) a in
  globals s1 !! ta_transferred_index a = Some (YInt (O + t1))
  /\ (O + t1 = ta_length a ->
      Y_usb_transfer k usb 7 a2 s1 = (Ok tt, set_stack (YInt 0 :: stack s1) s1))
  /\ (O + t1 < ta_length a ->
      let r2 := fst (transfer_reply k usb (calls s1) a2 (O + t1)) in
      let t2 := snd (transfer_reply k usb (calls s1) a2 (O + t1)) in
      let s2 := snd (Y_usb_transfer k usb 7 a2 s1) in
      calls s2 = calls s1 ++ [transfer_call k a2 (O + t1)]
      /\ (r2 = 0 \/ r2 = LIBUSB_ERROR_TIMEOUT ->
          in_int (O + t1 + t2) ->
          globals s2 !! ta_transferred_index a = Some (YInt (O + t1 + t2)))).
Proof.
  intros Hsize Hvalid Hint Hlt O r1 t1 Hr1 Ht1 Hle s1 a2.
  assert (transfer_offset 7 a = O) as HO by reflexivity.
  assert (transfer_args_valid 7 a2 size) as Hvalid2.
  { destruct Hvalid as (Hargc & Hlen & Href & Hoff).
    unfold transfer_args_valid, transfer_offset. cbn [Z.eqb Pos.eqb].
    subst a2. cbn [with_offset ta_length ta_transferred_index ta_offset].
    rewrite HO in Hoff. split; [now right |]. lia. }
  assert (data_size_is (ta_data a2) size) as Hsize2 by exact Hsize.
  assert (forall r, r = 0 \/ r = LIBUSB_ERROR_TIMEOUT ->
                    (r =? 0) || (r =? LIBUSB_ERROR_TIMEOUT) = true) as Hor.
  { intros r [-> | ->]; reflexivity. }
  split; [| split].
  - subst s1.
    rewrite (transfer_run_globals k usb 7 a s size Hsize Hvalid)
      by (rewrite HO; exact Hlt).
    rewrite HO. fold r1 t1. unfold after_transfer. rewrite (Hor r1 Hr1).
    cbn [globals set_globals]. rewrite lookup_insert_eq.
    unfold int_add. rewrite int_wrap_id.
    + do 2 f_equal. lia.
    + destruct Hvalid as (_ & _ & _ & Hoff). rewrite HO in Hoff.
      unfold in_int, INT_MIN, INT_MAX in *. lia.
  - intros Hdone.
    rewrite (transfer_run k usb 7 a2 s1 size Hvalid2 Hsize2). cbv zeta.
    change (transfer_offset 7 a2) with (O + t1).
    change (ta_length a2) with (ta_length a).
    destruct (O + t1 <? ta_length a) eqn:E; [lia | reflexivity].
  - intros Hmore r2 t2 s2. subst s2.
    split.
    + rewrite (transfer_run k usb 7 a2 s1 size Hvalid2 Hsize2). cbv zeta.
      change (transfer_offset 7 a2) with (O + t1).
      change (ta_length a2) with (ta_length a).
      destruct (O + t1 <? ta_length a) eqn:E; [| lia].
      unfold after_transfer. destruct (_ && _), (_ || _); reflexivity.
    + intros Hr2 Hint2.
      rewrite (transfer_run_globals k usb 7 a2 s1 size Hsize2 Hvalid2)
        by exact Hmore.
      change (transfer_offset 7 a2) with (O + t1). fold r2 t2.
      unfold after_transfer. rewrite (Hor r2 Hr2).
      cbn [globals set_globals].
      change (ta_transferred_index a2) with (ta_transferred_index a).
      rewrite lookup_insert_eq. unfold int_add. rewrite int_wrap_id.
      * do 2 f_equal. lia.
      * replace (t2 + (O + t1)) with (O + t1 + t2) by lia. exact Hint2.
Qed.

Lemma X15_witness :
  let a := transfer_request_of 8 2 false in
  let s1 := snd (Y_usb_transfer Bulk three_bytes_usb 7 a accumulating_state) in
  globals s1 !! 4 = Some (YInt 5)
  /\ globals (snd (Y_usb_transfer Bulk three_bytes_usb 7 (with_offset 5 a) s1))
       !! 4 = Some (YInt 8).
Proof.
  destruct (X15_resumed_transfer_accumulates Bulk three_bytes_usb
              (transfer_request_of 8 2 false) 10 accumulating_state)
    as (H1 & _ & H2).
  - apply ten_bytes_size.
  - unfold transfer_args_valid. cbn. lia.
  - unfold in_int, INT_MIN, INT_MAX. cbn. lia.
  - cbn. lia.
  - right. reflexivity.
  - cbn. lia.
  - cbn. lia.
  - split; [exact H1 |].
    apply H2.
    + cbn. lia.
    + right. reflexivity.
    + unfold in_int, INT_MIN, INT_MAX. cbn. lia.
Defined.

(** ** Bounded strings *)

Lemma cstring_length_le (l : list Z) (i : nat) :
  l !! i = Some 0 -> (String.length (cstring l) <= i)%nat.
Proof.
  revert i. induction l as [| b l IH]; intros i Hl; [discriminate |].
  cbn [cstring]. destruct (b =? 0) eqn:E; [cbn; lia |].
  destruct i as [| i].
  - cbn in Hl. inversion Hl; subst. discriminate.
  - cbn [String.length]. apply IH in Hl. lia.
Qed.

Lemma string_buffer_length bytes :
  length (string_buffer bytes) = 256%nat.
Proof.
  unfold string_buffer, STRING_DESCRIPTOR_SIZE.
  rewrite length_take, length_app, length_replicate. lia.
Qed.

Lemma terminated_text_length bytes :
  (String.length (cstring (terminate (string_buffer bytes))) <= 255)%nat.
Proof.
  apply cstring_length_le. unfold terminate, STRING_DESCRIPTOR_SIZE.
  apply list_lookup_insert_eq. rewrite string_buffer_length. lia.
Qed.

(** X16.  Whatever the native library leaves in the 256-byte buffer, even
    a buffer with no NUL in it, the text that [get_string] returns and
    the text that [Y_usb_get_string] pushes are at most 255 characters
    long. *)
Theorem X16_string_descriptors_are_bounded
  (usb : libusb) (h : Z) (obj : ydev_instance) (index : Z) (s : state) :
  (forall text s',
     get_string usb h index s = (Ok text, s') ->
     (String.length text <= 255)%nat)
  /\ (forall text,
        head (stack (snd (Y_usb_get_string usb 2 obj index s)))
        = Some (YString text) ->
        (String.length text <= 255)%nat).
Proof.
  split.
  - intros text s' Hrun.
    destruct (Z_le_gt_dec index 0) as [Hle | Hgt].
    + rewrite get_string_placeholder in Hrun by assumption.
      inversion Hrun; subst. cbn. lia.
    + destruct (Z.eq_dec (string_status usb (calls s) h index) 0)
        as [Hz | Hnz].
      * rewrite get_string_success in Hrun by (lia || assumption).
        inversion Hrun; subst. apply terminated_text_length.
      * rewrite get_string_failure in Hrun by (lia || assumption).
        discriminate.
  - intros text Hhead. rewrite Y_usb_get_string_run in Hhead.
    cbn [snd stack set_stack head] in Hhead.
    destruct (_ <? 0); inversion Hhead; subst.
    apply terminated_text_length.
Qed.

Lemma X16_witness :
  exists text,
    head (stack (snd (Y_usb_get_string overflowing_usb 2 open_widget 1
                        initial_state)))
    = Some (YString text)
    /\ String.length text = 255%nat.
Proof.
  eexists. split; [reflexivity |].
  apply Nat.le_antisymm.
  - apply (proj2 (X16_string_descriptors_are_bounded overflowing_usb 77
                    open_widget 1 initial_state)).
    reflexivity.
  - vm_compute. reflexivity.
Defined.

(** ** The device summary: handles *)

Lemma get_string_cases usb h index s :
  (index <= 0 /\ get_string usb h index s = (Ok "unknown", s))
  \/ (exists text,
        get_string usb h index s =
        (Ok text, set_calls (calls s ++ [string_call h index]) s))
  \/ (exists msg,
        get_string usb h index s =
        (Raised msg,
         set_calls (calls s ++ [string_call h index; CallClose h]) s)).
Proof.
  destruct (Z_le_gt_dec index 0) as [Hle | Hgt].
  - left. split; [assumption | now apply get_string_placeholder].
  - right.
    destruct (Z.eq_dec (string_status usb (calls s) h index) 0) as [Hz | Hnz].
    + left. eexists. apply get_string_success; [lia | assumption].
    + right. eexists. apply get_string_failure; [lia | assumption].
Qed.

Lemma closed_app l1 l2 : closed (l1 ++ l2) = closed l1 ++ closed l2.
Proof. apply omap_app. Qed.

(** Close the goal of [summary_body_cases] on one path. *)
Ltac summary_path :=
  step; rewrite <- ?app_assoc; cbn [app];
  eexists _, _; split; [unfold logged_and_printed; reflexivity |];
  split; [discriminate |];
  split; [intros Hok; first [discriminate Hok | reflexivity] |];
  reflexivity.

Lemma summary_body_cases usb i dev s :
  0 <= i ->
  dev_list s !! Z.to_nat i = Some dev ->
  exists extra out,
    snd (summary_body usb i s) = logged_and_printed extra out s
    /\ fst (summary_body usb i s) <> Undefined
    /\ (fst (summary_body usb i s) = Ok tt ->
        closed extra = option_list (opened_handle dev))
    /\ closed extra =
       (if (descriptor_status dev =? 0) && (open_status dev =? 0)
        then [open_handle dev] else []).
Proof.
  intros Hi Hl. unfold summary_body.
  rewrite bind_eq, (dev_list_at_run i dev s Hi Hl).
  unfold libusb_get_device_descriptor, libusb_open, libusb_get_bus_number,
    libusb_get_port_number, libusb_get_device_address, libusb_close,
    opened_handle.
  step.
  destruct (descriptor_status dev =? 0) eqn:Ed; [| summary_path].
  step.
  destruct (open_status dev =? 0) eqn:Eo; [| summary_path].
  step.
  match goal with
  | |- context [get_string ?u ?h ?ix ?st] =>
      destruct (get_string_cases u h ix st)
        as [[_ H1] | [[t1 H1] | [m1 H1]]]; rewrite H1
  end; [| | summary_path].
  all: step.
  all: match goal with
       | |- context [get_string ?u ?h ?ix ?st] =>
           destruct (get_string_cases u h ix st)
             as [[_ H2] | [[t2 H2] | [m2 H2]]]; rewrite H2
       end; [| | summary_path].
  all: step.
  all: match goal with
       | |- context [get_string ?u ?h ?ix ?st] =>
           destruct (get_string_cases u h ix st)
             as [[_ H3] | [[t3 H3] | [m3 H3]]]; rewrite H3
       end; summary_path.
Qed.

(** X17.  One turn of the summary loop closes exactly the handle it
    opened, exactly once, on every path: not at all when the descriptor
    cannot be read or libusb_open answers a nonzero status, once
    otherwise, also when a string request fails and the turn ends by
    raising.  It changes nothing but the log and the output.  A device
    that cannot be opened is not an error: its six lines are printed and
    the turn returns normally. *)
Theorem X17_summary_turn_closes_what_it_opened
  (usb : libusb) (i : Z) (dev : libusb_device) (s : state) :
  0 <= i ->
  dev_list s !! Z.to_nat i = Some dev ->
  (exists extra out,
     snd (summary_body usb i s) = logged_and_printed extra out s
     /\ fst (summary_body usb i s) <> Undefined
     /\ closed extra =
        (if (descriptor_status dev =? 0) && (open_status dev =? 0)
         then [open_handle dev] else []))
  /\ (descriptor_status dev = 0 -> open_status dev <> 0 ->
      summary_body usb i s =
      (Ok tt,
       logged_and_printed
         [CallGetDeviceDescriptor (dev_ptr dev); CallOpen (dev_ptr dev)]
         [OutDevice i; OutBusNumber (bus_number dev);
          OutPortNumber (port_number dev);
          OutDeviceAddress (device_address dev);
          OutVendorID (idVendor (dev_descriptor dev));
          OutProductID (idProduct (dev_descriptor dev))] s)).
Proof.
  intros Hi Hl. split.
  - destruct (summary_body_cases usb i dev s Hi Hl)
      as (extra & out & Hs & Hdef & _ & Hclosed).
    now exists extra, out.
  - intros Hd Ho. unfold summary_body.
    rewrite bind_eq, (dev_list_at_run i dev s Hi Hl).
    unfold libusb_get_device_descriptor, libusb_open, libusb_get_bus_number,
      libusb_get_port_number, libusb_get_device_address.
    step. rewrite Hd. step.
    destruct (open_status dev =? 0) eqn:E;
      [apply Z.eqb_eq in E; contradiction |].
    step. rewrite <- !app_assoc. reflexivity.
Qed.

Lemma X17_witness :
  (* the gadget is busy: listed, not opened, nothing to close *)
  summary_body mixed_usb 0 (set_dev_list 0 [gadget; widget] initial_state)
  = (Ok tt,
     logged_and_printed
       [CallGetDeviceDescriptor 12288; CallOpen 12288]
       [OutDevice 0; OutBusNumber 1; OutPortNumber 3; OutDeviceAddress 6;
        OutVendorID 1133; OutProductID 49271]
       (set_dev_list 0 [gadget; widget] initial_state)).
Proof.
  apply (proj2 (X17_summary_turn_closes_what_it_opened mixed_usb 0 gadget
                  (set_dev_list 0 [gadget; widget] initial_state)
                  ltac:(lia) eq_refl)).
  - reflexivity.
  - vm_compute. discriminate.
Defined.

(** ** The device summary: the whole list *)

Lemma summary_loop_unfold usb fuel i s :
  summary_loop usb (S fuel) i s =
  if i <? dev_count s then
    match summary_body usb i s with
    | (Ok _, s') => summary_loop usb fuel (i + 1) s'
    | (Raised msg, s') => (Raised msg, s')
    | (Undefined, s') => (Undefined, s')
    end
  else (Ok tt, s).
Proof.
  cbn [summary_loop]. rewrite bind_eq. unfold get at 1.
  destruct (i <? dev_count s); reflexivity.
Qed.

Lemma logged_and_printed_twice e1 o1 e2 o2 s :
  logged_and_printed e2 o2 (logged_and_printed e1 o1 s)
  = logged_and_printed (e1 ++ e2) (o1 ++ o2) s.
Proof.
  unfold logged_and_printed. step. now rewrite !app_assoc.
Qed.

Lemma logged_and_printed_nothing s : logged_and_printed [] [] s = s.
Proof.
  unfold logged_and_printed. step. rewrite !app_nil_r. now destruct s.
Qed.

Lemma summary_loop_cases usb :
  forall fuel i s,
    dev_count s = Z.of_nat (length (dev_list s)) ->
    (i <= length (dev_list s))%nat ->
    (length (dev_list s) - i < fuel)%nat ->
    exists extra out,
      snd (summary_loop usb fuel (Z.of_nat i) s)
      = logged_and_printed extra out s
      /\ fst (summary_loop usb fuel (Z.of_nat i) s) <> Undefined
      /\ (fst (summary_loop usb fuel (Z.of_nat i) s) = Ok tt ->
          closed extra = omap opened_handle (drop i (dev_list s))).
Proof.
  induction fuel as [| fuel IH]; intros i s Hcount Hi Hfuel; [lia |].
  rewrite summary_loop_unfold.
  destruct (Z.of_nat i <? dev_count s) eqn:E.
  - apply Z.ltb_lt in E.
    assert (i < length (dev_list s))%nat as Hlt by lia.
    destruct (lookup_lt_is_Some_2 _ _ Hlt) as [dev Hl].
    destruct (summary_body_cases usb (Z.of_nat i) dev s)
      as (e1 & o1 & Hs1 & Hdef1 & Hok1 & _);
      [lia | now rewrite Nat2Z.id |].
    destruct (summary_body usb (Z.of_nat i) s) as [[[] | msg |] s'];
      cbn [fst snd] in *.
    + subst s'.
      replace (Z.of_nat i + 1) with (Z.of_nat (S i)) by lia.
      destruct (IH (S i) (logged_and_printed e1 o1 s))
        as (e2 & o2 & Hs2 & Hdef2 & Hok2);
        [exact Hcount | exact Hlt | cbn [dev_list logged_and_printed
                                          set_stdout set_calls]; lia |].
      exists (e1 ++ e2), (o1 ++ o2).
      rewrite Hs2, logged_and_printed_twice.
      split; [reflexivity |]. split; [exact Hdef2 |].
      intros Hok. rewrite closed_app, (Hok1 eq_refl), (Hok2 Hok).
      rewrite (drop_S _ _ _ Hl). cbn [omap list_omap].
      change (dev_list (logged_and_printed e1 o1 s)) with (dev_list s).
      destruct (opened_handle dev); reflexivity.
    + exists e1, o1. split; [assumption |].
      split; [discriminate | intros Hok; discriminate].
    + congruence.
  - apply Z.ltb_ge in E. exists [], []. cbn [fst snd].
    rewrite logged_and_printed_nothing. split; [reflexivity |].
    split; [discriminate |]. intros _. rewrite drop_ge by lia. reflexivity.
Qed.

Lemma Y_usb_summary_unfold usb argc s s1 :
  load_device_list usb s = (Ok tt, s1) ->
  Y_usb_summary usb argc s =
  match summary_loop usb (S (Z.to_nat (dev_count s1))) 0 s1 with
  | (Ok _, s2) =>
      (Ok tt,
       set_stack (YNil :: stack (snd (free_dev_list s2)))
         (snd (free_dev_list s2)))
  | (Raised msg, s2) => (Raised msg, s2)
  | (Undefined, s2) => (Undefined, s2)
  end.
Proof.
  intros Hload. unfold Y_usb_summary.
  rewrite bind_eq, Hload, bind_eq. unfold get at 1. rewrite bind_eq.
  destruct (summary_loop _ _ _ _) as [[[] | msg |] s2]; try reflexivity.
  rewrite bind_eq, free_dev_list_run. reflexivity.
Qed.



(** ** Transfers: results that are not failures *)

(** X19.  The calling context only matters for failures: a control, bulk
    or interrupt transfer whose native result is not negative returns
    normally with that result on top of the stack, in subroutine context
    as well. *)
Theorem X19_successful_transfer_returns_its_status
  (usb : libusb) (q : transfer_request) (s : state) :
  reaches_native q ->
  0 <= native_result usb (calls s) q ->
  fst (issue usb q s) = Ok tt
  /\ head (stack (snd (issue usb q s)))
     = Some (YInt (native_result usb (calls s) q)).
Proof.
  intros Hq Hpos.
  destruct q as [a | k argc a]; cbn [issue native_result] in *.
  - destruct Hq as (size & Hsize & Hlen).
    rewrite (control_transfer_run usb a s size Hsize). cbv zeta.
    destruct (size <? Z.land (ca_length a) 65535) eqn:E; [lia |].
    destruct (control_status usb (calls s) a <? 0) eqn:En; [lia |].
    split; reflexivity.
  - destruct Hq as (size & Hsize & Hvalid & Hoff).
    rewrite (transfer_run k usb argc a s size Hvalid Hsize). cbv zeta.
    destruct (transfer_offset argc a <? ta_length a) eqn:E; [| lia].
    destruct (fst (transfer_reply k usb (calls s) a (transfer_offset argc a))
              <? 0) eqn:En; [lia |].
    split; reflexivity.
Qed.

Lemma X19_witness :
  fst (issue zero_status_usb (Control (control_request 8 true)) initial_state)
  = Ok tt
  /\ head (stack (snd (issue zero_status_usb
                         (Control (control_request 8 true)) initial_state)))
     = Some (YInt 0).
Proof.
  apply (X19_successful_transfer_returns_its_status zero_status_usb
           (Control (control_request 8 true)) initial_state).
  - exists 10. split; [apply ten_bytes_size | vm_compute; discriminate].
  - vm_compute. discriminate.
Defined.

(** ** Invariants of a session

    A property of the state that survives the few operations touching the
    context or the device list, that ignores the interpreter side of the
    state and that survives the logging of a plain native call, is kept
    by every built-in. *)

Section Invariant.

Variable I : state -> Prop.
Variable usb : libusb.
Variable yget_global : string -> Z.

Hypothesis I_frame :
  forall s s',
    calls s' = calls s -> dev_count s' = dev_count s ->
    dev_list_id s' = dev_list_id s -> ctx s' = ctx s ->
    I s -> I s'.
Hypothesis I_log :
  forall c s, plain_call c = true -> I s -> I (set_calls (calls s ++ [c]) s).
Hypothesis I_free : keeps I free_dev_list.
Hypothesis I_load : keeps I (load_device_list usb).
Hypothesis I_debug : forall argc level, keeps I (Y_usb_debug usb argc level).
Hypothesis I_finalize : keeps I finalize.

Lemma keeps_ret {A : Type} (a : A) : keeps I (ret a).
Proof. intros s Hs. exact Hs. Qed.

Lemma keeps_bind {A B : Type} (m : M A) (k : A -> M B) :
  keeps I m -> (forall a, keeps I (k a)) -> keeps I (bind m k).
Proof.
  intros Hm Hk s Hs. rewrite bind_eq. specialize (Hm s Hs).
  destruct (m s) as [[a | msg |] s1]; cbn [snd] in *; [| assumption ..].
  now apply Hk.
Qed.

Lemma keeps_get {A : Type} (f : state -> A) : keeps I (get f).
Proof. intros s Hs. exact Hs. Qed.

Lemma keeps_y_error {A : Type} msg : keeps I (@y_error A msg).
Proof. intros s Hs. exact Hs. Qed.

Lemma keeps_out_of_bounds {A : Type} : keeps I (@out_of_bounds A).
Proof. intros s Hs. exact Hs. Qed.

Lemma keeps_failure {A : Type} reason code : keeps I (@failure A reason code).
Proof. intros s Hs. unfold failure. destruct reason as [[| c r] |]; exact Hs. Qed.

Lemma keeps_when b m : keeps I m -> keeps I (when b m).
Proof. intros Hm. destruct b; [exact Hm | apply keeps_ret]. Qed.

Lemma keeps_log c : plain_call c = true -> keeps I (log c).
Proof. intros Hc s Hs. now apply I_log. Qed.

(** The interpreter side. *)
Lemma keeps_ypush v : keeps I (ypush v).
Proof. intros s Hs. now apply (I_frame s). Qed.

Lemma keeps_fprintf l : keeps I (fprintf l).
Proof. intros s Hs. now apply (I_frame s). Qed.

Lemma keeps_update_obj f : keeps I (update_obj f).
Proof.
  intros s Hs. unfold update_obj.
  destruct (stack s) as [| [| | | | o] rest]; try exact Hs.
  now apply (I_frame s).
Qed.

Lemma keeps_store_data k v : keeps I (store_data k v).
Proof.
  intros s Hs. unfold store_data.
  destruct (stack s) as [| [| | | dims data | ] rest]; try exact Hs.
  destruct (_ && _); [| exact Hs]. now apply (I_frame s).
Qed.

Lemma keeps_yput_global index iarg : keeps I (yput_global index iarg).
Proof.
  intros s Hs. unfold yput_global.
  destruct (stack s !! iarg); [| exact Hs]. now apply (I_frame s).
Qed.

Lemma keeps_yarg_drop n : keeps I (yarg_drop n).
Proof. intros s Hs. now apply (I_frame s). Qed.

Lemma keeps_dev_list_at i : keeps I (dev_list_at i).
Proof.
  intros s Hs. unfold dev_list_at. rewrite bind_eq. cbn [get].
  destruct (i <? 0); [exact Hs |].
  destruct (dev_list s !! Z.to_nat i); exact Hs.
Qed.

(** The native side. *)
Lemma keeps_libusb_ref_device dev : keeps I (libusb_ref_device dev).
Proof.
  apply keeps_bind; [now apply keeps_log | intros _; apply keeps_ret].
Qed.

Lemma keeps_libusb_open dev : keeps I (libusb_open dev).
Proof.
  apply keeps_bind; [now apply keeps_log | intros _; apply keeps_ret].
Qed.

Lemma keeps_libusb_get_device_descriptor dev :
  keeps I (libusb_get_device_descriptor dev).
Proof.
  apply keeps_bind; [now apply keeps_log | intros _; apply keeps_ret].
Qed.

Lemma keeps_get_string_descriptor h index length :
  keeps I (get_string_descriptor usb h index length).
Proof.
  intros s Hs.
  unfold get_string_descriptor, libusb_get_string_descriptor_ascii.
  destruct (usb_get_string_descriptor_ascii _ _ _ _ _). cbn [snd].
  now apply I_log.
Qed.

Lemma keeps_libusb_control_transfer h t r v i l o :
  keeps I (libusb_control_transfer usb h t r v i l o).
Proof. intros s Hs. now apply I_log. Qed.

Lemma keeps_libusb_bulk_transfer h e o l t :
  keeps I (libusb_bulk_transfer usb h e o l t).
Proof. intros s Hs. now apply I_log. Qed.

Lemma keeps_libusb_interrupt_transfer h e o l t :
  keeps I (libusb_interrupt_transfer usb h e o l t).
Proof. intros s Hs. now apply I_log. Qed.

(** Walk through a built-in, one action at a time. *)
Ltac keep_with known :=
  repeat first
    [ known
    | apply keeps_ret | apply keeps_get | apply keeps_y_error
    | apply keeps_out_of_bounds | apply keeps_failure
    | apply keeps_ypush | apply keeps_fprintf | apply keeps_update_obj
    | apply keeps_store_data | apply keeps_yput_global
    | apply keeps_yarg_drop | apply keeps_dev_list_at
    | apply keeps_libusb_ref_device | apply keeps_libusb_open
    | apply keeps_libusb_get_device_descriptor
    | apply keeps_get_string_descriptor
    | apply keeps_libusb_control_transfer
    | apply keeps_libusb_bulk_transfer
    | apply keeps_libusb_interrupt_transfer
    | apply I_free | apply I_load | apply I_debug | apply I_finalize
    | apply keeps_log; reflexivity
    | apply keeps_when
    | apply keeps_bind; [| intros ?]
    | match goal with
      | |- keeps _ (if ?b then _ else _) => destruct b
      | |- keeps _ (match ?r with (_, _) => _ end) => destruct r
      | |- keeps _ (match ?o with Some _ => _ | None => _ end) => destruct o
      end ].
Ltac keep := keep_with fail.

Lemma keeps_get_string h index : keeps I (get_string usb h index).
Proof. unfold get_string, libusb_close. keep. Qed.

Lemma keeps_summary_body i : keeps I (summary_body usb i).
Proof.
  unfold summary_body, libusb_close.
  keep_with ltac:(apply keeps_get_string).
Qed.

Lemma keeps_summary_loop fuel : forall i, keeps I (summary_loop usb fuel i).
Proof.
  induction fuel as [| fuel IH]; intros i; cbn [summary_loop];
    keep_with ltac:(first [apply keeps_summary_body | apply IH]).
Qed.

Lemma keeps_Y_usb_summary argc : keeps I (Y_usb_summary usb argc).
Proof.
  unfold Y_usb_summary, ypush_nil.
  keep_with ltac:(apply keeps_summary_loop).
Qed.

Lemma keeps_open_matched dev bus port : keeps I (open_matched dev bus port).
Proof. unfold open_matched, ypush_obj. keep. Qed.

Lemma keeps_open_loop bus port fuel :
  forall i, keeps I (open_loop bus port fuel i).
Proof.
  induction fuel as [| fuel IH]; intros i; cbn [open_loop];
    keep_with ltac:(first [apply keeps_open_matched | apply IH]).
Qed.

Lemma keeps_Y_usb_open_device argc bus port :
  keeps I (Y_usb_open_device usb argc bus port).
Proof.
  unfold Y_usb_open_device, ypush_nil.
  keep_with ltac:(apply keeps_open_loop).
Qed.

Lemma keeps_probe_body i data : keeps I (probe_body i data).
Proof. unfold probe_body. keep. Qed.

Lemma keeps_probe_loop fuel :
  forall i data, keeps I (probe_loop fuel i data).
Proof.
  induction fuel as [| fuel IH]; intros i data; cbn [probe_loop];
    keep_with ltac:(first [apply keeps_probe_body | apply IH]).
Qed.

Lemma keeps_Y__usb_probe_devices argc arg_nil :
  keeps I (Y__usb_probe_devices usb argc arg_nil).
Proof.
  unfold Y__usb_probe_devices, ypush_nil, ypush_i.
  keep_with ltac:(apply keeps_probe_loop).
Qed.

Lemma keeps_get_data d : keeps I (get_data d).
Proof. unfold get_data. destruct d; keep. Qed.

Lemma keeps_do_transfer argc transfer a :
  (forall h e o l t, keeps I (transfer h e o l t)) ->
  keeps I (do_transfer argc transfer a).
Proof.
  intros Ht. unfold do_transfer, ypush_int.
  keep_with ltac:(first [apply keeps_get_data | apply Ht]).
Qed.

Lemma keeps_define_error_globals t :
  keeps I (define_error_globals yget_global t).
Proof.
  induction t as [| [code [a b]] t IH]; cbn [define_error_globals];
    keep_with ltac:(exact IH).
Qed.

Lemma keeps_run_builtin b : keeps I (run_builtin usb yget_global b).
Proof.
  destruct b; cbn [run_builtin].
  - unfold Y__usb_init, ypush_nil.
    keep_with ltac:(apply keeps_define_error_globals).
  - unfold Y_usb_error_name, push_string. keep.
  - unfold Y_usb_error_description, push_string. keep.
  - apply I_debug.
  - apply keeps_Y_usb_summary.
  - apply keeps_Y_usb_open_device.
  - apply keeps_Y__usb_probe_devices.
  - unfold Y_usb_get_string, ypush_int, push_string. keep.
  - unfold Y_usb_control_transfer, ypush_int.
    keep_with ltac:(apply keeps_get_data).
  - apply keeps_do_transfer. apply keeps_libusb_bulk_transfer.
  - apply keeps_do_transfer. apply keeps_libusb_interrupt_transfer.
  - unfold ydev_extract, ypush_int. keep.
  - unfold ydev_free, libusb_close, libusb_unref_device. keep.
  - apply I_finalize.
Qed.

Lemma keeps_session bs :
  forall s, I s -> I (session usb yget_global bs s).
Proof.
  induction bs as [| b bs IH]; intros s Hs; [exact Hs |].
  cbn [session]. pose proof (keeps_run_builtin b s Hs) as H.
  destruct (run_builtin usb yget_global b s) as [[[] | msg |] s'];
    cbn [snd] in H; [now apply IH | now apply IH | exact H].
Qed.

End Invariant.

(** ** Device lists over a session *)

Lemma plain_call_freed c : plain_call c = true -> freed [c] = [].
Proof. destruct c; cbn; congruence. Qed.

Lemma lists_well_tracked_debug usb argc level s :
  lists_well_tracked s ->
  lists_well_tracked (snd (Y_usb_debug usb argc level s)).
Proof.
  intros Hwf. unfold Y_usb_debug. rewrite bind_eq.
  destruct (argc =? 1); cbn [negb when]; [| exact Hwf].
  cbn [ret]. rewrite bind_eq.
  destruct (INITIALIZE_frame usb s) as (extra & Hc & Hf & Hn & Hid & _).
  pose proof (lists_well_tracked_frame s _ extra Hwf Hc Hf Hn Hid) as Hwf1.
  destruct (INITIALIZE usb s) as [[[] | msg |] s1]; cbn [snd] in *;
    [| assumption ..].
  unfold libusb_set_debug. step.
  apply (lists_well_tracked_frame s1 _ [CallSetDebug (ctx s1) level] Hwf1);
    reflexivity.
Qed.

Lemma lists_well_tracked_finalize s :
  lists_well_tracked s -> lists_well_tracked (snd (finalize s)).
Proof.
  intros Hwf. apply free_dev_list_tracked in Hwf.
  rewrite free_dev_list_run in Hwf. rewrite finalize_run. cbn [snd] in *.
  apply (lists_well_tracked_frame _ _
           (if ctx s =? 0 then [] else [CallExit (ctx s)]) Hwf).
  - destruct (0 <? dev_count s); cbn [calls set_calls set_dev_count set_ctx];
      rewrite <- ?app_assoc; reflexivity.
  - now destruct (ctx s =? 0).
  - now destruct (0 <? dev_count s).
  - now destruct (0 <? dev_count s).
Qed.

(** X20.  Whatever built-ins the interpreter runs, with whatever
    arguments, in whatever order, raising or not, and whatever the native
    library answers, the bookkeeping of the device list holds between any
    two of them: no list is freed twice, only lists that were obtained
    are freed, and a positive [dev_count] goes with a list not yet
    freed.  In particular the list kept by a failed [usb_open_device] is
    freed once, by the next enumeration or at exit. *)
Theorem X20_session_never_frees_a_list_twice
  (usb : libusb) (yget_global : string -> Z) (bs : list builtin) (s : state) :
  lists_well_tracked s ->
  lists_well_tracked (session usb yget_global bs s)
  /\ NoDup (freed (calls (session usb yget_global bs s))).
Proof.
  intros Hwf.
  assert (lists_well_tracked (session usb yget_global bs s)) as H.
  { revert s Hwf. apply keeps_session.
    - intros s s' Hc Hn Hid _ Hwf.
      apply (lists_well_tracked_frame s s' [] Hwf);
        rewrite ?app_nil_r; auto.
    - intros c s Hc Hwf.
      apply (lists_well_tracked_frame s _ [c] Hwf);
        auto using plain_call_freed.
    - intros s. apply free_dev_list_tracked.
    - intros s Hwf. now apply load_device_list_tracked.
    - intros argc level s. apply lists_well_tracked_debug.
    - intros s. apply lists_well_tracked_finalize. }
  split; [exact H | apply H].
Qed.

Lemma X20_witness :
  (* the open fails and keeps the list; the summary that follows frees it
     before enumerating again, and frees its own list *)
  NoDup (freed (calls (session locked_usb symbol_table
                         [BOpenDevice 2 1 2; BSummary 1; BQuit]
                         initial_state))).
Proof.
  apply (X20_session_never_frees_a_list_twice locked_usb symbol_table
           [BOpenDevice 2 1 2; BSummary 1; BQuit] initial_state).
  exact initial_state_tracked.
Defined.

Example kept_list_is_freed_by_the_next_enumeration :
  freed (calls (session locked_usb symbol_table
                  [BOpenDevice 2 1 2; BSummary 1; BQuit] initial_state))
  = [3; 7]%nat.
Proof. vm_compute. reflexivity. Qed.

(** ** The context over a session *)

Lemma plain_call_context c : plain_call c = true -> with_null_context c = false.
Proof. destruct c; cbn; congruence. Qed.

Lemma INITIALIZE_log usb s :
  exists extra,
    calls (snd (INITIALIZE usb s)) = calls s ++ extra
    /\ context_safe extra
    /\ (fst (INITIALIZE usb s) = Ok tt -> ctx (snd (INITIALIZE usb s)) <> 0).
Proof.
  destruct (INITIALIZE_cases usb s)
    as [[Hc Hrun] | [[Hc (c & Hnz & Hinit & Hrun)]
                    | [Hc (code & c & msg & Hinit & Hbad & Hrun)]]];
    rewrite Hrun; cbn [fst snd calls ctx set_calls set_on_quit set_ctx].
  - exists []. rewrite app_nil_r. repeat split; [constructor | auto].
  - eexists. split; [reflexivity |]. split; [| auto].
    repeat (apply Forall_cons; split;
            [cbn; try reflexivity; now apply Z.eqb_neq |]).
    constructor.
  - eexists. split; [reflexivity |]. split; [repeat constructor |].
    discriminate.
Qed.

Lemma context_safe_load usb s :
  context_safe (calls s) ->
  context_safe (calls (snd (load_device_list usb s))).
Proof.
  intros Hs. unfold load_device_list. rewrite bind_eq.
  destruct (INITIALIZE_log usb s) as (extra & Hc & Hsafe & Hctx).
  destruct (INITIALIZE usb s) as [[[] | msg |] s1]; cbn [fst snd] in *.
  2, 3: rewrite Hc; apply Forall_app; now split.
  rewrite load_after_INITIALIZE. cbv zeta.
  cbn [snd calls set_dev_count set_dev_list set_calls].
  rewrite free_dev_list_ctx, free_dev_list_calls, Hc.
  repeat (apply Forall_app; split); try assumption.
  - apply context_safe_free.
  - constructor; [| constructor]. cbn. apply Z.eqb_neq. now apply Hctx.
Qed.

Lemma context_safe_debug usb argc level s :
  context_safe (calls s) ->
  context_safe (calls (snd (Y_usb_debug usb argc level s))).
Proof.
  intros Hs. unfold Y_usb_debug. rewrite bind_eq.
  destruct (argc =? 1); cbn [negb when]; [| exact Hs].
  cbn [ret]. rewrite bind_eq.
  destruct (INITIALIZE_log usb s) as (extra & Hc & Hsafe & Hctx).
  destruct (INITIALIZE usb s) as [[[] | msg |] s1]; cbn [fst snd] in *.
  2, 3: rewrite Hc; apply Forall_app; now split.
  unfold libusb_set_debug. step. rewrite Hc.
  repeat (apply Forall_app; split); try assumption.
  constructor; [| constructor]. cbn. apply Z.eqb_neq. now apply Hctx.
Qed.

Lemma context_safe_finalize s :
  context_safe (calls s) -> context_safe (calls (snd (finalize s))).
Proof.
  intros Hs. rewrite finalize_run. cbn [snd calls set_calls].
  repeat (apply Forall_app; split); try assumption.
  - apply context_safe_free.
  - destruct (ctx s =? 0) eqn:E; constructor; [exact E | constructor].
Qed.

(** X21.  Whatever built-ins the interpreter runs, in whatever order and
    whatever the native library answers, libusb_set_debug,
    libusb_get_device_list and libusb_exit are never called with a NULL
    context: every use of [ctx] comes after an initialisation that
    succeeded, or is guarded by a test, also after [finalize] has reset
    it. *)
Theorem X21_session_never_passes_a_null_context
  (usb : libusb) (yget_global : string -> Z) (bs : list builtin) (s : state) :
  context_safe (calls s) ->
  context_safe (calls (session usb yget_global bs s)).
Proof.
  revert s.
  apply (keeps_session (fun s => context_safe (calls s))).
  - intros s s' Hc _ _ _ Hs. now rewrite Hc.
  - intros c s Hc Hs. cbn [calls set_calls]. apply Forall_app. split; [exact Hs |].
    constructor; [now apply plain_call_context | constructor].
  - intros s Hs. rewrite free_dev_list_calls. apply Forall_app.
    split; [exact Hs | apply context_safe_free].
  - intros s. apply context_safe_load.
  - intros argc level s. apply context_safe_debug.
  - intros s. apply context_safe_finalize.
Qed.

Lemma X21_witness :
  (* the library is used again after the interpreter ran [finalize] *)
  context_safe (calls (session two_device_usb symbol_table
                         [BDebug 1 3; BQuit; BQuit; BProbeDevices 1 true]
                         initial_state)).
Proof.
  apply (X21_session_never_passes_a_null_context two_device_usb symbol_table
           [BDebug 1 3; BQuit; BQuit; BProbeDevices 1 true] initial_state).
  constructor.
Defined.

(** ** Accesses stay within bounds *)

Lemma defined_ret {A : Type} (a : A) : never_undefined (ret a).
Proof. intros s. discriminate. Qed.

Lemma defined_bind {A B : Type} (m : M A) (k : A -> M B) :
  never_undefined m -> (forall a, never_undefined (k a)) ->
  never_undefined (bind m k).
Proof.
  intros Hm Hk s. rewrite bind_eq. specialize (Hm s).
  destruct (m s) as [[a | msg |] s1]; cbn [fst] in *;
    [apply Hk | discriminate | congruence].
Qed.

Lemma defined_get {A : Type} (f : state -> A) : never_undefined (get f).
Proof. intros s. discriminate. Qed.

Lemma defined_modify f : never_undefined (modify f).
Proof. intros s. discriminate. Qed.

Lemma defined_y_error {A : Type} msg : never_undefined (@y_error A msg).
Proof. intros s. discriminate. Qed.

Lemma defined_failure {A : Type} reason code :
  never_undefined (@failure A reason code).
Proof.
  intros s. unfold failure. destruct reason as [[| c r] |]; discriminate.
Qed.

Lemma defined_when b m : never_undefined m -> never_undefined (when b m).
Proof. intros Hm. destruct b; [exact Hm | apply defined_ret]. Qed.

(** The value just pushed is the one [yput_global] stores. *)
Lemma defined_push_put v index :
  never_undefined (ypush_int v ;; yput_global index 0).
Proof. intros s. discriminate. Qed.

Lemma defined_get_string_descriptor usb h index length :
  never_undefined (get_string_descriptor usb h index length).
Proof.
  intros s. unfold get_string_descriptor, libusb_get_string_descriptor_ascii.
  destruct (usb_get_string_descriptor_ascii _ _ _ _ _). discriminate.
Qed.

Ltac bounded_with known :=
  repeat first
    [ known
    | apply defined_ret | apply defined_get | apply defined_modify
    | apply defined_y_error | apply defined_failure
    | apply defined_push_put | apply defined_get_string_descriptor
    | apply defined_when
    | apply defined_bind; [| intros ?]
    | match goal with
      | |- never_undefined (if ?b then _ else _) => destruct b
      | |- never_undefined (match ?r with (_, _) => _ end) => destruct r
      end ].
Ltac bounded := bounded_with fail.

Lemma defined_INITIALIZE usb : never_undefined (INITIALIZE usb).
Proof.
  intros s. destruct (INITIALIZE_frame usb s) as (_ & _ & _ & _ & _ & H).
  exact H.
Qed.

Lemma defined_free_dev_list : never_undefined free_dev_list.
Proof. intros s. rewrite free_dev_list_run. discriminate. Qed.

Lemma defined_load_device_list usb : never_undefined (load_device_list usb).
Proof.
  assert (never_undefined (libusb_get_device_list usb)) as Hget.
  { intros s. unfold libusb_get_device_list.
    destruct (usb_get_device_list usb _ _). discriminate. }
  unfold load_device_list.
  bounded_with ltac:(first [apply defined_INITIALIZE
                           | apply defined_free_dev_list
                           | apply Hget]).
Qed.

(** With a library that counts its devices, a loaded list has
    [dev_count] elements. *)
Lemma load_device_list_counted usb s s1 :
  counts_its_devices usb ->
  load_device_list usb s = (Ok tt, s1) ->
  dev_count s1 = Z.of_nat (length (dev_list s1)).
Proof.
  intros Husb. unfold load_device_list. rewrite bind_eq.
  destruct (INITIALIZE usb s) as [[[] | msg |] s0]; [| discriminate ..].
  rewrite load_after_INITIALIZE. cbv zeta.
  destruct (_ <? 0) eqn:E; [discriminate |].
  intros [= <-]. cbn [dev_count dev_list set_dev_count set_dev_list].
  apply Husb. apply Z.ltb_ge in E. exact E.
Qed.

Lemma defined_Y_usb_summary usb argc :
  counts_its_devices usb -> never_undefined (Y_usb_summary usb argc).
Proof.
  intros Husb s.
  pose proof (defined_load_device_list usb s) as Hdef.
  destruct (load_device_list usb s) as [[[] | msg |] s1] eqn:Hload;
    cbn [fst] in Hdef; [| | congruence].
  - rewrite (Y_usb_summary_unfold usb argc s s1 Hload).
    pose proof (load_device_list_counted usb s s1 Husb Hload) as Hn.
    destruct (summary_loop_cases usb (S (Z.to_nat (dev_count s1))) 0%nat s1)
      as (extra & out & _ & Hloop & _); [exact Hn | lia | lia |].
    change (Z.of_nat 0) with 0 in Hloop.
    destruct (summary_loop _ _ _ _) as [[[] | msg |] s2];
      cbn [fst] in *; [discriminate | discriminate | congruence].
  - unfold Y_usb_summary. rewrite bind_eq, Hload. discriminate.
Qed.

Lemma defined_open_matched dev bus port s :
  0 < dev_count s -> fst (open_matched dev bus port s) <> Undefined.
Proof.
  intros Hn.
  destruct (Z_lt_le_dec (open_status dev) 0) as [Ho | Ho].
  - destruct (open_matched_open_failure dev bus port s Ho) as [-> _].
    discriminate.
  - destruct (Z.eq_dec (descriptor_status dev) 0) as [Hd | Hd].
    + rewrite (open_matched_run dev bus port s Ho Hd). discriminate.
    + destruct (open_matched_descriptor_failure dev bus port s Ho Hd Hn)
        as [-> _].
      discriminate.
Qed.

Lemma defined_Y_usb_open_device usb argc bus port :
  counts_its_devices usb ->
  never_undefined (Y_usb_open_device usb argc bus port).
Proof.
  intros Husb s.
  destruct (Z.eq_dec argc 2) as [-> | Hargc].
  2: { unfold Y_usb_open_device. rewrite bind_eq.
       apply Z.eqb_neq in Hargc. rewrite Hargc. discriminate. }
  pose proof (defined_load_device_list usb s) as Hdef.
  destruct (load_device_list usb s) as [[[] | msg |] s1] eqn:Hload;
    cbn [fst] in Hdef; [| | congruence].
  - pose proof (load_device_list_counted usb s s1 Husb Hload) as Hn.
    destruct (first_match bus port (dev_list s1))
      as [Hnone | (k & dev & Hk & Hdev & Hfirst)].
    + rewrite (Y_usb_open_device_no_match usb bus port s s1 Hload Hn Hnone).
      discriminate.
    + rewrite (Y_usb_open_device_at_match usb bus port s s1 k dev
                 Hload Hn Hk Hdev Hfirst).
      apply lookup_lt_Some in Hk.
      pose proof (defined_open_matched dev bus port s1) as Hm.
      destruct (open_matched dev bus port s1) as [[[] | msg |] s2];
        cbn [fst] in *; [discriminate | discriminate |].
      exfalso. apply Hm; [lia | reflexivity].
  - unfold Y_usb_open_device. rewrite bind_eq. cbn [when negb Z.eqb Pos.eqb ret].
    rewrite bind_eq, Hload. discriminate.
Qed.

Lemma defined_Y__usb_probe_devices usb argc arg_nil :
  counts_its_devices usb ->
  never_undefined (Y__usb_probe_devices usb argc arg_nil).
Proof.
  intros Husb s.
  destruct (negb (argc =? 1) || negb arg_nil) eqn:Hbad.
  { unfold Y__usb_probe_devices. rewrite bind_eq, Hbad. discriminate. }
  apply orb_false_elim in Hbad as [Hargc Hnil].
  apply negb_false_iff in Hargc, Hnil. apply Z.eqb_eq in Hargc. subst.
  pose proof (defined_load_device_list usb s) as Hdef.
  destruct (load_device_list usb s) as [[[] | msg |] s1] eqn:Hload;
    cbn [fst] in Hdef; [| | congruence].
  - apply (probe_after_load usb s s1 Hload).
    now apply load_device_list_counted with usb s.
  - unfold Y__usb_probe_devices. rewrite bind_eq.
    cbn [when negb orb Z.eqb Pos.eqb ret].
    rewrite bind_eq, Hload. discriminate.
Qed.

Lemma defined_get_data d : never_undefined (get_data d).
Proof. unfold get_data. destruct d; bounded. Qed.

Lemma defined_do_transfer argc transfer a :
  (forall h e o l t, never_undefined (transfer h e o l t)) ->
  never_undefined (do_transfer argc transfer a).
Proof.
  intros Ht. unfold do_transfer, ypush_int at 2.
  bounded_with ltac:(first [apply defined_get_data | apply Ht]).
Qed.

(** X22.  Provided libusb_get_device_list returns the number of devices
    it stores (or an error), no built-in, called with any arguments in
    any state, indexes [dev_list] at or beyond [dev_count] elements,
    writes outside the array it pushed, stores through an object or a
    stack element that is not there, or iterates more than [dev_count]
    times: it returns or raises. *)
Theorem X22_builtins_stay_within_bounds
  (usb : libusb) (yget_global : string -> Z) (b : builtin) :
  counts_its_devices usb ->
  never_undefined (run_builtin usb yget_global b).
Proof.
  intros Husb. destruct b; cbn [run_builtin].
  - intros s. unfold Y__usb_init. rewrite bind_eq, define_error_globals_run.
    discriminate.
  - unfold Y_usb_error_name, push_string. bounded.
  - unfold Y_usb_error_description, push_string. bounded.
  - unfold Y_usb_debug, libusb_set_debug, ypush_nil.
    bounded_with ltac:(apply defined_INITIALIZE).
  - now apply defined_Y_usb_summary.
  - now apply defined_Y_usb_open_device.
  - now apply defined_Y__usb_probe_devices.
  - unfold Y_usb_get_string, ypush_int, push_string. bounded.
  - unfold Y_usb_control_transfer, libusb_control_transfer, ypush_int.
    bounded_with ltac:(apply defined_get_data).
  - apply defined_do_transfer. intros h e o l t s. discriminate.
  - apply defined_do_transfer. intros h e o l t s. discriminate.
  - unfold ydev_extract, ypush_int. bounded.
  - intros s. rewrite ydev_free_run. discriminate.
  - intros s. rewrite finalize_run. discriminate.
Qed.

Lemma X22_witness :
  fst (run_builtin two_device_usb symbol_table (BProbeDevices 1 true)
         initial_state) <> Undefined.
Proof.
  apply (X22_builtins_stay_within_bounds two_device_usb symbol_table
           (BProbeDevices 1 true)).
  intros hist c _. reflexivity.
Defined.

(** The condition on the library is needed: a count larger than the list
    makes the summary read past the end of the list. *)
Example miscounted_list_is_read_past_its_end :
  fst (run_builtin miscounting_usb symbol_table (BSummary 1) initial_state)
  = Undefined.
Proof. vm_compute. reflexivity. Qed.
